(** * FleetRoute: the two callers of the route solver

    A shallow embedding of the "Optimize Now" handlers of [Lite.py] and
    [pages/Pro.py], the two Streamlit pages that prepare a distance matrix,
    call [solve_vrp] once per vehicle (or route) and record the result in the
    session state, and of what the two scripts do around them: the buttons
    that reset, load and edit the stops and the routes, the request for the
    route line, and Lite's dashboard.

    Python values are modelled as follows.
    - [str] is [string], holding the bytes of the UTF-8 encoding of the
      text: a character is one to four bytes.
    - [float] is the kernel's binary64 [float]; the [int] literals that
      meet floats in the arithmetic ([0], [40], [60], [111]) are the floats
      they convert to, and [int / int] is the double nearest to the
      quotient.  [x ** y] goes through the [pow] of the platform's C
      library, which is a parameter.  Results beyond the double range,
      where CPython raises [OverflowError], are outside the model
      (coordinates are degrees and distances are metres).
    - an [int] used as an index or a count is a [Z].
    - a raised exception is the [Exc] result of the [res] type; a handler
      is a function from the session state to a result and a new state.
    - the web services ([gmaps.geocode], [gmaps.distance_matrix]), the
      solver ([fleet_optimizer.solve_vrp], imported by both pages) and the
      platform's [pow] are the fields of a [services] record: functions of
      their arguments. *)

From Stdlib Require Import ZArith List String Ascii Lia Bool Floats.
From Stdlib Require DecimalString DecimalZ DecimalPos.
Import ListNotations.

Set Warnings "-inexact-float".
Open Scope string_scope.
Open Scope Z_scope.

(** ** Exceptions and results *)

Inductive exn : Type :=
| TypeError
| IndexError
| KeyError
| ApiError (msg : string)       (* raised by the googlemaps client *)
| EngineError (msg : string)    (* raised inside solve_vrp *)
| StopException.                (* st.stop() *)

Inductive res (A : Type) : Type :=
| Val (a : A)
| Exc (e : exn).
Arguments Val {A} a.
Arguments Exc {A} e.

Definition rbind {A B : Type} (c : res A) (k : A -> res B) : res B :=
  match c with
  | Val a => k a
  | Exc e => Exc e
  end.

Declare Scope res_scope.
Delimit Scope res_scope with res.
Notation "'let?' x ':=' c 'in' k" := (rbind c (fun x => k))
  (at level 10, x name, c at level 100, k at level 200) : res_scope.
Open Scope res_scope.

Fixpoint rmap {A B : Type} (f : A -> res B) (l : list A) : res (list B) :=
  match l with
  | [] => Val []
  | x :: xs =>
      let? y := f x in
      let? ys := rmap f xs in
      Val (y :: ys)
  end.

(** ** Python built-ins used by the two pages *)

Module Py.

(** [str.isspace] on one character, by its code point: the characters
    Python takes for whitespace (U+0009 to U+000D, U+001C to U+0020, U+0085,
    U+00A0, U+1680, U+2000 to U+200A, U+2028, U+2029, U+202F, U+205F and
    U+3000). *)
Definition isspace (cp : N) : bool :=
  ((9 <=? cp) && (cp <=? 13) || (28 <=? cp) && (cp <=? 32) || (cp =? 133) || (cp =? 160)
   || (cp =? 5760) || (8192 <=? cp) && (cp <=? 8202) || (cp =? 8232) || (cp =? 8233)
   || (cp =? 8239) || (cp =? 8287) || (cp =? 12288))%N.

(** The six low bits of a continuation byte [10xxxxxx]. *)
Definition continuation (c : ascii) : option N :=
  let b := N_of_ascii c in
  if ((128 <=? b) && (b <? 192))%N then Some (b - 128)%N else None.

(** The first character of a string, as its code point, and the rest of
    the string; [None] for the empty string and for bytes that do not start
    with an encoded character. *)
Definition code_point (s : string) : option (N * string) :=
  match s with
  | EmptyString => None
  | String c0 r0 =>
      let b := N_of_ascii c0 in
      if (b <? 128)%N then Some (b, r0)
      else if (b <? 192)%N then None
      else if (b <? 224)%N then
        match r0 with
        | String c1 r1 =>
            match continuation c1 with
            | Some x1 => Some (((b - 192) * 64 + x1)%N, r1)
            | None => None
            end
        | _ => None
        end
      else if (b <? 240)%N then
        match r0 with
        | String c1 (String c2 r2) =>
            match continuation c1, continuation c2 with
            | Some x1, Some x2 => Some ((((b - 224) * 64 + x1) * 64 + x2)%N, r2)
            | _, _ => None
            end
        | _ => None
        end
      else if (b <? 248)%N then
        match r0 with
        | String c1 (String c2 (String c3 r3)) =>
            match continuation c1, continuation c2, continuation c3 with
            | Some x1, Some x2, Some x3 =>
                Some (((((b - 240) * 64 + x1) * 64 + x2) * 64 + x3)%N, r3)
            | _, _, _ => None
            end
        | _ => None
        end
      else None
  end.

(** [s.lstrip()]: the leading whitespace characters are dropped.  The
    recursion is on [fuel]; the length of [s] is enough, as every character
    takes a byte at least. *)
Fixpoint lstrip_within (fuel : nat) (s : string) : string :=
  match fuel with
  | O => s
  | S fuel' =>
      match code_point s with
      | Some (cp, rest) => if isspace cp then lstrip_within fuel' rest else s
      | None => s
      end
  end.

Definition lstrip (s : string) : string := lstrip_within (String.length s) s.

(** A string that is empty or made of whitespace characters only. *)
Fixpoint spaces_within (fuel : nat) (s : string) : bool :=
  match s with
  | EmptyString => true
  | String _ _ =>
      match fuel with
      | O => false
      | S fuel' =>
          match code_point s with
          | Some (cp, rest) => isspace cp && spaces_within fuel' rest
          | None => false
          end
      end
  end.

Definition spaces (s : string) : bool := spaces_within (String.length s) s.

(** [s.rstrip()]: the longest end of [s] made of whitespace characters is
    dropped.  (An end of [s] that starts inside a character starts with a
    continuation byte, and is not made of whitespace characters.) *)
Fixpoint rstrip (s : string) : string :=
  match s with
  | EmptyString => EmptyString
  | String c s' => if spaces s then EmptyString else String c (rstrip s')
  end.

(** [s.strip()] *)
Definition strip (s : string) : string := rstrip (lstrip s).

(** Truth value of a string: [bool(s)]. *)
Definition truthy (s : string) : bool :=
  match s with
  | EmptyString => false
  | String _ _ => true
  end.

(** [len(l)] *)
Definition len {A : Type} (l : list A) : Z := Z.of_nat (List.length l).

(** [range(n)] *)
Definition range (n : Z) : list Z := map Z.of_nat (seq 0 (Z.to_nat n)).

(** [range(a, b)] *)
Definition range2 (a b : Z) : list Z := map (fun k => a + k) (range (b - a)).

(** [l[i]]: a negative index counts from the end, an index out of range
    raises [IndexError]. *)
Definition getitem {A : Type} (l : list A) (i : Z) : res A :=
  let j := if i <? 0 then len l + i else i in
  if j <? 0 then Exc IndexError
  else match nth_error l (Z.to_nat j) with
       | Some x => Val x
       | None => Exc IndexError
       end.

(** [sum(xs)]: additions from the start value [0], left to right (the
    compensation term CPython 3.12 adds to a sum of floats, which can change
    its last bit, is not modelled). *)
Definition sum (xs : list float) : float := fold_left PrimFloat.add xs 0%float.

(** The nearest integer to [m * 2^e], ties to the even one. *)
Definition round_half_even (m e : Z) : Z :=
  if 0 <=? e then m * 2 ^ e
  else
    let d := 2 ^ (- e) in
    let q := m / d in
    match 2 * (m mod d) ?= d with
    | Lt => q
    | Gt => q + 1
    | Eq => if Z.even q then q else q + 1
    end.

(** The integer [n], not negative, with the sign [s], before any rounding. *)
Definition sf_of_Z (s : bool) (n : Z) : spec_float :=
  match n with
  | Zpos p => S754_finite s p 0
  | _ => S754_zero s
  end.

(** [a / b] on two ints: the double nearest to the quotient. *)
Definition int_true_div (a b : Z) : float :=
  SF2Prim (SFdiv prec emax (sf_of_Z (a <? 0) (Z.abs a)) (sf_of_Z (b <? 0) (Z.abs b))).

(** [round(x, ndigits)] on a float, for [0 <= ndigits]: the exact value of
    [x] is rounded, ties to even, to [ndigits] decimals and the double
    nearest to that decimal is returned; a zero, an infinity and a NaN
    are returned unchanged. *)
Definition round (x : float) (ndigits : Z) : float :=
  match Prim2SF x with
  | S754_finite s m e =>
      let scale := 10 ^ ndigits in
      let n := round_half_even (Zpos m * scale) e in
      SF2Prim (SFdiv prec emax (sf_of_Z s n) (sf_of_Z false scale))
  | _ => x
  end.

(** [x ** 2] and [x ** 0.5] on a float, as CPython's [float_pow] takes
    them: it sorts out a NaN, an infinity, a zero, a negative base and the
    base 1 itself, and leaves the rest to the [pow] of the platform's C
    library, here [libm_pow], which it calls on a base that is finite,
    above zero and not 1.  For a negative base and the even exponent 2 the
    base is negated first.  Two cases are outside the model: a result of
    the platform out of the double range, where CPython raises
    [OverflowError], and [x ** 0.5] for a negative [x], which is a complex
    number in Python and NaN here. *)
Definition pow2 (libm_pow : float -> float -> float) (x : float) : float :=
  if is_nan x then x
  else if is_infinity x then abs x
  else if (x =? 0)%float then 0%float
  else if (abs x =? 1)%float then 1%float
  else libm_pow (abs x) 2%float.

Definition pow_half (libm_pow : float -> float -> float) (x : float) : float :=
  if is_nan x then x
  else if is_infinity x then abs x
  else if (x =? 0)%float then 0%float
  else if (x <? 0)%float then nan
  else if (x =? 1)%float then 1%float
  else libm_pow x 0.5%float.

End Py.

(** ** Data shared by the two pages *)

Definition coord : Type := float * float.          (* (lat, lng) *)
Definition matrix : Type := list (list float).
Definition route : Type := list Z.                 (* node indices *)

(** What [gmaps.geocode(address)] does: it raises, or returns the list of
    the locations found (possibly empty). *)
Inductive geocode_reply : Type :=
| GeocodeRaises (e : exn)
| GeocodeResults (locations : list coord).

(** One element of a row of the Distance Matrix reply: the [distance] key
    is present (with its [value] in metres) only when the provider found a
    route for the pair. *)
Record element : Type := mk_element {
  el_status : string;
  el_distance : option Z
}.

Inductive distance_reply : Type :=
| DistanceRaises (e : exn)
| DistanceRows (rows : list (list element)).

(** What [solve_vrp(matrix, n)] does: it raises, returns [None], or returns
    a list of routes. *)
Inductive solve_outcome : Type :=
| SolveRaises (e : exn)
| SolveNone
| SolveRoutes (routes : list route).

(** [libm_pow] is the [pow] of the C library of the platform the page runs
    on, which [**] on floats calls; its last bit differs between
    platforms. *)
Record services : Type := mk_services {
  gmaps_geocode : string -> geocode_reply;
  gmaps_distance_matrix : list string -> list string -> distance_reply;
  solve_vrp : matrix -> Z -> solve_outcome;
  libm_pow : float -> float -> float
}.

(** What a run of a handler leaves on the page and asks of the solver, in
    order. *)
Inductive event : Type :=
| SolverCalled (m : matrix) (vehicles : Z)
| WarningOptimizationFailed (route_name : string)
| ErrorDepotNotGeocoded
| SuccessShown.

(** ** Handlers: session state threaded through, exceptions propagated *)

Definition M (S A : Type) : Type := S -> res A * S.

Definition ret {S A : Type} (a : A) : M S A := fun s => (Val a, s).

Definition bind {S A B : Type} (c : M S A) (k : A -> M S B) : M S B :=
  fun s =>
    match c s with
    | (Val a, s') => k a s'
    | (Exc e, s') => (Exc e, s')
    end.

(** A computation without effect on the session, raising what it raises. *)
Definition lift {S A : Type} (r : res A) : M S A := fun s => (r, s).

Definition get {S : Type} : M S S := fun s => (Val s, s).

Definition modify {S : Type} (f : S -> S) : M S unit := fun s => (Val tt, f s).

(** [try: c  except: h]: the bare [except] catches every exception; what
    [c] did to the session before raising stays done. *)
Definition try_except {S A : Type} (c : M S A) (h : M S A) : M S A :=
  fun s =>
    match c s with
    | (Val a, s') => (Val a, s')
    | (Exc _, s') => h s'
    end.

Declare Scope handler_scope.
Delimit Scope handler_scope with handler.
Notation "x <- c ;; k" := (bind c (fun x => k))
  (at level 61, c at next level, right associativity) : handler_scope.
Notation "c ;; k" := (bind c (fun _ => k))
  (at level 61, right associativity) : handler_scope.
Open Scope handler_scope.

(** [for x in l: body(x)] *)
Fixpoint for_each {S A : Type} (l : list A) (body : A -> M S unit) : M S unit :=
  match l with
  | [] => ret tt
  | x :: xs => body x ;; for_each xs body
  end.

(** The value [solve_vrp] returned: [None] or a list of routes. *)
Definition solved : Type := option (list route).

(** [if routes:] *)
Definition routes_truthy (routes : solved) : bool :=
  match routes with
  | Some (_ :: _) => true
  | _ => false
  end.

(** [routes[0]] *)
Definition first_route (routes : solved) : res route :=
  match routes with
  | Some l => Py.getitem l 0
  | None => Exc TypeError
  end.

(** [[matrix[path[i]][path[i+1]] for i in range(len(path)-1)]], the terms
    both pages sum. *)
Definition edge_costs (m : matrix) (path : route) : res (list float) :=
  rmap (fun i =>
          let? a := Py.getitem path i in
          let? row := Py.getitem m a in
          let? b := Py.getitem path (i + 1) in
          Py.getitem row b)
       (Py.range (Py.len path - 1)).

(** ** Lite.py *)

Module Lite.

Definition stop : Type := (string * string)%type.       (* (label, address) *)

(** The sidebar. *)
Record settings : Type := mk_settings {
  num_vehicles : Z;
  return_to_depot : bool;
  depot_address : string
}.

(** The load band shown with a route, and the two bands of a vehicle
    without a route ("Underused", "No route"). *)
Inductive score_band : Type := Underused | Light | Medium | Heavy | NoRoute.

Record stats : Type := mk_stats {
  distance : float;
  time : float;
  score : score_band
}.

(** [st.session_state]: [vehicle_stops v] is the entry [vehicle_{v}_stops]
    (the page creates it for every vehicle before the handler runs);
    [events] is the trace of the run. *)
Record session : Type := mk_session {
  vehicle_stops : Z -> list stop;
  route_paths : list (list string);
  route_addresses : list (list string);
  route_stats : list stats;
  events : list event
}.

Definition emit (e : event) : M session unit :=
  modify (fun s => mk_session (vehicle_stops s) (route_paths s) (route_addresses s)
                              (route_stats s) (events s ++ [e])).

Definition append_route_paths (p : list string) : M session unit :=
  modify (fun s => mk_session (vehicle_stops s) (route_paths s ++ [p]) (route_addresses s)
                              (route_stats s) (events s)).

Definition append_route_addresses (a : list string) : M session unit :=
  modify (fun s => mk_session (vehicle_stops s) (route_paths s) (route_addresses s ++ [a])
                              (route_stats s) (events s)).

Definition append_route_stats (r : stats) : M session unit :=
  modify (fun s => mk_session (vehicle_stops s) (route_paths s) (route_addresses s)
                              (route_stats s ++ [r]) (events s)).

(** The three assignments that open the handler. *)
Definition reset_results : M session unit :=
  modify (fun s => mk_session (vehicle_stops s) [] [] [] (events s)).

(** [c[k]] on the value [geocode_address] returned. *)
Definition subscript (c : option coord) (k : Z) : res float :=
  match c with
  | None => Exc TypeError
  | Some (lat, lng) => Py.getitem [lat; lng] k
  end.

(** One entry of the comprehension that builds [dist_matrix]. *)
Definition dist_entry (W : services) (coords : list (option coord)) (i j : Z) : res float :=
  if i =? j then Val 0%float
  else
    let? ci := Py.getitem coords i in
    let? lat_i := subscript ci 0 in
    let? cj := Py.getitem coords j in
    let? lat_j := subscript cj 0 in
    let? ci' := Py.getitem coords i in
    let? lng_i := subscript ci' 1 in
    let? cj' := Py.getitem coords j in
    let? lng_j := subscript cj' 1 in
    Val (Py.pow_half (libm_pow W)
           (Py.pow2 (libm_pow W) (lat_i - lat_j) + Py.pow2 (libm_pow W) (lng_i - lng_j))
         * 111)%float.

Definition dist_matrix (W : services) (coords : list (option coord)) : res matrix :=
  rmap (fun i => rmap (fun j => dist_entry W coords i j) (Py.range (Py.len coords)))
       (Py.range (Py.len coords)).

(** [if addr.strip()] *)
Definition entered (s : stop) : bool := Py.truthy (Py.strip (snd s)).

Definition score_of (n_stops : Z) : score_band :=
  if n_stops <=? 2 then Light else if n_stops <=? 4 then Medium else Heavy.

Section Page.
Variable W : services.
Variable ui : settings.

(** The value of [geocode_address]; the warning it shows when the
    client raises, and its [lru_cache], leave the value as it is. *)
Definition geocode_address (address : string) : option coord :=
  if negb (Py.truthy address) || (Py.strip address =? "")%string then None
  else match gmaps_geocode W address with
       | GeocodeResults (loc :: _) => Some loc
       | GeocodeResults [] => None
       | GeocodeRaises _ => None
       end.

Definition address_list (stops : list stop) : list string :=
  depot_address ui :: map snd (filter entered stops).

Definition label_list (stops : list stop) : list string :=
  "Depot" :: map fst (filter entered stops).

Definition n_stops (path : route) : Z :=
  if return_to_depot ui then Py.len path - 2 else Py.len path - 1.

Definition call_solve_vrp (m : matrix) (vehicles : Z) : M session solved :=
  emit (SolverCalled m vehicles) ;;
  match solve_vrp W m vehicles with
  | SolveRaises e => lift (Exc e)
  | SolveNone => ret None
  | SolveRoutes l => ret (Some l)
  end.

(** The body of the loop over the vehicles. *)
Definition optimize_vehicle (v : Z) : M session unit :=
  s <- get ;;
  let stops := vehicle_stops s v in
  let address_list := address_list stops in
  let label_list := label_list stops in
  if Py.len address_list <? 2 then
    append_route_paths [] ;;
    append_route_addresses [] ;;
    append_route_stats (mk_stats 0 0 Underused)
  else
    let coords := map geocode_address address_list in
    dist_matrix <- lift (dist_matrix W coords) ;;
    routes <- call_solve_vrp dist_matrix 1 ;;
    if routes_truthy routes then
      path <- lift (first_route routes) ;;
      costs <- lift (edge_costs dist_matrix path) ;;
      let total_dist := Py.sum costs in
      let est_time := Py.round (total_dist / 40 * 60)%float 1 in
      let score := score_of (n_stops path) in
      labels <- lift (rmap (Py.getitem label_list) path) ;;
      append_route_paths labels ;;
      addresses <- lift (rmap (Py.getitem address_list) path) ;;
      append_route_addresses addresses ;;
      append_route_stats (mk_stats (Py.round total_dist 2) est_time score)
    else
      append_route_paths [] ;;
      append_route_addresses [] ;;
      append_route_stats (mk_stats 0 0 NoRoute).

(** [if st.button("Optimize Now"):] *)
Definition optimize_now : M session unit :=
  reset_results ;;
  for_each (Py.range2 1 (num_vehicles ui + 1)) optimize_vehicle ;;
  emit SuccessShown.

(** The script up to the end of the handler: the page stops when the
    depot does not geocode. *)
Definition script (optimize_clicked : bool) : M session unit :=
  match geocode_address (depot_address ui) with
  | None => lift (Exc StopException)
  | Some _ => if optimize_clicked then optimize_now else ret tt
  end.

End Page.

End Lite.

(** ** pages/Pro.py *)

Module Pro.

Record stop : Type := mk_stop {
  address : string;
  time : string;
  load : Z;
  driver : string
}.

(** The sidebar. *)
Record settings : Type := mk_settings {
  num_vehicles : Z;
  depot_address : string;
  return_to_depot : bool;
  fuel_cost : float;
  drivers : list string
}.

Record metric : Type := mk_metric {
  path : list string;
  distance : float;
  cost : float;
  duration : float
}.

(** [st.session_state]: the two dicts are kept in insertion order, the
    order in which Python iterates over them; [events] is the trace of
    the run.  The map and the summary text, which the handler also
    stores, are presentation and are left out. *)
Record session : Type := mk_session {
  routes : list (string * list stop);
  metrics : list (string * metric);
  events : list event
}.

(** [d[k] = v] *)
Fixpoint dict_set {V : Type} (d : list (string * V)) (k : string) (v : V) : list (string * V) :=
  match d with
  | [] => [(k, v)]
  | (k', v') :: rest =>
      if (k' =? k)%string then (k', v) :: rest else (k', v') :: dict_set rest k v
  end.

Definition emit (e : event) : M session unit :=
  modify (fun s => mk_session (routes s) (metrics s) (events s ++ [e])).

Definition set_metrics (d : list (string * metric)) : M session unit :=
  modify (fun s => mk_session (routes s) d (events s)).

Definition set_metric (k : string) (v : metric) : M session unit :=
  modify (fun s => mk_session (routes s) (dict_set (metrics s) k v) (events s)).

(** [if s["address"].strip()] *)
Definition entered (s : stop) : bool := Py.truthy (Py.strip (address s)).

(** [e['distance']['value'] / 1000] *)
Definition kilometres (e : element) : res float :=
  match el_distance e with
  | Some metres => Val (Py.int_true_div metres 1000)
  | None => Exc KeyError
  end.

Section Page.
Variable W : services.
Variable ui : settings.

Definition geocode (address : string) : option coord :=
  match gmaps_geocode W address with
  | GeocodeResults (loc :: _) => Some loc
  | GeocodeResults [] => None
  | GeocodeRaises _ => None
  end.

Definition get_distance_matrix (addresses : list string) : res matrix :=
  match gmaps_distance_matrix W addresses addresses with
  | DistanceRaises e => Exc e
  | DistanceRows rows => rmap (fun row => rmap kilometres row) rows
  end.

Definition addresses_of (stops : list stop) : list string :=
  depot_address ui :: map address (filter entered stops).

Definition call_solve_vrp (m : matrix) (vehicles : Z) : M session solved :=
  emit (SolverCalled m vehicles) ;;
  match solve_vrp W m vehicles with
  | SolveRaises e => lift (Exc e)
  | SolveNone => ret None
  | SolveRoutes l => ret (Some l)
  end.

(** The body of the loop over the routes; drawing the route on the map
    raises nothing and changes nothing that is modelled. *)
Definition optimize_route (item : string * list stop) : M session unit :=
  let (route, stops) := item in
  let addresses := addresses_of stops in
  if Py.len addresses <? 2 then ret tt
  else
    matrix <- lift (get_distance_matrix addresses) ;;
    found <- try_except
               (solved <- call_solve_vrp matrix 1 ;;
                indices <- lift (first_route solved) ;;
                ret (Some indices))
               (emit (WarningOptimizationFailed route) ;; ret None) ;;
    match found with
    | None => ret tt
    | Some indices =>
        ordered <- lift (rmap (Py.getitem addresses) indices) ;;
        costs <- lift (edge_costs matrix indices) ;;
        let dist_km := Py.sum costs in
        let cost := Py.round (dist_km * fuel_cost ui)%float 2 in
        let duration_min := Py.round (dist_km / 40 * 60)%float 1 in
        set_metric route (mk_metric ordered (Py.round dist_km 2) cost duration_min)
    end.

(** [if st.button("Optimize Now"):] *)
Definition optimize_now : M session unit :=
  match geocode (depot_address ui) with
  | None => emit ErrorDepotNotGeocoded ;; lift (Exc StopException)
  | Some _ =>
      set_metrics [] ;;
      s <- get ;;
      for_each (routes s) optimize_route ;;
      emit SuccessShown
  end.

End Page.

End Pro.

(** ** Notions the properties are stated with *)

(** An address that is empty or made of whitespace only. *)
Definition blank (s : string) : bool := Py.spaces s.

(** A float that is a number and is not below zero: [0 <= x] holds (it
    does not for a NaN). *)
Definition nonneg (x : float) : Prop := (0 <=? x)%float = true.

Definition sf_nonneg (x : spec_float) : bool :=
  match x with
  | S754_nan => false
  | S754_finite true _ _ => false
  | S754_infinity true => false
  | _ => true
  end.

(** A zero or a finite number. *)
Definition sf_finite (x : spec_float) : bool :=
  match x with
  | S754_zero _ | S754_finite _ _ _ => true
  | _ => false
  end.

(** What the proofs about signs ask of the platform's [pow]: on a finite
    base above zero, where CPython calls it, it returns at the exponents 2
    and 0.5 a number that is not below zero. *)
Definition pow_keeps_sign (pw : float -> float -> float) : Prop :=
  forall x, (0 <? x)%float = true -> (x <? infinity)%float = true ->
            nonneg (pw x 2%float) /\ nonneg (pw x 0.5%float).

(** Coordinates as a geocoder returns them: a latitude and a longitude in
    degrees. *)
Definition geographic (c : coord) : bool :=
  ((-90 <=? fst c) && (fst c <=? 90) && (-180 <=? snd c) && (snd c <=? 180))%float.

(** The consecutive pairs of a path: [(path[i], path[i+1])]. *)
Definition edges (path : route) : list (Z * Z) := combine path (tl path).

(** [matrix[a][b]] *)
Definition cost_of (m : matrix) (e : Z * Z) : res float :=
  let? row := Py.getitem m (fst e) in Py.getitem row (snd e).

(** The solver calls among the events of a run. *)
Definition solver_calls (evs : list event) : list (matrix * Z) :=
  flat_map (fun e => match e with SolverCalled m k => [(m, k)] | _ => [] end) evs.


(** The off-diagonal entry for two geocoded addresses. *)
Definition euclid_km (W : services) (p q : coord) : float :=
  (Py.pow_half (libm_pow W)
     (Py.pow2 (libm_pow W) (fst p - fst q) + Py.pow2 (libm_pow W) (snd p - snd q))
   * 111)%float.

(** The entry in row [i], column [j] for the geocoded coordinates [cs]. *)
Definition km_between (W : services) (cs : list coord) (i j : nat) : float :=
  if (i =? j)%nat then 0%float
  else euclid_km W (nth i cs (0, 0)%float) (nth j cs (0, 0)%float).

Definition km_table (W : services) (cs : list coord) : matrix :=
  map (fun i => map (km_between W cs i) (seq 0 (List.length cs))) (seq 0 (List.length cs)).

(** *** One iteration of Lite's loop, as a function of the vehicle's stops *)

(** What an iteration records: the labels and the addresses along the
    route, and the statistics. *)
Definition lite_entry : Type := (list string * list string * Lite.stats)%type.

(** The entry an iteration records (or the exception it raises) and the
    events it adds, read off the stops of the vehicle. *)
Definition lite_vehicle_outcome (W : services) (ui : Lite.settings) (stops : list Lite.stop)
  : res lite_entry * list event :=
  let al := Lite.address_list ui stops in
  let ll := Lite.label_list stops in
  match filter Lite.entered stops with
  | [] => (Val ([], [], Lite.mk_stats 0 0 Lite.Underused), [])
  | _ :: _ =>
      match Lite.dist_matrix W (map (Lite.geocode_address W) al) with
      | Exc e => (Exc e, [])
      | Val m =>
          match solve_vrp W m 1 with
          | SolveRaises e => (Exc e, [SolverCalled m 1])
          | SolveNone | SolveRoutes [] =>
              (Val ([], [], Lite.mk_stats 0 0 Lite.NoRoute), [SolverCalled m 1])
          | SolveRoutes (p :: _) =>
              (let? costs := edge_costs m p in
               let? labels := rmap (Py.getitem ll) p in
               let? addresses := rmap (Py.getitem al) p in
               Val (labels, addresses,
                    Lite.mk_stats (Py.round (Py.sum costs) 2)
                                  (Py.round (Py.sum costs / 40 * 60)%float 1)
                                  (Lite.score_of (Lite.n_stops ui p))),
               [SolverCalled m 1])
          end
      end
  end.

(** The session after an iteration with the given outcome. *)
Definition lite_record (o : res lite_entry * list event) (s : Lite.session)
  : res unit * Lite.session :=
  match fst o with
  | Val (labels, addresses, st) =>
      (Val tt, Lite.mk_session (Lite.vehicle_stops s) (Lite.route_paths s ++ [labels])
                               (Lite.route_addresses s ++ [addresses])
                               (Lite.route_stats s ++ [st]) (Lite.events s ++ snd o))
  | Exc e =>
      (Exc e, Lite.mk_session (Lite.vehicle_stops s) (Lite.route_paths s)
                              (Lite.route_addresses s) (Lite.route_stats s)
                              (Lite.events s ++ snd o))
  end.

(** *** Lite's loop over the vehicles *)

(** The iterations in order, up to the first that raises. *)
Fixpoint lite_run (os : list (res lite_entry * list event)) (s : Lite.session)
  : res unit * Lite.session :=
  match os with
  | [] => (Val tt, s)
  | o :: os' =>
      match lite_record o s with
      | (Val _, s') => lite_run os' s'
      | (Exc e, s') => (Exc e, s')
      end
  end.

(** The entries of the outcomes before the first that raises, and the
    events up to and including it. *)
Fixpoint entries_of (os : list (res lite_entry * list event)) : list lite_entry :=
  match os with
  | (Val en, _) :: os' => en :: entries_of os'
  | _ => []
  end.

Fixpoint events_of {A : Type} (os : list (res A * list event)) : list event :=
  match os with
  | [] => []
  | (Val _, evs) :: os' => evs ++ events_of os'
  | (Exc _, evs) :: _ => evs
  end.

Fixpoint first_exception {A : Type} (os : list (res A * list event)) : option exn :=
  match os with
  | [] => None
  | (Val _, _) :: os' => first_exception os'
  | (Exc e, _) :: _ => Some e
  end.

(** The outcomes of the vehicles [1 .. num_vehicles], in the order of the loop. *)
Definition fleet_outcomes (W : services) (ui : Lite.settings) (s : Lite.session)
  : list (res lite_entry * list event) :=
  map (fun v => lite_vehicle_outcome W ui (Lite.vehicle_stops s v))
      (Py.range2 1 (Lite.num_vehicles ui + 1)).

(** *** One iteration of Pro's loop, and the loop *)

(** The metrics entry an iteration stores ([None] when the route is
    skipped), or the exception it raises, and the events it adds. *)
Definition pro_route_outcome (W : services) (ui : Pro.settings) (item : string * list Pro.stop)
  : res (option (string * Pro.metric)) * list event :=
  let addresses := Pro.addresses_of ui (snd item) in
  match filter Pro.entered (snd item) with
  | [] => (Val None, [])
  | _ :: _ =>
      match Pro.get_distance_matrix W addresses with
      | Exc e => (Exc e, [])
      | Val m =>
          match solve_vrp W m 1 with
          | SolveRaises _ | SolveNone | SolveRoutes [] =>
              (Val None, [SolverCalled m 1; WarningOptimizationFailed (fst item)])
          | SolveRoutes (indices :: _) =>
              (let? ordered := rmap (Py.getitem addresses) indices in
               let? costs := edge_costs m indices in
               Val (Some (fst item,
                          Pro.mk_metric ordered (Py.round (Py.sum costs) 2)
                            (Py.round (Py.sum costs * Pro.fuel_cost ui)%float 2)
                            (Py.round (Py.sum costs / 40 * 60)%float 1))),
               [SolverCalled m 1])
          end
      end
  end.

(** The session after an iteration with the given outcome. *)
Definition pro_record (o : res (option (string * Pro.metric)) * list event) (s : Pro.session)
  : res unit * Pro.session :=
  match fst o with
  | Val None => (Val tt, Pro.mk_session (Pro.routes s) (Pro.metrics s) (Pro.events s ++ snd o))
  | Val (Some (k, mt)) =>
      (Val tt, Pro.mk_session (Pro.routes s) (Pro.dict_set (Pro.metrics s) k mt)
                              (Pro.events s ++ snd o))
  | Exc e => (Exc e, Pro.mk_session (Pro.routes s) (Pro.metrics s) (Pro.events s ++ snd o))
  end.

(** The iterations in order, up to the first that raises. *)
Fixpoint pro_run (os : list (res (option (string * Pro.metric)) * list event)) (s : Pro.session)
  : res unit * Pro.session :=
  match os with
  | [] => (Val tt, s)
  | o :: os' =>
      match pro_record o s with
      | (Val _, s') => pro_run os' s'
      | (Exc e, s') => (Exc e, s')
      end
  end.

(** The metrics stored by the outcomes before the first that raises. *)
Fixpoint stored_of (os : list (res (option (string * Pro.metric)) * list event))
  : list (string * Pro.metric) :=
  match os with
  | (Val (Some kv), _) :: os' => kv :: stored_of os'
  | (Val None, _) :: os' => stored_of os'
  | _ => []
  end.

Definition store_all (d : list (string * Pro.metric)) (kvs : list (string * Pro.metric))
  : list (string * Pro.metric) :=
  fold_left (fun d kv => Pro.dict_set d (fst kv) (snd kv)) kvs d.

(** *** The calls to the solver *)

(** An event that is not a solver call, or is one for a single vehicle. *)
Definition one_vehicle_call (e : event) : Prop :=
  match e with
  | SolverCalled _ k => k = 1
  | _ => True
  end.

(** The solver calls of a Lite iteration: one, with the matrix built for
    the vehicle, when a stop was entered and the matrix is built. *)
Definition lite_calls (W : services) (ui : Lite.settings) (stops : list Lite.stop)
  : list (matrix * Z) :=
  match filter Lite.entered stops with
  | [] => []
  | _ :: _ =>
      match Lite.dist_matrix W (map (Lite.geocode_address W) (Lite.address_list ui stops)) with
      | Val m => [(m, 1)]
      | Exc _ => []
      end
  end.

(** The solver calls of a Pro iteration, likewise. *)
Definition pro_calls (W : services) (ui : Pro.settings) (stops : list Pro.stop)
  : list (matrix * Z) :=
  match filter Pro.entered stops with
  | [] => []
  | _ :: _ =>
      match Pro.get_distance_matrix W (Pro.addresses_of ui stops) with
      | Val m => [(m, 1)]
      | Exc _ => []
      end
  end.

(** ** A concrete page, for the examples

    The services answer as follows: three addresses geocode; the distance
    provider finds 1234 metres between any two different addresses; the
    solver visits the nodes in index order and returns to node 0; the
    platform's [pow] is correctly rounded. *)

Module Demo.

Definition depot : string := "100 W Pender St, Vancouver, BC".

Definition geocoder (a : string) : geocode_reply :=
  if (a =? depot)%string then GeocodeResults [(49.2827, -123.1097)%float]
  else if (a =? "BCIT Burnaby")%string then GeocodeResults [(49.2488, -123.0016)%float]
  else if (a =? "Metrotown")%string then GeocodeResults [(49.2276, -123.0076)%float]
  else GeocodeResults [].

Definition distances (origins destinations : list string) : distance_reply :=
  DistanceRows
    (map (fun o => map (fun d => mk_element "OK" (Some (if (o =? d)%string then 0 else 1234)))
                       destinations)
         origins).

Definition tour (m : matrix) : route := (Py.range (Py.len m) ++ [0])%list.

Definition solver (m : matrix) (vehicles : Z) : solve_outcome := SolveRoutes [tour m].

(** The [pow] of a platform whose C library rounds correctly at the two
    exponents the pages use. *)
Definition correct_pow (x y : float) : float :=
  if (y =? 2)%float then (x * x)%float
  else if (y =? 0.5)%float then PrimFloat.sqrt x
  else nan.

Definition world : services := mk_services geocoder distances solver correct_pow.

(** Lite: two vehicles, the first with the two stops of the sample data,
    the second without stops. *)
Definition lite_ui : Lite.settings := Lite.mk_settings 2 true depot.

Definition lite_stops (v : Z) : list Lite.stop :=
  if v =? 1 then [("Stop 1", "BCIT Burnaby"); ("Stop 2", "Metrotown")] else [].

Definition lite_session : Lite.session := Lite.mk_session lite_stops [] [] [] [].

(** The matrix Lite builds for the first vehicle. *)
Definition lite_matrix : matrix :=
  Eval vm_compute in
    match Lite.dist_matrix world (map (Lite.geocode_address world)
                                (Lite.address_list lite_ui (lite_stops 1))) with
    | Val m => m
    | Exc _ => []
    end.

(** Pro: one route with one stop. *)
Definition pro_ui : Pro.settings := Pro.mk_settings 1 depot true 0.25 ["Alice"].

Definition pro_session : Pro.session :=
  Pro.mk_session [("Route 1", [Pro.mk_stop "BCIT Burnaby" "9:00-11:00" 12 "Alice"])] [] [].

(** The matrix Pro gets for that route: 1234 metres each way. *)
Definition pro_matrix : matrix := [[0; 1.234]; [1.234; 0]]%float.

(** A Lite session whose only stop has an address the geocoder does not
    find. *)
Definition lost_stops (v : Z) : list Lite.stop := [("Stop 1", "Nowhere Road")].

Definition lost_session : Lite.session := Lite.mk_session lost_stops [] [] [] [].

(** A distance provider that finds no route between different addresses:
    the elements for such pairs carry a status and no distance. *)
Definition no_route_distances (origins destinations : list string) : distance_reply :=
  DistanceRows
    (map (fun o => map (fun d => if (o =? d)%string then mk_element "OK" (Some 0)
                                 else mk_element "ZERO_RESULTS" None)
                       destinations)
         origins).

Definition no_route_world : services := mk_services geocoder no_route_distances solver correct_pow.





(** Pro: a route with one stop and a route with two. *)
Definition two_routes : Pro.session :=
  Pro.mk_session
    [("Route 1", [Pro.mk_stop "BCIT Burnaby" "9:00-11:00" 12 "Alice"]);
     ("Route 2", [Pro.mk_stop "Stanley Park" "9:00-11:00" 6 "Alice";
                  Pro.mk_stop "UBC Vancouver" "11:00-13:00" 9 "Alice"])]
    [] [].






(** A distance provider that serves two addresses at most. *)
Definition small_distances (origins destinations : list string) : distance_reply :=
  if 2 <? Py.len origins then DistanceRaises (ApiError "MAX_ELEMENTS_EXCEEDED")
  else distances origins destinations.

Definition small_world : services := mk_services geocoder small_distances solver correct_pow.

(** A geocoder that resolves whatever it is given, and a sidebar for Pro
    whose depot address is one space. *)
Definition lenient_geocoder (a : string) : geocode_reply :=
  GeocodeResults [(49.2827, -123.1097)%float].

Definition lenient_world : services := mk_services lenient_geocoder distances solver correct_pow.

Definition blank_depot_ui : Pro.settings := Pro.mk_settings 1 " " true 0.25 ["Alice"].

(** Another sidebar for Pro, with the same depot. *)
Definition other_pro_ui : Pro.settings := Pro.mk_settings 7 depot false 9.99 ["Bob"].

End Demo.

(** ** The rest of the two pages

    The sidebar buttons, the entry of the stops, the route drawn on the map
    and Lite's dashboard.  The widgets are functions of their key: what
    [st.text_input] returns for a key and the value it is given, and whether
    the [st.button] of a key was clicked.  [st.rerun()], which ends a button
    branch, restarts the script with the session the branch leaves. *)

(** [str(n)] on an int, as the f-strings insert it. *)
Definition str_int (n : Z) : string :=
  DecimalString.NilZero.string_of_int (Z.to_int n).

(** [enumerate(l)] *)
Definition enumerate {A : Type} (l : list A) : list (Z * A) :=
  combine (Py.range (Py.len l)) l.

(** [l[1:-1]] *)
Definition inner {A : Type} (l : list A) : list A := removelast (tl l).

(** [l.insert(k, x)] for [0 <= k]: past the end it appends. *)
Definition list_insert {A : Type} (l : list A) (k : Z) (x : A) : list A :=
  (firstn (Z.to_nat k) l ++ x :: skipn (Z.to_nat k) l)%list.

(** [l.pop(k)]: the list without its element [k]. *)
Definition list_pop {A : Type} (l : list A) (k : Z) : res (list A) :=
  let j := if k <? 0 then Py.len l + k else k in
  if (j <? 0) || (Py.len l <=? j) then Exc IndexError
  else Val (firstn (Z.to_nat j) l ++ skipn (S (Z.to_nat j)) l)%list.

(** [d[k]] on a dict. *)
Fixpoint dict_get {V : Type} (d : list (string * V)) (k : string) : res V :=
  match d with
  | [] => Exc KeyError
  | (k', v) :: rest => if (k' =? k)%string then Val v else dict_get rest k
  end.

Record widgets : Type := mk_widgets {
  text_input : string -> string -> string;    (* key, value *)
  button : string -> bool                     (* key *)
}.

(** What [gmaps.directions(origin=..., destination=..., waypoints=...)] is
    asked, and what it does: it raises, or returns the routes found, each
    with the points of its overview polyline. *)
Record directions_request : Type := mk_request {
  origin : string;
  destination : string;
  waypoints : option (list string)
}.

Inductive directions_reply : Type :=
| DirectionsRaises (e : exn)
| DirectionsRoutes (polylines : list (list coord)).

(** [get_route_polyline], the same in both pages but for the error Lite
    shows when it returns [None] after an exception. *)
Definition get_route_polyline (gmaps_directions : directions_request -> directions_reply)
    (addresses : list string) : option (list coord) :=
  let request :=
    let? o := Py.getitem addresses 0 in
    let? d := Py.getitem addresses (-1) in
    Val (mk_request o d (if 2 <? Py.len addresses then Some (inner addresses) else None)) in
  match request with
  | Exc _ => None
  | Val r =>
      match gmaps_directions r with
      | DirectionsRoutes (points :: _) => Some points
      | DirectionsRoutes [] => None
      | DirectionsRaises _ => None
      end
  end.

Module LiteEdit.

(** [st.session_state[f"vehicle_{v}_stops"] = stops] *)
Definition set_vehicle_stops (v : Z) (stops : list Lite.stop) : M Lite.session unit :=
  modify (fun s => Lite.mk_session
                     (fun v' => if v' =? v then stops else Lite.vehicle_stops s v')
                     (Lite.route_paths s) (Lite.route_addresses s) (Lite.route_stats s)
                     (Lite.events s)).

(** [if st.sidebar.button("Reset All"):] *)
Definition reset_all (ui : Lite.settings) : M Lite.session unit :=
  for_each (Py.range2 1 (Lite.num_vehicles ui + 1)) (fun v => set_vehicle_stops v []) ;;
  Lite.reset_results.

Definition label_key (v i : Z) : string := "label_" ++ str_int v ++ "_" ++ str_int i.
Definition addr_key (v i : Z) : string := "addr_" ++ str_int v ++ "_" ++ str_int i.
Definition add_key (v : Z) : string := "add_" ++ str_int v.
Definition remove_key (v : Z) : string := "remove_" ++ str_int v.

(** The two text inputs of every stop. *)
Definition typed (U : widgets) (v : Z) (stops : list Lite.stop) : list Lite.stop :=
  map (fun item => let '(i, (label, address)) := item in
                   (text_input U (label_key v i) label, text_input U (addr_key v i) address))
      (enumerate stops).

(** The two buttons under the stops. *)
Definition added (U : widgets) (v : Z) (stops : list Lite.stop) : list Lite.stop :=
  if button U (add_key v) then (stops ++ [(("Stop " ++ str_int (Py.len stops + 1))%string, "")])%list
  else stops.

Definition removed (U : widgets) (v : Z) (stops : list Lite.stop) : list Lite.stop :=
  if button U (remove_key v) && negb (Py.len stops =? 0) then removelast stops else stops.

(** The body of the loop of "Step 1: Enter Delivery Stops". *)
Definition enter_stops (U : widgets) (v : Z) : M Lite.session unit :=
  s <- get ;;
  let stops := Lite.vehicle_stops s v in
  set_vehicle_stops v (removed U v (added U v (typed U v stops))).

Definition enter_all_stops (U : widgets) (ui : Lite.settings) : M Lite.session unit :=
  for_each (Py.range2 1 (Lite.num_vehicles ui + 1)) (enter_stops U).

End LiteEdit.

Module LiteDashboard.

(** What the dashboard puts on the page: on the map a line per route and
    a marker per stop, in the right column a warning or a card per
    vehicle.  The summary text for the download is left out. *)
Inductive item : Type :=
| PolyLine (points : list coord) (color tooltip : string)
| CircleMarker (location : coord) (popup color : string)
| NoRouteWarning (driver : string)
| RouteCard (driver : string) (labels : list string) (distance time : float)
            (score : Lite.score_band).

Definition colors : list string :=
  ["blue"; "green"; "red"; "purple"; "orange"; "darkred"; "cadetblue"; "darkgreen";
   "black"; "pink"].

Section Page.
Variable W : services.
Variable gmaps_directions : directions_request -> directions_reply.
Variable ui : Lite.settings.
(** [driver_names v] is the entry [driver_name_{v}] of the session, when
    there is one. *)
Variable driver_names : Z -> option string.

(** [st.session_state.get(f"driver_name_{v}", f"Vehicle {v}")] *)
Definition driver (v : Z) : string :=
  match driver_names v with
  | Some name => name
  | None => "Vehicle " ++ str_int v
  end.

(** The body of the loop that draws the map. *)
Definition map_items (s : Lite.session) (v : Z) : res (list item) :=
  let? labels := Py.getitem (Lite.route_paths s) (v - 1) in
  let? addresses := Py.getitem (Lite.route_addresses s) (v - 1) in
  match addresses with
  | [] => Val []
  | _ :: _ =>
      let coords := map (Lite.geocode_address W) addresses in
      let route_poly := get_route_polyline gmaps_directions addresses in
      let? color := Py.getitem colors ((v - 1) mod Py.len colors) in
      Val ((match route_poly with
            | Some (pt :: pts) => [PolyLine (pt :: pts) color (driver v)]
            | _ => []
            end ++
            flat_map (fun lc => match snd lc with
                                | Some c => [CircleMarker c (fst lc) color]
                                | None => []
                                end)
                     (combine labels coords))%list)
  end.

(** The body of the loop that fills the right column. *)
Definition info_items (s : Lite.session) (v : Z) : res (list item) :=
  let? labels := Py.getitem (Lite.route_paths s) (v - 1) in
  let? stats := Py.getitem (Lite.route_stats s) (v - 1) in
  match labels with
  | [] => Val [NoRouteWarning (driver v)]
  | _ :: _ => Val [RouteCard (driver v) labels (Lite.distance stats) (Lite.time stats)
                             (Lite.score stats)]
  end.

(** "Step 3: Dashboard", for a session that has the key [route_paths]. *)
Definition dashboard (s : Lite.session) : res (list item) :=
  if Py.len (Lite.route_paths s) =? Lite.num_vehicles ui then
    let vehicles := Py.range2 1 (Lite.num_vehicles ui + 1) in
    let? on_map := rmap (map_items s) vehicles in
    let? on_right := rmap (info_items s) vehicles in
    Val (List.concat on_map ++ List.concat on_right)%list
  else Val [].

End Page.

End LiteDashboard.

Module ProEdit.

(** The en dash of the time windows is written as its three bytes. *)
Definition window_9_11 : string := "9:00–11:00".
Definition window_11_13 : string := "11:00–13:00".

(** [drivers[0] if drivers else ""] *)
Definition first_driver (ui : Pro.settings) : string :=
  match Pro.drivers ui with
  | d :: _ => d
  | [] => ""
  end.

(** [drivers[1] if len(drivers) > 1 else ""] *)
Definition second_driver (ui : Pro.settings) : string :=
  match Pro.drivers ui with
  | _ :: d :: _ => d
  | _ => ""
  end.

(** The stop that "Add New Route" and "Add Stop Below" create. *)
Definition new_stop (ui : Pro.settings) : Pro.stop :=
  Pro.mk_stop "" window_9_11 10 (first_driver ui).

Definition set_routes (d : list (string * list Pro.stop)) : M Pro.session unit :=
  modify (fun s => Pro.mk_session d (Pro.metrics s) (Pro.events s)).

(** [if st.sidebar.button("Load Sample Data"):] *)
Definition load_sample_data (ui : Pro.settings) : M Pro.session unit :=
  set_routes
    [("Route 1", [Pro.mk_stop "BCIT Burnaby" window_9_11 12 (first_driver ui);
                  Pro.mk_stop "Metrotown" window_11_13 8 (first_driver ui)]);
     ("Route 2", [Pro.mk_stop "Stanley Park" window_9_11 6 (second_driver ui);
                  Pro.mk_stop "UBC Vancouver" window_11_13 9 (second_driver ui)])].

(** [if st.button("Add New Route"):] *)
Definition add_new_route (ui : Pro.settings) : M Pro.session unit :=
  s <- get ;;
  let new_id := Py.len (Pro.routes s) + 1 in
  set_routes (Pro.dict_set (Pro.routes s) ("Route " ++ str_int new_id) [new_stop ui]).

(** [st.session_state.routes[route].insert(i + 1, {...})] *)
Definition add_stop_below (ui : Pro.settings) (route : string) (i : Z) : M Pro.session unit :=
  s <- get ;;
  stops <- lift (dict_get (Pro.routes s) route) ;;
  set_routes (Pro.dict_set (Pro.routes s) route (list_insert stops (i + 1) (new_stop ui))).

(** [st.session_state.routes[r].pop(idx)] *)
Definition remove_stop (route : string) (idx : Z) : M Pro.session unit :=
  s <- get ;;
  stops <- lift (dict_get (Pro.routes s) route) ;;
  stops' <- lift (list_pop stops idx) ;;
  set_routes (Pro.dict_set (Pro.routes s) route stops').

(** [if st.button("Reset All Routes"):] *)
Definition reset_all_routes : M Pro.session unit :=
  modify (fun s => Pro.mk_session [] [] (Pro.events s)).

End ProEdit.

(** ** Notions for the rest of the pages *)

(** An index that is a position of a list of length [n], from either end. *)
Definition in_range (n : Z) (i : Z) : Prop := - n <= i < n.

(** The popups of the markers among the items, in order. *)
Definition popups (items : list LiteDashboard.item) : list string :=
  flat_map (fun it => match it with
                      | LiteDashboard.CircleMarker _ popup _ => [popup]
                      | _ => []
                      end) items.

(** The points [get_route_polyline] takes from a reply. *)
Definition first_polyline (r : directions_reply) : option (list coord) :=
  match r with
  | DirectionsRoutes (points :: _) => Some points
  | _ => None
  end.

(** The name "Add New Route" gives to route number [i]. *)
Definition route_name (i : Z) : string := "Route " ++ str_int i.

(** The routes are named "Route 1", "Route 2", ... in this order. *)
Definition numbered (d : list (string * list Pro.stop)) : Prop :=
  map fst d = map route_name (Py.range2 1 (Py.len d + 1)).

(** * Properties of the built-ins *)

Section Strings.

Lemma code_point_shorter s cp rest :
  Py.code_point s = Some (cp, rest) -> (String.length rest < String.length s)%nat.
Proof.
  destruct s as [|c0 [|c1 [|c2 [|c3 r3]]]]; cbn; try discriminate;
    repeat match goal with
           | |- context [if ?b then _ else _] => destruct b
           | |- context [match Py.continuation ?c with _ => _ end] =>
               destruct (Py.continuation c)
           end;
    try discriminate; intros [= _ <-]; cbn; lia.
Qed.

(** Fuel beyond the length of the string changes nothing. *)
Lemma spaces_within_enough n s :
  (String.length s <= n)%nat -> Py.spaces_within n s = Py.spaces s.
Proof.
  unfold Py.spaces.
  assert (H : forall n m s, (String.length s <= n)%nat -> (String.length s <= m)%nat ->
                            Py.spaces_within n s = Py.spaces_within m s).
  { clear. induction n as [|n IH]; intros m s Hn Hm.
    - destruct s; [now destruct m|cbn in Hn; lia].
    - destruct s as [|c r]; [now destruct m|].
      destruct m as [|m]; [cbn in Hm; lia|].
      cbn [Py.spaces_within].
      destruct (Py.code_point (String c r)) as [[cp rest]|] eqn:Hcp; [|reflexivity].
      apply code_point_shorter in Hcp. cbn [String.length] in *.
      f_equal. apply IH; lia. }
  intros Hn. apply H; [exact Hn|lia].
Qed.

Lemma spaces_lstrip s : Py.spaces (Py.lstrip s) = Py.spaces s.
Proof.
  unfold Py.lstrip.
  assert (H : forall n s, (String.length s <= n)%nat ->
                          Py.spaces (Py.lstrip_within n s) = Py.spaces s).
  { clear. induction n as [|n IH]; intros s Hn; [reflexivity|].
    cbn [Py.lstrip_within].
    destruct (Py.code_point s) as [[cp rest]|] eqn:Hcp; [|reflexivity].
    destruct (Py.isspace cp) eqn:Hsp; [|reflexivity].
    assert (Hlt := code_point_shorter _ _ _ Hcp).
    rewrite IH by lia.
    rewrite <- (spaces_within_enough (S n) s Hn).
    destruct s as [|c r]; [discriminate|].
    cbn [Py.spaces_within]. rewrite Hcp, Hsp. cbn [andb].
    symmetry. apply spaces_within_enough. lia. }
  apply H. lia.
Qed.

(** The length of the string is fuel enough for [lstrip]: what it returns
    starts with no whitespace character. *)
Lemma lstrip_done s :
  match Py.code_point (Py.lstrip s) with
  | Some (cp, _) => Py.isspace cp = false
  | None => True
  end.
Proof.
  unfold Py.lstrip.
  assert (H : forall n s, (String.length s <= n)%nat ->
                          match Py.code_point (Py.lstrip_within n s) with
                          | Some (cp, _) => Py.isspace cp = false
                          | None => True
                          end).
  { clear. induction n as [|n IH]; intros s Hn.
    - destruct s; [exact I|cbn in Hn; lia].
    - cbn [Py.lstrip_within].
      destruct (Py.code_point s) as [[cp rest]|] eqn:Hcp; [|now rewrite Hcp].
      destruct (Py.isspace cp) eqn:Hsp; [|now rewrite Hcp].
      apply IH. apply code_point_shorter in Hcp. lia. }
  apply H. lia.
Qed.

Lemma rstrip_empty s : Py.rstrip s = EmptyString <-> blank s = true.
Proof.
  unfold blank. destruct s as [|c r]; [now split|].
  cbn [Py.rstrip]. destruct (Py.spaces (String c r)); split; congruence.
Qed.

Lemma blank_lstrip s : blank (Py.lstrip s) = blank s.
Proof. apply spaces_lstrip. Qed.

(** [if addr.strip()] holds exactly for the addresses that are not blank. *)
Lemma truthy_strip s : Py.truthy (Py.strip s) = negb (blank s).
Proof.
  unfold Py.strip.
  destruct (blank s) eqn:Hb.
  - rewrite <- blank_lstrip in Hb. apply rstrip_empty in Hb. now rewrite Hb.
  - destruct (Py.rstrip (Py.lstrip s)) eqn:Hr; [|reflexivity].
    apply rstrip_empty in Hr. rewrite blank_lstrip in Hr. congruence.
Qed.

Lemma strip_eqb_empty s : (Py.strip s =? "")%string = blank s.
Proof.
  generalize (truthy_strip s). destruct (Py.strip s); simpl.
  - now destruct (blank s).
  - now destruct (blank s).
Qed.

End Strings.

Section Lists.
Context {A B : Type}.

Lemma getitem_head (x : A) (l : list A) : Py.getitem (x :: l) 0 = Val x.
Proof. reflexivity. Qed.

Lemma getitem_nat (l : list A) (n : nat) :
  Py.getitem l (Z.of_nat n) =
  match nth_error l n with Some x => Val x | None => Exc IndexError end.
Proof.
  unfold Py.getitem.
  destruct (Z.ltb_spec (Z.of_nat n) 0); [lia|].
  destruct (Z.ltb_spec (Z.of_nat n) 0); [lia|].
  now rewrite Nat2Z.id.
Qed.

Lemma range_len (l : list A) : Py.range (Py.len l) = map Z.of_nat (seq 0 (List.length l)).
Proof. unfold Py.range, Py.len. now rewrite Nat2Z.id. Qed.

Lemma rmap_nth (f : A -> res B) l ys n x :
  rmap f l = Val ys -> nth_error l n = Some x ->
  exists y, nth_error ys n = Some y /\ f x = Val y.
Proof.
  revert ys n. induction l as [|a l IH]; simpl; intros ys n.
  - destruct n; discriminate.
  - destruct (f a) eqn:Ha; simpl; [|discriminate].
    destruct (rmap f l) eqn:Hl; simpl; [|discriminate].
    intros [= <-]. destruct n; simpl.
    + intros [= <-]. eauto.
    + intros Hn. eapply IH; eauto.
Qed.

Lemma rmap_total (f : A -> res B) (g : A -> B) l :
  (forall x, In x l -> f x = Val (g x)) -> rmap f l = Val (map g l).
Proof.
  induction l as [|a l IH]; simpl; intros H; [reflexivity|].
  rewrite H by auto. simpl. rewrite IH by auto. reflexivity.
Qed.

Lemma rmap_ext (f g : A -> res B) l :
  (forall x, In x l -> f x = g x) -> rmap f l = rmap g l.
Proof.
  induction l as [|a l IH]; simpl; intros H; [reflexivity|].
  rewrite H by auto. rewrite IH by auto. reflexivity.
Qed.

End Lists.

Section FloatSigns.

Lemma nonneg_sf x : nonneg x <-> sf_nonneg (Prim2SF x) = true.
Proof.
  unfold nonneg. rewrite leb_spec.
  change (Prim2SF 0) with (S754_zero false).
  destruct (Prim2SF x) as [s|s| |s m e]; try destruct s; cbn; intuition congruence.
Qed.

Lemma shr_1_nonneg mrs : 0 <= shr_m mrs -> 0 <= shr_m (shr_1 mrs).
Proof. destruct mrs as [[|[p|p|]|[p|p|]] r s]; cbn; lia. Qed.

Lemma iter_shr_1_nonneg p mrs : 0 <= shr_m mrs -> 0 <= shr_m (iter_pos shr_1 p mrs).
Proof.
  revert mrs. induction p as [p IH|p IH|]; intros mrs H; cbn.
  - apply IH, IH, shr_1_nonneg, H.
  - apply IH, IH, H.
  - apply shr_1_nonneg, H.
Qed.

Lemma shr_fexp_nonneg m e l : 0 <= m -> 0 <= shr_m (fst (shr_fexp prec emax m e l)).
Proof.
  intros H. unfold shr_fexp, shr.
  assert (H0 : 0 <= shr_m (shr_record_of_loc m l)) by (destruct l as [|[]]; exact H).
  destruct (_ - e); cbn [fst]; [exact H0| |exact H0].
  now apply iter_shr_1_nonneg.
Qed.

Lemma round_nearest_even_nonneg m l : 0 <= m -> 0 <= round_nearest_even m l.
Proof. intros H. destruct l as [|[]]; cbn; try destruct (Z.even m); lia. Qed.

(** Rounding a mantissa that is not negative gives a zero, a finite number
    or an infinity of the sign asked for. *)
Lemma binary_round_aux_sign mx ex lx :
  0 <= mx -> sf_nonneg (binary_round_aux prec emax false mx ex lx) = true.
Proof.
  intros H. unfold binary_round_aux.
  assert (H1 := shr_fexp_nonneg mx ex lx H).
  destruct (shr_fexp prec emax mx ex lx) as [mrs e']. cbn [fst] in H1.
  assert (H2 := shr_fexp_nonneg (round_nearest_even (shr_m mrs) (loc_of_shr_record mrs)) e'
                  loc_Exact (round_nearest_even_nonneg _ _ H1)).
  destruct (shr_fexp prec emax _ e' loc_Exact) as [mrs' e'']. cbn [fst] in H2.
  destruct (shr_m mrs'); [reflexivity| |lia].
  destruct (e'' <=? _); reflexivity.
Qed.

Lemma binary_round_aux_not_nan sx mx ex lx :
  0 <= mx -> binary_round_aux prec emax sx mx ex lx <> S754_nan.
Proof.
  intros H. unfold binary_round_aux.
  assert (H1 := shr_fexp_nonneg mx ex lx H).
  destruct (shr_fexp prec emax mx ex lx) as [mrs e']. cbn [fst] in H1.
  assert (H2 := shr_fexp_nonneg (round_nearest_even (shr_m mrs) (loc_of_shr_record mrs)) e'
                  loc_Exact (round_nearest_even_nonneg _ _ H1)).
  destruct (shr_fexp prec emax _ e' loc_Exact) as [mrs' e'']. cbn [fst] in H2.
  destruct (shr_m mrs'); [discriminate| |lia].
  destruct (e'' <=? _); discriminate.
Qed.

Lemma SFmul_sign x m e :
  sf_nonneg x = true -> sf_nonneg (SFmul prec emax x (S754_finite false m e)) = true.
Proof.
  destruct x as [s|s| |s m' e']; try destruct s;
    cbn -[binary_round_aux]; intros; try discriminate; auto.
  apply binary_round_aux_sign. lia.
Qed.

Lemma SFadd_sign x y :
  sf_nonneg x = true -> sf_nonneg y = true -> sf_nonneg (SFadd prec emax x y) = true.
Proof.
  destruct x as [s|s| |s m e]; try destruct s;
    destruct y as [s'|s'| |s' m' e']; try destruct s';
    cbn -[binary_round_aux shl_align Z.min]; auto; try discriminate.
  intros _ _. unfold binary_normalize, binary_round.
  destruct (shl_align _ _ _); apply binary_round_aux_sign; lia.
Qed.

Lemma SFsqrt_sign x : sf_nonneg x = true -> sf_nonneg (SFsqrt prec emax x) = true.
Proof.
  destruct x as [s|s| |s m e]; try destruct s;
    cbn -[binary_round_aux SFsqrt_core_binary]; auto.
  intros _.
  destruct (SFsqrt_core_binary prec emax (Z.pos m) e) as [[mz ez] lz] eqn:Hcore.
  apply binary_round_aux_sign.
  unfold SFsqrt_core_binary in Hcore.
  destruct (Z.sqrtrem _) as [q r] eqn:Hq. injection Hcore as <- _ _.
  assert (Hs := Z.sqrtrem_sqrt). specialize (Hs
    match e - 2 * Z.min (fexp prec emax (Z.div2 (Zdigits2 (Z.pos m) + e + 1))) (Z.div2 e) with
    | 0 => Z.pos m
    | Z.pos _ => Z.shiftl (Z.pos m) (e - 2 * Z.min (fexp prec emax (Z.div2 (Zdigits2 (Z.pos m) + e + 1))) (Z.div2 e))
    | Z.neg _ => 0
    end).
  rewrite Hq in Hs. cbn [fst] in Hs. subst q. apply Z.sqrt_nonneg.
Qed.

(** The difference of two finite floats is a number. *)
Lemma SFsub_not_nan x y :
  sf_finite x = true -> sf_finite y = true -> SFsub prec emax x y <> S754_nan.
Proof.
  destruct x as [s|s| |s m e]; destruct y as [s'|s'| |s' m' e'];
    cbn -[binary_round_aux shl_align Z.min]; try discriminate; intros _ _.
  - destruct s, s'; discriminate.
  - unfold binary_normalize, binary_round.
    destruct (_ - _) as [|p|p]; [discriminate| |];
      destruct (shl_align _ _ _); apply binary_round_aux_not_nan; lia.
Qed.

Lemma between_finite lo hi x :
  sf_finite (Prim2SF lo) = true -> sf_finite (Prim2SF hi) = true ->
  (lo <=? x)%float = true -> (x <=? hi)%float = true -> sf_finite (Prim2SF x) = true.
Proof.
  rewrite !leb_spec. unfold SFleb.
  destruct (Prim2SF lo) as [sl|sl| |sl ml el]; try discriminate;
    destruct (Prim2SF hi) as [sh|sh| |sh mh eh]; try discriminate;
    destruct (Prim2SF x) as [s|s| |s m e]; try reflexivity; cbn; intros _ _;
    try discriminate; destruct s; try discriminate;
    try destruct sl; try destruct sh; discriminate.
Qed.

Lemma geographic_finite c :
  geographic c = true -> sf_finite (Prim2SF (fst c)) = true /\ sf_finite (Prim2SF (snd c)) = true.
Proof.
  unfold geographic. rewrite !andb_true_iff. intros [[[H1 H2] H3] H4]. split.
  - now apply (between_finite (-90) 90).
  - now apply (between_finite (-180) 180).
Qed.

Lemma sub_not_nan x y :
  sf_finite (Prim2SF x) = true -> sf_finite (Prim2SF y) = true ->
  Prim2SF (x - y) <> S754_nan.
Proof. intros Hx Hy. rewrite sub_spec. now apply SFsub_not_nan. Qed.

Lemma SFeqb_refl x : x <> S754_nan -> SFeqb x x = true.
Proof.
  destruct x as [s|s| |s m e]; try congruence; intros _; unfold SFeqb; cbn.
  - reflexivity.
  - now destruct s.
  - rewrite Z.compare_refl, Pcompare_refl. now destruct s.
Qed.

(** [x ** 2] is a number that is not below zero when [x] is a number. *)
Lemma pow2_nonneg pw x :
  pow_keeps_sign pw -> Prim2SF x <> S754_nan -> nonneg (Py.pow2 pw x).
Proof.
  intros Hpw Hx. unfold Py.pow2, is_nan, is_infinity.
  rewrite (eqb_spec x x), SFeqb_refl by exact Hx. cbn [negb].
  destruct (abs x =? infinity)%float eqn:Hinf.
  - apply nonneg_sf. rewrite eqb_spec, abs_spec in Hinf. rewrite abs_spec.
    destruct (Prim2SF x) as [s|s| |s m e]; try discriminate; reflexivity.
  - destruct (x =? 0)%float eqn:Hz; [reflexivity|].
    destruct (abs x =? 1)%float; [reflexivity|].
    apply Hpw.
    + rewrite ltb_spec, abs_spec. rewrite eqb_spec in Hz.
      destruct (Prim2SF x) as [s|s| |s m e]; try discriminate; try congruence; reflexivity.
    + rewrite ltb_spec, abs_spec. rewrite eqb_spec, abs_spec in Hinf.
      destruct (Prim2SF x) as [s|s| |s m e]; try discriminate; try congruence; reflexivity.
Qed.

(** [x ** 0.5] is a number that is not below zero when [x] is. *)
Lemma pow_half_nonneg pw x : pow_keeps_sign pw -> nonneg x -> nonneg (Py.pow_half pw x).
Proof.
  intros Hpw Hx. apply nonneg_sf in Hx. unfold Py.pow_half, is_nan, is_infinity.
  rewrite (eqb_spec x x), SFeqb_refl by (intros E; rewrite E in Hx; discriminate).
  cbn [negb].
  destruct (abs x =? infinity)%float eqn:Hinf.
  - apply nonneg_sf. rewrite abs_spec.
    destruct (Prim2SF x) as [s|s| |s m e]; try discriminate; reflexivity.
  - destruct (x =? 0)%float eqn:Hz; [reflexivity|].
    destruct (x <? 0)%float eqn:Hneg.
    { rewrite ltb_spec in Hneg.
      destruct (Prim2SF x) as [s|s| |s m e]; try destruct s; discriminate. }
    destruct (x =? 1)%float; [reflexivity|].
    apply Hpw.
    + rewrite ltb_spec. rewrite eqb_spec in Hz.
      destruct (Prim2SF x) as [s|s| |s m e]; try destruct s; try discriminate; reflexivity.
    + rewrite ltb_spec. rewrite eqb_spec, abs_spec in Hinf.
      destruct (Prim2SF x) as [s|s| |s m e]; try destruct s; try discriminate; reflexivity.
Qed.

Lemma add_nonneg x y : nonneg x -> nonneg y -> nonneg (x + y).
Proof. rewrite !nonneg_sf, add_spec. apply SFadd_sign. Qed.

Lemma mul_111_nonneg x : nonneg x -> nonneg (x * 111).
Proof.
  rewrite !nonneg_sf, mul_spec. intros H.
  change (Prim2SF 111) with (S754_finite false 7810930603720704 (-46)).
  now apply SFmul_sign.
Qed.

Lemma zero_nonneg : nonneg 0.
Proof. reflexivity. Qed.

(** A [pow] that is correctly rounded at the exponents 2 and 0.5 keeps the
    sign. *)
Lemma correct_pow_keeps_sign : pow_keeps_sign Demo.correct_pow.
Proof.
  intros x Hpos _.
  change (Demo.correct_pow x 2) with (x * x)%float.
  change (Demo.correct_pow x 0.5) with (PrimFloat.sqrt x).
  rewrite ltb_spec in Hpos. rewrite !nonneg_sf, mul_spec, sqrt_spec.
  destruct (Prim2SF x) as [s|s| |s m e] eqn:Hx; try destruct s; try discriminate.
  - split; reflexivity.
  - split; [now apply SFmul_sign|now apply SFsqrt_sign].
Qed.

End FloatSigns.

(** * Lite: the distance matrix *)

Section LiteMatrix.
Variable W : services.

Lemma rmap_map {A B C : Type} (f : B -> res C) (g : A -> B) l :
  rmap f (map g l) = rmap (fun x => f (g x)) l.
Proof.
  induction l as [|a l IH]; simpl; [reflexivity|]. now rewrite IH.
Qed.

Lemma getitem_map_some (cs : list coord) a c :
  nth_error cs a = Some c -> Py.getitem (map Some cs) (Z.of_nat a) = Val (Some c).
Proof.
  intros H. rewrite getitem_nat, nth_error_map, H. reflexivity.
Qed.

Lemma km_nonneg cs i j :
  pow_keeps_sign (libm_pow W) -> Forall (fun c => geographic c = true) cs ->
  nonneg (km_between W cs i j).
Proof.
  intros Hpw Hcs. unfold km_between. destruct (i =? j)%nat; [apply zero_nonneg|].
  assert (Hnth : forall k, geographic (nth k cs (0, 0)%float) = true).
  { intros k. destruct (nth_in_or_default k cs (0, 0)%float) as [Hin| ->]; [|reflexivity].
    rewrite Forall_forall in Hcs. now apply Hcs. }
  destruct (geographic_finite _ (Hnth i)) as [Hlat_i Hlng_i].
  destruct (geographic_finite _ (Hnth j)) as [Hlat_j Hlng_j].
  unfold euclid_km.
  apply mul_111_nonneg, pow_half_nonneg; [exact Hpw|].
  apply add_nonneg; apply pow2_nonneg; try exact Hpw; now apply sub_not_nan.
Qed.

Lemma dist_entry_geocoded cs a b :
  (a < List.length cs)%nat -> (b < List.length cs)%nat ->
  Lite.dist_entry W (map Some cs) (Z.of_nat a) (Z.of_nat b) = Val (km_between W cs a b).
Proof.
  intros Ha Hb. unfold Lite.dist_entry, km_between.
  destruct (Nat.eqb_spec a b) as [->|Hab].
  - now rewrite Z.eqb_refl.
  - destruct (Z.eqb_spec (Z.of_nat a) (Z.of_nat b)); [lia|].
    rewrite (getitem_map_some cs a (nth a cs (0, 0)%float)) by now apply nth_error_nth'.
    rewrite (getitem_map_some cs b (nth b cs (0, 0)%float)) by now apply nth_error_nth'.
    destruct (nth a cs (0, 0)%float) as [lat_a lng_a], (nth b cs (0, 0)%float) as [lat_b lng_b].
    reflexivity.
Qed.

Lemma dist_matrix_geocoded cs : Lite.dist_matrix W (map Some cs) = Val (km_table W cs).
Proof.
  unfold Lite.dist_matrix, km_table.
  rewrite range_len, length_map, rmap_map.
  apply rmap_total. intros a Ha. apply in_seq in Ha.
  rewrite rmap_map. apply rmap_total. intros b Hb. apply in_seq in Hb.
  apply dist_entry_geocoded; lia.
Qed.

Lemma km_table_row cs i row :
  nth_error (km_table W cs) i = Some row ->
  (i < List.length cs)%nat /\ row = map (km_between W cs i) (seq 0 (List.length cs)).
Proof.
  unfold km_table. intros H.
  assert (Hi : (i < List.length cs)%nat).
  { assert (Hn : nth_error (km_table W cs) i <> None) by (unfold km_table; congruence).
    apply nth_error_Some in Hn. unfold km_table in Hn.
    now rewrite length_map, length_seq in Hn. }
  split; [exact Hi|].
  rewrite nth_error_map, nth_error_seq in H.
  destruct (Nat.ltb_spec i (List.length cs)); [|lia].
  simpl in H. now injection H as <-.
Qed.

End LiteMatrix.

(** * Lite: the loop body and the loop *)

Section LiteIteration.
Variable W : services.
Variable ui : Lite.settings.

Lemma len_cons_lt_2 {A : Type} (x : A) (l : list A) :
  (Py.len (x :: l) <? 2) = match l with [] => true | _ :: _ => false end.
Proof.
  unfold Py.len. destruct l; simpl List.length.
  - reflexivity.
  - apply Z.ltb_ge. lia.
Qed.

Lemma getitem_same_length {A B : Type} (l1 : list A) (l2 : list B) i x :
  List.length l1 = List.length l2 -> Py.getitem l1 i = Val x -> exists y, Py.getitem l2 i = Val y.
Proof.
  unfold Py.getitem, Py.len. intros Hlen. rewrite <- Hlen.
  destruct (_ <? 0); [discriminate|].
  destruct (nth_error l1 _) eqn:H1; [|discriminate]. intros _.
  assert (Hn : nth_error l1 (Z.to_nat (if i <? 0 then Z.of_nat (List.length l1) + i else i)) <> None)
    by congruence.
  apply nth_error_Some in Hn.
  destruct (nth_error l2 _) eqn:H2; [eauto|].
  apply nth_error_None in H2. lia.
Qed.

Lemma rmap_getitem_same_length {A B : Type} (l1 : list A) (l2 : list B) p xs :
  List.length l1 = List.length l2 -> rmap (Py.getitem l1) p = Val xs ->
  exists ys, rmap (Py.getitem l2) p = Val ys.
Proof.
  intros Hlen. revert xs. induction p as [|i p IH]; simpl; intros xs; [eauto|].
  destruct (Py.getitem l1 i) eqn:Hi; simpl; [|discriminate].
  destruct (rmap (Py.getitem l1) p) eqn:Hp; simpl; [|discriminate]. intros _.
  destruct (getitem_same_length l1 l2 i a Hlen Hi) as [y ->].
  destruct (IH _ eq_refl) as [ys ->]. simpl. eauto.
Qed.

Lemma label_address_length stops :
  List.length (Lite.label_list stops) = List.length (Lite.address_list ui stops).
Proof. unfold Lite.label_list, Lite.address_list. simpl. now rewrite !length_map. Qed.

Lemma len_address_list stops :
  (Py.len (Lite.address_list ui stops) <? 2) =
  match filter Lite.entered stops with [] => true | _ :: _ => false end.
Proof.
  unfold Lite.address_list. rewrite len_cons_lt_2.
  now destruct (filter Lite.entered stops).
Qed.

(** The loop body does what [lite_vehicle_outcome] says. *)
Lemma optimize_vehicle_outcome v s :
  Lite.optimize_vehicle W ui v s =
  lite_record (lite_vehicle_outcome W ui (Lite.vehicle_stops s v)) s.
Proof.
  destruct s as [vs rp ra rs ev]. unfold Lite.optimize_vehicle, lite_vehicle_outcome.
  unfold bind at 1. unfold get at 1. cbn [Lite.vehicle_stops].
  set (stops := vs v).
  assert (Hlen := label_address_length stops).
  rewrite len_address_list.
  set (al := Lite.address_list ui stops) in *.
  set (ll := Lite.label_list stops) in *.
  destruct (filter Lite.entered stops) as [|st0 rest].
  - cbn. now rewrite app_nil_r.
  - unfold bind at 1. unfold lift at 1.
    destruct (Lite.dist_matrix W (map (Lite.geocode_address W) al)) as [m|e].
    2:{ cbn. now rewrite app_nil_r. }
    unfold bind at 1. unfold Lite.call_solve_vrp, bind at 1, Lite.emit, modify.
    destruct (solve_vrp W m 1) as [e| |[|p ps]]; cbn -[edge_costs]; try reflexivity.
    destruct (edge_costs m p) as [costs|e]; cbn; [|reflexivity].
    destruct (rmap (Py.getitem ll) p) as [labels|e] eqn:Hl; cbn; [|reflexivity].
    destruct (rmap_getitem_same_length ll al p labels Hlen Hl) as [addrs ->].
    reflexivity.
Qed.

End LiteIteration.

Section LiteLoop.
Variable W : services.
Variable ui : Lite.settings.

Lemma lite_run_closed os s :
  lite_run os s =
  (match first_exception os with Some e => Exc e | None => Val tt end,
   Lite.mk_session (Lite.vehicle_stops s)
     (Lite.route_paths s ++ map (fun en => fst (fst en)) (entries_of os))
     (Lite.route_addresses s ++ map (fun en => snd (fst en)) (entries_of os))
     (Lite.route_stats s ++ map snd (entries_of os))
     (Lite.events s ++ events_of os)).
Proof.
  revert s. induction os as [|[[[[labels addrs] st]|e] evs] os IH]; intros [vs rp ra rs ev].
  - cbn. now rewrite !app_nil_r.
  - cbn [lite_run lite_record fst snd]. rewrite IH. cbn.
    now rewrite <- !app_assoc.
  - cbn. now rewrite !app_nil_r.
Qed.

Lemma for_each_outcomes l s :
  for_each l (Lite.optimize_vehicle W ui) s =
  lite_run (map (fun v => lite_vehicle_outcome W ui (Lite.vehicle_stops s v)) l) s.
Proof.
  revert s. induction l as [|v l IH]; intros s; [reflexivity|].
  cbn [for_each map lite_run]. unfold bind. rewrite optimize_vehicle_outcome.
  destruct (lite_record _ s) as [[[]|e] s'] eqn:Hr; [|reflexivity].
  rewrite IH. f_equal. apply map_ext. intros v'.
  assert (Hvs : Lite.vehicle_stops s' = Lite.vehicle_stops s).
  { unfold lite_record in Hr.
    destruct (fst (lite_vehicle_outcome W ui (Lite.vehicle_stops s v))) as [[[? ?] ?]|?];
      inversion Hr; reflexivity. }
  now rewrite Hvs.
Qed.

Lemma optimize_now_closed s :
  Lite.optimize_now W ui s =
  let os := fleet_outcomes W ui s in
  match first_exception os with
  | Some e =>
      (Exc e, Lite.mk_session (Lite.vehicle_stops s)
                (map (fun en => fst (fst en)) (entries_of os))
                (map (fun en => snd (fst en)) (entries_of os))
                (map snd (entries_of os))
                (Lite.events s ++ events_of os))
  | None =>
      (Val tt, Lite.mk_session (Lite.vehicle_stops s)
                 (map (fun en => fst (fst en)) (entries_of os))
                 (map (fun en => snd (fst en)) (entries_of os))
                 (map snd (entries_of os))
                 ((Lite.events s ++ events_of os) ++ [SuccessShown]))
  end.
Proof.
  unfold Lite.optimize_now, fleet_outcomes.
  unfold bind at 1. unfold Lite.reset_results, modify.
  unfold bind at 1. rewrite for_each_outcomes, lite_run_closed. cbn.
  destruct (first_exception _); reflexivity.
Qed.

End LiteLoop.

Section LoopFacts.

Lemma range2_nth a b v :
  a <= v < b -> nth_error (Py.range2 a b) (Z.to_nat (v - a)) = Some v.
Proof.
  intros Hv. unfold Py.range2, Py.range.
  rewrite !nth_error_map, nth_error_seq.
  destruct (Nat.ltb_spec (Z.to_nat (v - a)) (Z.to_nat (b - a))); [|lia].
  cbn. f_equal. lia.
Qed.

Lemma range2_in a b v : In v (Py.range2 a b) <-> a <= v < b.
Proof.
  unfold Py.range2, Py.range. rewrite in_map_iff. split.
  - intros [k [<- Hk]]. apply in_map_iff in Hk as [n [<- Hn]]. apply in_seq in Hn. lia.
  - intros Hv. exists (v - a). split; [lia|].
    apply in_map_iff. exists (Z.to_nat (v - a)). split; [lia|]. apply in_seq. lia.
Qed.

Lemma entries_of_nth os k (o : res lite_entry * list event) :
  first_exception os = None -> nth_error os k = Some o ->
  exists en, fst o = Val en /\ nth_error (entries_of os) k = Some en.
Proof.
  revert k. induction os as [|[[en|e] evs] os IH]; intros k Hnone Hk.
  - destruct k; discriminate.
  - destruct k; cbn in *.
    + injection Hk as <-. exists en. split; reflexivity.
    + eauto.
  - discriminate.
Qed.

Lemma first_exception_in {A : Type} (os : list (res A * list event)) e evs :
  In (Exc e, evs) os -> first_exception os <> None.
Proof.
  induction os as [|[[a|e'] evs'] os IH]; cbn; intros H.
  - contradiction.
  - destruct H as [H|H]; [discriminate|auto].
  - discriminate.
Qed.

Lemma events_of_forall {A : Type} (P : event -> Prop) (os : list (res A * list event)) :
  (forall o, In o os -> Forall P (snd o)) -> Forall P (events_of os).
Proof.
  induction os as [|[[a|e] evs] os IH]; cbn; intros H.
  - constructor.
  - apply Forall_app. split; [apply (H (Val a, evs)); auto|auto].
  - apply (H (Exc e, evs)); auto.
Qed.

(** Where a run that raises stops. *)
Lemma first_exception_at {A : Type} (os : list (res A * list event)) e :
  first_exception os = Some e ->
  exists k evs,
    nth_error os k = Some (Exc e, evs) /\
    forall j, (j < k)%nat -> exists a evs', nth_error os j = Some (Val a, evs').
Proof.
  induction os as [|[[a|e'] evs] os IH]; cbn; intros H; [discriminate| |].
  - destruct (IH H) as [k [evs' [Hk Hbefore]]]. exists (S k), evs'. split; [exact Hk|].
    intros [|j] Hj; [now exists a, evs|]. apply Hbefore. lia.
  - injection H as ->. exists 0%nat, evs. split; [reflexivity|]. intros j Hj. lia.
Qed.



End LoopFacts.

(** * Pro: the loop body and the loop *)

Section ProLoop.
Variable W : services.
Variable ui : Pro.settings.

Lemma len_addresses_of stops :
  (Py.len (Pro.addresses_of ui stops) <? 2) =
  match filter Pro.entered stops with [] => true | _ :: _ => false end.
Proof.
  unfold Pro.addresses_of. rewrite len_cons_lt_2.
  now destruct (filter Pro.entered stops).
Qed.

(** The loop body does what [pro_route_outcome] says. *)
Lemma optimize_route_outcome item s :
  Pro.optimize_route W ui item s = pro_record (pro_route_outcome W ui item) s.
Proof.
  destruct s as [rt mt ev], item as [name stops].
  unfold Pro.optimize_route, pro_route_outcome. cbn [fst snd].
  rewrite len_addresses_of.
  set (al := Pro.addresses_of ui stops).
  destruct (filter Pro.entered stops) as [|st0 rest].
  - cbn. now rewrite app_nil_r.
  - unfold bind at 1. unfold lift at 1.
    destruct (Pro.get_distance_matrix W al) as [m|e].
    2:{ cbn. now rewrite app_nil_r. }
    unfold bind at 1. unfold try_except, bind at 1.
    unfold Pro.call_solve_vrp, bind at 1, Pro.emit, modify.
    destruct (solve_vrp W m 1) as [e| |[|p ps]]; cbn -[edge_costs];
      try (now rewrite <- app_assoc).
    destruct (rmap (Py.getitem al) p) as [ordered|e]; cbn -[edge_costs]; [|reflexivity].
    destruct (edge_costs m p) as [costs|e]; reflexivity.
Qed.

Lemma pro_run_closed os s :
  pro_run os s =
  (match first_exception os with Some e => Exc e | None => Val tt end,
   Pro.mk_session (Pro.routes s) (store_all (Pro.metrics s) (stored_of os))
                  (Pro.events s ++ events_of os)).
Proof.
  revert s. induction os as [|[[[[k mt]|]|e] evs] os IH]; intros [rt ms ev].
  - cbn. now rewrite !app_nil_r.
  - cbn [pro_run pro_record fst snd]. rewrite IH. cbn. now rewrite <- !app_assoc.
  - cbn [pro_run pro_record fst snd]. rewrite IH. cbn. now rewrite <- !app_assoc.
  - reflexivity.
Qed.

Lemma for_each_route_outcomes l s :
  for_each l (Pro.optimize_route W ui) s = pro_run (map (pro_route_outcome W ui) l) s.
Proof.
  revert s. induction l as [|item l IH]; intros s; [reflexivity|].
  cbn [for_each map pro_run]. unfold bind. rewrite optimize_route_outcome.
  destruct (pro_record _ s) as [[[]|e] s']; [apply IH|reflexivity].
Qed.

Lemma pro_optimize_now_closed s :
  Pro.optimize_now W ui s =
  match Pro.geocode W (Pro.depot_address ui) with
  | None =>
      (Exc StopException,
       Pro.mk_session (Pro.routes s) (Pro.metrics s) (Pro.events s ++ [ErrorDepotNotGeocoded]))
  | Some _ =>
      let os := map (pro_route_outcome W ui) (Pro.routes s) in
      match first_exception os with
      | Some e =>
          (Exc e, Pro.mk_session (Pro.routes s) (store_all [] (stored_of os))
                    (Pro.events s ++ events_of os))
      | None =>
          (Val tt, Pro.mk_session (Pro.routes s) (store_all [] (stored_of os))
                     ((Pro.events s ++ events_of os) ++ [SuccessShown]))
      end
  end.
Proof.
  unfold Pro.optimize_now. destruct (Pro.geocode W (Pro.depot_address ui)); [|reflexivity].
  unfold bind at 1. unfold Pro.set_metrics, modify.
  unfold bind at 1. unfold get. cbn [Pro.routes].
  unfold bind at 1. rewrite for_each_route_outcomes, pro_run_closed. cbn.
  destruct (first_exception _); reflexivity.
Qed.

End ProLoop.

(** * The calls to the solver *)

Section SolverCalls.
Variable W : services.

Lemma solver_calls_app l1 l2 : solver_calls (l1 ++ l2) = (solver_calls l1 ++ solver_calls l2)%list.
Proof. unfold solver_calls. apply flat_map_app. Qed.

Lemma lite_outcome_calls ui stops :
  solver_calls (snd (lite_vehicle_outcome W ui stops)) = lite_calls W ui stops /\
  Forall one_vehicle_call (snd (lite_vehicle_outcome W ui stops)).
Proof.
  unfold lite_vehicle_outcome, lite_calls.
  destruct (filter Lite.entered stops); [split; [reflexivity|constructor]|].
  destruct (Lite.dist_matrix _ _) as [m|e]; [|split; [reflexivity|constructor]].
  destruct (solve_vrp W m 1) as [e| |[|p ps]]; cbn;
    (split; [reflexivity|repeat constructor]).
Qed.

Lemma pro_outcome_calls ui item :
  solver_calls (snd (pro_route_outcome W ui item)) = pro_calls W ui (snd item) /\
  Forall one_vehicle_call (snd (pro_route_outcome W ui item)).
Proof.
  unfold pro_route_outcome, pro_calls.
  destruct (filter Pro.entered (snd item)); [split; [reflexivity|constructor]|].
  destruct (Pro.get_distance_matrix _ _) as [m|e]; [|split; [reflexivity|constructor]].
  destruct (solve_vrp W m 1) as [e| |[|p ps]]; cbn;
    (split; [reflexivity|repeat constructor]).
Qed.

Lemma lite_record_events o s :
  Lite.events (snd (lite_record o s)) = (Lite.events s ++ snd o)%list.
Proof. unfold lite_record. destruct (fst o) as [[[? ?] ?]|?]; reflexivity. Qed.

Lemma pro_record_events o s :
  Pro.events (snd (pro_record o s)) = (Pro.events s ++ snd o)%list.
Proof. unfold pro_record. destruct (fst o) as [[[? ?]|]|?]; reflexivity. Qed.

End SolverCalls.

(** * The distance reported for a route *)

Section EdgeCosts.

Lemma edges_seq (p : route) :
  edges p = map (fun i => (nth i p 0, nth (S i) p 0)) (seq 0 (List.length p - 1)).
Proof.
  unfold edges. induction p as [|a [|b r] IH]; try reflexivity.
  change (combine (a :: b :: r) (tl (a :: b :: r))) with ((a, b) :: combine (b :: r) (tl (b :: r))).
  rewrite IH.
  replace (List.length (b :: r) - 1)%nat with (List.length r) by (simpl; lia).
  replace (List.length (a :: b :: r) - 1)%nat with (S (List.length r)) by (simpl; lia).
  cbn [seq map nth]. f_equal.
  rewrite <- seq_shift, map_map. reflexivity.
Qed.

(** The terms the pages sum are the costs of the consecutive edges. *)
Lemma edge_costs_edges (m : matrix) (p : route) :
  edge_costs m p = rmap (cost_of m) (edges p).
Proof.
  unfold edge_costs. rewrite edges_seq.
  replace (Py.range (Py.len p - 1)) with (map Z.of_nat (seq 0 (List.length p - 1))).
  2:{ unfold Py.range, Py.len. f_equal. f_equal. lia. }
  rewrite !rmap_map. apply rmap_ext. intros i Hi. apply in_seq in Hi.
  rewrite getitem_nat, (nth_error_nth' p 0) by lia. cbn [rbind].
  replace (Z.of_nat i + 1) with (Z.of_nat (S i)) by lia.
  rewrite getitem_nat, (nth_error_nth' p 0) by lia.
  unfold cost_of. cbn [fst snd]. now destruct (Py.getitem m (nth i p 0)).
Qed.

End EdgeCosts.

(** * What an iteration records for a route the solver returned *)

Section Recorded.
Variable W : services.

Lemma lite_route_recorded ui v s m p ps s' :
  filter Lite.entered (Lite.vehicle_stops s v) <> [] ->
  Lite.dist_matrix W (map (Lite.geocode_address W)
                        (Lite.address_list ui (Lite.vehicle_stops s v))) = Val m ->
  solve_vrp W m 1 = SolveRoutes (p :: ps) ->
  Lite.optimize_vehicle W ui v s = (Val tt, s') ->
  exists costs labels addresses,
    rmap (cost_of m) (edges p) = Val costs /\
    rmap (Py.getitem (Lite.label_list (Lite.vehicle_stops s v))) p = Val labels /\
    rmap (Py.getitem (Lite.address_list ui (Lite.vehicle_stops s v))) p = Val addresses /\
    s' = Lite.mk_session (Lite.vehicle_stops s) (Lite.route_paths s ++ [labels])
           (Lite.route_addresses s ++ [addresses])
           (Lite.route_stats s ++
              [Lite.mk_stats (Py.round (Py.sum costs) 2) (Py.round (Py.sum costs / 40 * 60)%float 1)
                             (Lite.score_of (Lite.n_stops ui p))])
           (Lite.events s ++ [SolverCalled m 1]).
Proof.
  intros Hstops Hm Hsolve Hrun.
  rewrite optimize_vehicle_outcome in Hrun. unfold lite_vehicle_outcome in Hrun.
  destruct (filter Lite.entered (Lite.vehicle_stops s v)); [congruence|].
  rewrite Hm, Hsolve, edge_costs_edges in Hrun. unfold lite_record in Hrun. cbn [fst snd] in Hrun.
  destruct (rmap (cost_of m) (edges p)) as [costs|e]; cbn [rbind] in Hrun; [|discriminate].
  destruct (rmap (Py.getitem (Lite.label_list _)) p) as [labels|e];
    cbn [rbind] in Hrun; [|discriminate].
  destruct (rmap (Py.getitem (Lite.address_list _ _)) p) as [addresses|e];
    cbn [rbind] in Hrun; [|discriminate].
  injection Hrun as <-. exists costs, labels, addresses. repeat split.
Qed.

Lemma pro_route_stored ui name stops s m p ps s' :
  filter Pro.entered stops <> [] ->
  Pro.get_distance_matrix W (Pro.addresses_of ui stops) = Val m ->
  solve_vrp W m 1 = SolveRoutes (p :: ps) ->
  Pro.optimize_route W ui (name, stops) s = (Val tt, s') ->
  exists costs ordered,
    rmap (cost_of m) (edges p) = Val costs /\
    rmap (Py.getitem (Pro.addresses_of ui stops)) p = Val ordered /\
    s' = Pro.mk_session (Pro.routes s)
           (Pro.dict_set (Pro.metrics s) name
              (Pro.mk_metric ordered (Py.round (Py.sum costs) 2)
                 (Py.round (Py.sum costs * Pro.fuel_cost ui)%float 2)
                 (Py.round (Py.sum costs / 40 * 60)%float 1)))
           (Pro.events s ++ [SolverCalled m 1]).
Proof.
  intros Hstops Hm Hsolve Hrun.
  rewrite optimize_route_outcome in Hrun. unfold pro_route_outcome in Hrun. cbn [fst snd] in Hrun.
  destruct (filter Pro.entered stops); [congruence|].
  rewrite Hm, Hsolve, edge_costs_edges in Hrun. unfold pro_record in Hrun. cbn [fst snd] in Hrun.
  destruct (rmap (Py.getitem (Pro.addresses_of ui stops)) p) as [ordered|e];
    cbn [rbind] in Hrun; [|discriminate].
  destruct (rmap (cost_of m) (edges p)) as [costs|e]; cbn [rbind] in Hrun; [|discriminate].
  injection Hrun as <-. exists costs, ordered. repeat split.
Qed.

End Recorded.

(** * Pairs without a travel cost *)

Section Raising.
Context {A B : Type}.

Lemma rmap_first_exc (f : A -> res B) l e :
  (forall x e', In x l -> f x = Exc e' -> e' = e) ->
  (exists x e', In x l /\ f x = Exc e') ->
  rmap f l = Exc e.
Proof.
  induction l as [|a l IH]; intros Honly [x [e' [Hin Hx]]]; [contradiction|].
  cbn. destruct (f a) as [y|e0] eqn:Ha; cbn.
  - destruct Hin as [->|Hin]; [congruence|].
    rewrite IH; [reflexivity| |].
    + intros x0 e0 H0. apply Honly. now right.
    + eauto.
  - f_equal. apply (Honly a); auto. now left.
Qed.

Lemma rmap_exc_from (f : A -> res B) l e :
  rmap f l = Exc e -> exists x, In x l /\ f x = Exc e.
Proof.
  induction l as [|a l IH]; cbn; [discriminate|].
  destruct (f a) as [y|e0] eqn:Ha; cbn.
  - destruct (rmap f l); cbn; [discriminate|].
    intros [= ->]. destruct (IH eq_refl) as [x [Hin Hx]]. eauto.
  - intros [= ->]. eauto.
Qed.

End Raising.

Section ProMatrix.
Variable W : services.

Lemma kilometres_raises e x : Pro.kilometres e = Exc x -> x = KeyError /\ el_distance e = None.
Proof. unfold Pro.kilometres. destruct (el_distance e); [discriminate|]. now intros [= <-]. Qed.

Lemma row_raises row x : rmap Pro.kilometres row = Exc x -> x = KeyError.
Proof.
  intros H. apply rmap_exc_from in H as [e [_ He]]. now apply kilometres_raises in He.
Qed.

Lemma get_distance_matrix_no_distance addresses rows row e :
  gmaps_distance_matrix W addresses addresses = DistanceRows rows ->
  In row rows -> In e row -> el_distance e = None ->
  Pro.get_distance_matrix W addresses = Exc KeyError.
Proof.
  intros Hreply Hrow He Hnone. unfold Pro.get_distance_matrix. rewrite Hreply.
  apply rmap_first_exc.
  - intros r x _. apply row_raises.
  - exists row, KeyError. split; [exact Hrow|].
    apply rmap_first_exc.
    + intros e0 x _ H0. now apply kilometres_raises in H0.
    + exists e, KeyError. split; [exact He|]. unfold Pro.kilometres. now rewrite Hnone.
Qed.

End ProMatrix.

(** * Lite: a stop that does not geocode *)

Section LiteMissingCoordinates.
Variable W : services.

Lemma dist_entry_cases cs a b oa ob :
  nth_error cs a = Some oa -> nth_error cs b = Some ob ->
  Lite.dist_entry W cs (Z.of_nat a) (Z.of_nat b) =
  if (a =? b)%nat then Val 0%float
  else match oa, ob with
       | Some p, Some q => Val (euclid_km W p q)
       | _, _ => Exc TypeError
       end.
Proof.
  intros Ha Hb. unfold Lite.dist_entry.
  destruct (Nat.eqb_spec a b) as [->|Hab].
  - now rewrite Z.eqb_refl.
  - destruct (Z.eqb_spec (Z.of_nat a) (Z.of_nat b)); [lia|].
    rewrite !getitem_nat, Ha, Hb. cbn [rbind].
    destruct oa as [[lat_a lng_a]|]; [|reflexivity].
    destruct ob as [[lat_b lng_b]|]; reflexivity.
Qed.

Lemma dist_entry_raises cs a b e :
  (a < List.length cs)%nat -> (b < List.length cs)%nat ->
  Lite.dist_entry W cs (Z.of_nat a) (Z.of_nat b) = Exc e -> e = TypeError.
Proof.
  intros Ha Hb.
  destruct (nth_error cs a) as [oa|] eqn:Hna; [|apply nth_error_None in Hna; lia].
  destruct (nth_error cs b) as [ob|] eqn:Hnb; [|apply nth_error_None in Hnb; lia].
  rewrite (dist_entry_cases cs a b oa ob Hna Hnb).
  destruct (a =? b)%nat; [discriminate|].
  destruct oa, ob; congruence.
Qed.

(** With two addresses or more, one that has no coordinates makes the
    comprehension raise [TypeError]. *)
Lemma dist_matrix_missing cs :
  (2 <= List.length cs)%nat -> In None cs -> Lite.dist_matrix W cs = Exc TypeError.
Proof.
  intros Hlen Hin. apply In_nth_error in Hin as [a Ha].
  assert (Hlt : (a < List.length cs)%nat) by (apply nth_error_Some; congruence).
  unfold Lite.dist_matrix. rewrite range_len, rmap_map.
  apply rmap_first_exc.
  - intros i e Hi Hrow. apply in_seq in Hi. rewrite rmap_map in Hrow.
    apply rmap_exc_from in Hrow as [j [Hj Hent]]. apply in_seq in Hj.
    apply (dist_entry_raises cs i j); [lia|lia|exact Hent].
  - exists a, TypeError. split; [apply in_seq; lia|].
    rewrite rmap_map. apply rmap_first_exc.
    + intros j e Hj. apply in_seq in Hj. apply dist_entry_raises; lia.
    + set (b := if (a =? 0)%nat then 1%nat else 0%nat).
      assert (Hb : (b < List.length cs)%nat /\ (a =? b)%nat = false).
      { unfold b. destruct (Nat.eqb_spec a 0) as [->|]; split; try lia; try reflexivity.
        apply Nat.eqb_neq. lia. }
      destruct Hb as [Hb Hab].
      destruct (nth_error cs b) as [ob|] eqn:Hnb; [|apply nth_error_None in Hnb; lia].
      exists b, TypeError. split; [apply in_seq; lia|].
      now rewrite (dist_entry_cases cs a b None ob Ha Hnb), Hab.
Qed.

Lemma dist_matrix_all_geocoded cs :
  Forall (fun c => c <> None) cs -> exists m, Lite.dist_matrix W cs = Val m.
Proof.
  intros Hall.
  assert (Hcs : cs = map Some (map (fun c => match c with Some p => p | None => (0, 0)%float end) cs)).
  { induction Hall as [|c cs Hc _ IH]; [reflexivity|].
    cbn. rewrite <- IH. destruct c; [reflexivity|congruence]. }
  rewrite Hcs. eexists. apply dist_matrix_geocoded.
Qed.

End LiteMissingCoordinates.

(** * Duration and load band *)

Section Presentation.
Variable W : services.

Lemma lite_outcome_settings ui1 ui2 stops :
  Lite.depot_address ui1 = Lite.depot_address ui2 ->
  Lite.return_to_depot ui1 = Lite.return_to_depot ui2 ->
  lite_vehicle_outcome W ui1 stops = lite_vehicle_outcome W ui2 stops.
Proof.
  intros Hdepot Hreturn. unfold lite_vehicle_outcome, Lite.address_list, Lite.n_stops.
  now rewrite Hdepot, Hreturn.
Qed.

Lemma dict_set_durations (d : list (string * Pro.metric)) k v1 v2 :
  Pro.duration v1 = Pro.duration v2 ->
  map (fun kv => Pro.duration (snd kv)) (Pro.dict_set d k v1) =
  map (fun kv => Pro.duration (snd kv)) (Pro.dict_set d k v2).
Proof.
  intros Hv. induction d as [|[k' v'] d IH]; cbn.
  - now rewrite Hv.
  - destruct (k' =? k)%string; cbn; [now rewrite Hv|now rewrite IH].
Qed.

End Presentation.

(** * The depot and the stops in the address list *)

Section AddressList.
Variable W : services.

Lemma lite_calls_matrix ui stops m k :
  In (m, k) (lite_calls W ui stops) ->
  Lite.dist_matrix W (map (Lite.geocode_address W) (Lite.address_list ui stops)) = Val m.
Proof.
  unfold lite_calls. destruct (filter Lite.entered stops); [contradiction|].
  destruct (Lite.dist_matrix _ _) as [m'|e]; [|contradiction].
  intros [[= <- _]|[]]. reflexivity.
Qed.

Lemma pro_calls_matrix ui stops m k :
  In (m, k) (pro_calls W ui stops) ->
  Pro.get_distance_matrix W (Pro.addresses_of ui stops) = Val m.
Proof.
  unfold pro_calls. destruct (filter Pro.entered stops); [contradiction|].
  destruct (Pro.get_distance_matrix _ _) as [m'|e]; [|contradiction].
  intros [[= <- _]|[]]. reflexivity.
Qed.

Lemma rendered_zero {A : Type} (x : A) (l : list A) (p : route) ys i :
  rmap (Py.getitem (x :: l)) p = Val ys -> nth_error p i = Some 0 -> nth_error ys i = Some x.
Proof.
  intros Hr Hi. destruct (rmap_nth _ _ _ _ _ Hr Hi) as [y [Hy Hx]].
  rewrite getitem_head in Hx. congruence.
Qed.

Lemma entered_not_blank (st : Lite.stop) : Lite.entered st = negb (blank (snd st)).
Proof. unfold Lite.entered. apply truthy_strip. Qed.

Lemma pro_entered_not_blank (st : Pro.stop) : Pro.entered st = negb (blank (Pro.address st)).
Proof. unfold Pro.entered. apply truthy_strip. Qed.

Lemma geocode_address_blank a : blank a = true -> Lite.geocode_address W a = None.
Proof.
  intros Hb. unfold Lite.geocode_address. rewrite strip_eqb_empty, Hb.
  now rewrite orb_true_r.
Qed.

End AddressList.

(** * The properties *)

(** C1, as the code has it. For a path the solver returned and the page
    recorded, the reported distance is the sum of the costs
    [matrix[path[i]][path[i+1]]] of the consecutive edges, rounded to two
    decimals; in Lite and in Pro. *)
Theorem reported_distance_is_rounded_edge_sum (W : services) :
  (forall ui v s m p ps s',
      filter Lite.entered (Lite.vehicle_stops s v) <> [] ->
      Lite.dist_matrix W (map (Lite.geocode_address W)
                            (Lite.address_list ui (Lite.vehicle_stops s v))) = Val m ->
      solve_vrp W m 1 = SolveRoutes (p :: ps) ->
      Lite.optimize_vehicle W ui v s = (Val tt, s') ->
      exists costs st,
        rmap (cost_of m) (edges p) = Val costs /\
        Lite.route_stats s' = (Lite.route_stats s ++ [st])%list /\
        Lite.distance st = Py.round (Py.sum costs) 2) /\
  (forall ui name stops s m p ps s',
      filter Pro.entered stops <> [] ->
      Pro.get_distance_matrix W (Pro.addresses_of ui stops) = Val m ->
      solve_vrp W m 1 = SolveRoutes (p :: ps) ->
      Pro.optimize_route W ui (name, stops) s = (Val tt, s') ->
      exists costs mt,
        rmap (cost_of m) (edges p) = Val costs /\
        Pro.metrics s' = Pro.dict_set (Pro.metrics s) name mt /\
        Pro.distance mt = Py.round (Py.sum costs) 2).
Proof.
  split.
  - intros ui v s m p ps s' Hstops Hm Hsolve Hrun.
    destruct (lite_route_recorded W ui v s m p ps s' Hstops Hm Hsolve Hrun)
      as [costs [labels [addresses [Hcosts [_ [_ ->]]]]]].
    eexists costs, _. repeat split. exact Hcosts.
  - intros ui name stops s m p ps s' Hstops Hm Hsolve Hrun.
    destruct (pro_route_stored W ui name stops s m p ps s' Hstops Hm Hsolve Hrun)
      as [costs [ordered [Hcosts [_ ->]]]].
    eexists costs, _. repeat split. exact Hcosts.
Qed.

Lemma reported_distance_is_rounded_edge_sum_witness :
  exists costs st,
    rmap (cost_of Demo.lite_matrix) (edges [0; 1; 2; 0]) = Val costs /\
    Lite.route_stats (snd (Lite.optimize_vehicle Demo.world Demo.lite_ui 1 Demo.lite_session))
      = ([] ++ [st])%list /\
    Lite.distance st = Py.round (Py.sum costs) 2.
Proof.
  apply (proj1 (reported_distance_is_rounded_edge_sum Demo.world)
           Demo.lite_ui 1 Demo.lite_session Demo.lite_matrix [0; 1; 2; 0] []).
  - vm_compute. discriminate.
  - vm_compute. reflexivity.
  - vm_compute. reflexivity.
  - vm_compute. reflexivity.
Defined.

(** C1 as stated fails: for the route of the example Pro's matrix has
    1.234 km each way, the solver returns the path 0, 1, 0, the edge costs
    sum to 2.468, and the distance reported is 2.47. *)
Lemma pro_reported_distance_is_not_the_edge_sum :
  exists mt,
    Pro.get_distance_matrix Demo.world
      (Pro.addresses_of Demo.pro_ui [Pro.mk_stop "BCIT Burnaby" "9:00-11:00" 12 "Alice"])
      = Val Demo.pro_matrix /\
    solve_vrp Demo.world Demo.pro_matrix 1 = SolveRoutes [[0; 1; 0]] /\
    rmap (cost_of Demo.pro_matrix) (edges [0; 1; 0]) = Val [1.234; 1.234]%float /\
    Py.sum [1.234; 1.234]%float = 2.468%float /\
    Pro.metrics (snd (Pro.optimize_now Demo.world Demo.pro_ui Demo.pro_session))
      = [("Route 1", mt)] /\
    Pro.distance mt = 2.47%float /\
    (Pro.distance mt =? 2.468)%float = false.
Proof.
  eexists. vm_compute. repeat split.
Qed.

(** C2. In Lite, a vehicle whose address list is shorter than 2 (the depot
    alone: no stop was entered) gets an empty route, distance 0 and time 0
    recorded, and the iteration adds no event: the solver is not called.
    When the handler completes, these are the entries of that vehicle. *)
Theorem lite_vehicle_without_stops (W : services) (ui : Lite.settings) (v : Z) (s : Lite.session) :
  Py.len (Lite.address_list ui (Lite.vehicle_stops s v)) < 2 ->
  Lite.optimize_vehicle W ui v s =
    (Val tt, Lite.mk_session (Lite.vehicle_stops s) (Lite.route_paths s ++ [[]])
               (Lite.route_addresses s ++ [[]])
               (Lite.route_stats s ++ [Lite.mk_stats 0 0 Lite.Underused])
               (Lite.events s)) /\
  (1 <= v <= Lite.num_vehicles ui ->
   forall s', Lite.optimize_now W ui s = (Val tt, s') ->
     nth_error (Lite.route_paths s') (Z.to_nat (v - 1)) = Some [] /\
     nth_error (Lite.route_addresses s') (Z.to_nat (v - 1)) = Some [] /\
     nth_error (Lite.route_stats s') (Z.to_nat (v - 1)) = Some (Lite.mk_stats 0 0 Lite.Underused)).
Proof.
  intros Hshort.
  assert (Hout : lite_vehicle_outcome W ui (Lite.vehicle_stops s v) =
                 (Val ([], [], Lite.mk_stats 0 0 Lite.Underused), [])).
  { apply Z.ltb_lt in Hshort. rewrite len_address_list in Hshort.
    unfold lite_vehicle_outcome.
    destruct (filter Lite.entered (Lite.vehicle_stops s v)); [reflexivity|discriminate]. }
  split.
  - rewrite optimize_vehicle_outcome, Hout. cbn. now rewrite app_nil_r.
  - intros Hv s' Hrun. rewrite optimize_now_closed in Hrun. cbv zeta in Hrun.
    destruct (first_exception (fleet_outcomes W ui s)) eqn:Hnone; [discriminate|].
    injection Hrun as <-. cbn [Lite.route_paths Lite.route_addresses Lite.route_stats].
    destruct (entries_of_nth (fleet_outcomes W ui s) (Z.to_nat (v - 1))
                (lite_vehicle_outcome W ui (Lite.vehicle_stops s v)) Hnone) as [en [Hen Hnth]].
    { unfold fleet_outcomes. rewrite nth_error_map, range2_nth by lia. reflexivity. }
    rewrite Hout in Hen. injection Hen as <-.
    unfold lite_entry in *. rewrite !nth_error_map, Hnth. auto.
Qed.

Lemma lite_vehicle_without_stops_witness :
  Py.len (Lite.address_list Demo.lite_ui (Lite.vehicle_stops Demo.lite_session 2)) < 2 /\
  Lite.optimize_vehicle Demo.world Demo.lite_ui 2 Demo.lite_session =
    (Val tt, Lite.mk_session Demo.lite_stops [[]] [[]] [Lite.mk_stats 0 0 Lite.Underused] []).
Proof.
  assert (H : Py.len (Lite.address_list Demo.lite_ui (Lite.vehicle_stops Demo.lite_session 2)) < 2)
    by reflexivity.
  split; [exact H|].
  exact (proj1 (lite_vehicle_without_stops Demo.world Demo.lite_ui 2 Demo.lite_session H)).
Defined.

(** C3, as the code has it. There is no sentinel.  In Pro, when the
    provider's reply has an element without a distance,
    [get_distance_matrix] raises [KeyError]; the iteration raises it before
    the solver is called and leaves the session as it was; and every entry
    of a matrix that Pro does hand to the solver is the provider's distance
    in metres divided by 1000.  In Lite the entry for two geocoded
    addresses is always their straight-line value, and an address without
    coordinates makes the construction raise [TypeError]. *)
Theorem pair_without_cost_raises (W : services) (ui : Pro.settings) :
  (forall name stops rows row e s,
      filter Pro.entered stops <> [] ->
      gmaps_distance_matrix W (Pro.addresses_of ui stops) (Pro.addresses_of ui stops)
        = DistanceRows rows ->
      In row rows -> In e row -> el_distance e = None ->
      Pro.get_distance_matrix W (Pro.addresses_of ui stops) = Exc KeyError /\
      Pro.optimize_route W ui (name, stops) s = (Exc KeyError, s)) /\
  (forall addresses rows m i j row e,
      gmaps_distance_matrix W addresses addresses = DistanceRows rows ->
      Pro.get_distance_matrix W addresses = Val m ->
      nth_error rows i = Some row -> nth_error row j = Some e ->
      exists metres mrow,
        el_distance e = Some metres /\
        nth_error m i = Some mrow /\
        nth_error mrow j = Some (Py.int_true_div metres 1000)) /\
  (forall cs : list coord, Lite.dist_matrix W (map Some cs) = Val (km_table W cs)) /\
  (forall cs, (2 <= List.length cs)%nat -> In None cs -> Lite.dist_matrix W cs = Exc TypeError).
Proof.
  split; [|split; [|split; [exact (dist_matrix_geocoded W)|exact (dist_matrix_missing W)]]].
  - intros name stops rows row e s Hstops Hreply Hrow He Hnone.
    assert (Hm := get_distance_matrix_no_distance W _ rows row e Hreply Hrow He Hnone).
    split; [exact Hm|].
    rewrite optimize_route_outcome. unfold pro_route_outcome. cbn [fst snd].
    destruct (filter Pro.entered stops); [congruence|].
    rewrite Hm. destruct s. cbn. now rewrite app_nil_r.
  - intros addresses rows m i j row e Hreply Hm Hi Hj.
    unfold Pro.get_distance_matrix in Hm. rewrite Hreply in Hm.
    destruct (rmap_nth _ _ _ _ _ Hm Hi) as [mrow [Hmi Hrow]].
    destruct (rmap_nth _ _ _ _ _ Hrow Hj) as [x [Hmj Hx]].
    unfold Pro.kilometres in Hx. destruct (el_distance e) as [metres|]; [|discriminate].
    injection Hx as <-. eauto.
Qed.

Lemma pair_without_cost_raises_witness :
  Pro.get_distance_matrix Demo.no_route_world
    (Pro.addresses_of Demo.pro_ui [Pro.mk_stop "BCIT Burnaby" "9:00-11:00" 12 "Alice"])
    = Exc KeyError /\
  Pro.optimize_route Demo.no_route_world Demo.pro_ui
    ("Route 1", [Pro.mk_stop "BCIT Burnaby" "9:00-11:00" 12 "Alice"]) Demo.pro_session
    = (Exc KeyError, Demo.pro_session).
Proof.
  apply (proj1 (pair_without_cost_raises Demo.no_route_world Demo.pro_ui)
           "Route 1" [Pro.mk_stop "BCIT Burnaby" "9:00-11:00" 12 "Alice"]
           [[mk_element "OK" (Some 0); mk_element "ZERO_RESULTS" None];
            [mk_element "ZERO_RESULTS" None; mk_element "OK" (Some 0)]]
           [mk_element "OK" (Some 0); mk_element "ZERO_RESULTS" None]
           (mk_element "ZERO_RESULTS" None)).
  - vm_compute. discriminate.
  - vm_compute. reflexivity.
  - left. reflexivity.
  - right. left. reflexivity.
  - reflexivity.
Defined.

(** C3 as stated fails: the provider finds no route between the depot and
    the stop of the example; no matrix with a sentinel at that entry is
    handed to the solver, the handler raises [KeyError] and the solver is
    never called. *)
Lemma pro_unreachable_pair_gets_no_sentinel :
  gmaps_distance_matrix Demo.no_route_world [Demo.depot; "BCIT Burnaby"] [Demo.depot; "BCIT Burnaby"]
    = DistanceRows [[mk_element "OK" (Some 0); mk_element "ZERO_RESULTS" None];
                    [mk_element "ZERO_RESULTS" None; mk_element "OK" (Some 0)]] /\
  Pro.get_distance_matrix Demo.no_route_world [Demo.depot; "BCIT Burnaby"] = Exc KeyError /\
  Pro.optimize_now Demo.no_route_world Demo.pro_ui Demo.pro_session
    = (Exc KeyError, Demo.pro_session) /\
  solver_calls (Pro.events (snd (Pro.optimize_now Demo.no_route_world Demo.pro_ui Demo.pro_session)))
    = [].
Proof. vm_compute. repeat split. Qed.




(** C5, as the code has it. The duration is the distance at the fixed
    speed of 40 km/h, in minutes, rounded to one decimal, in Lite and in
    Pro; Lite's load band is Light up to 2 stops, Medium up to 4 and Heavy
    above, the stops being the nodes of the path less 2 (less 1 when the
    route does not return to the depot).  Nothing in the sidebar sets the
    speed or the thresholds. *)
Theorem duration_and_load_band_use_fixed_constants (W : services) :
  (forall ui v s m p ps s',
      filter Lite.entered (Lite.vehicle_stops s v) <> [] ->
      Lite.dist_matrix W (map (Lite.geocode_address W)
                            (Lite.address_list ui (Lite.vehicle_stops s v))) = Val m ->
      solve_vrp W m 1 = SolveRoutes (p :: ps) ->
      Lite.optimize_vehicle W ui v s = (Val tt, s') ->
      exists costs st,
        rmap (cost_of m) (edges p) = Val costs /\
        Lite.route_stats s' = (Lite.route_stats s ++ [st])%list /\
        Lite.time st = Py.round (Py.sum costs / 40 * 60)%float 1 /\
        Lite.score st =
          (let n := if Lite.return_to_depot ui then Py.len p - 2 else Py.len p - 1 in
           if n <=? 2 then Lite.Light else if n <=? 4 then Lite.Medium else Lite.Heavy)) /\
  (forall ui name stops s m p ps s',
      filter Pro.entered stops <> [] ->
      Pro.get_distance_matrix W (Pro.addresses_of ui stops) = Val m ->
      solve_vrp W m 1 = SolveRoutes (p :: ps) ->
      Pro.optimize_route W ui (name, stops) s = (Val tt, s') ->
      exists costs mt,
        rmap (cost_of m) (edges p) = Val costs /\
        Pro.metrics s' = Pro.dict_set (Pro.metrics s) name mt /\
        Pro.duration mt = Py.round (Py.sum costs / 40 * 60)%float 1).
Proof.
  split.
  - intros ui v s m p ps s' Hstops Hm Hsolve Hrun.
    destruct (lite_route_recorded W ui v s m p ps s' Hstops Hm Hsolve Hrun)
      as [costs [labels [addresses [Hcosts [_ [_ ->]]]]]].
    eexists costs, _. repeat split. exact Hcosts.
  - intros ui name stops s m p ps s' Hstops Hm Hsolve Hrun.
    destruct (pro_route_stored W ui name stops s m p ps s' Hstops Hm Hsolve Hrun)
      as [costs [ordered [Hcosts [_ ->]]]].
    eexists costs, _. repeat split. exact Hcosts.
Qed.

Lemma duration_and_load_band_use_fixed_constants_witness :
  exists costs st,
    rmap (cost_of Demo.lite_matrix) (edges [0; 1; 2; 0]) = Val costs /\
    Lite.route_stats (snd (Lite.optimize_vehicle Demo.world Demo.lite_ui 1 Demo.lite_session))
      = ([] ++ [st])%list /\
    Lite.time st = Py.round (Py.sum costs / 40 * 60)%float 1 /\
    Lite.score st = Lite.Light.
Proof.
  apply (proj1 (duration_and_load_band_use_fixed_constants Demo.world)
           Demo.lite_ui 1 Demo.lite_session Demo.lite_matrix [0; 1; 2; 0] []).
  - vm_compute. discriminate.
  - vm_compute. reflexivity.
  - vm_compute. reflexivity.
  - vm_compute. reflexivity.
Defined.

(** C5 as stated fails: no setting is a hook for the speed or the
    thresholds.  Two sidebars with the same depot address (and, in Lite,
    the same return-to-depot choice) give the same statistics in Lite and
    the same durations in Pro, whatever else they set; so for the route of
    the example, 2.468 km long, both sidebars give 3.7 minutes. *)
Lemma duration_and_load_band_ignore_the_settings :
  (forall W ui1 ui2 v s s1 s2,
      Lite.depot_address ui1 = Lite.depot_address ui2 ->
      Lite.return_to_depot ui1 = Lite.return_to_depot ui2 ->
      Lite.optimize_vehicle W ui1 v s = (Val tt, s1) ->
      Lite.optimize_vehicle W ui2 v s = (Val tt, s2) ->
      Lite.route_stats s1 = Lite.route_stats s2) /\
  (forall W ui1 ui2 item s s1 s2,
      Pro.depot_address ui1 = Pro.depot_address ui2 ->
      Pro.optimize_route W ui1 item s = (Val tt, s1) ->
      Pro.optimize_route W ui2 item s = (Val tt, s2) ->
      map (fun kv => Pro.duration (snd kv)) (Pro.metrics s1) =
      map (fun kv => Pro.duration (snd kv)) (Pro.metrics s2)) /\
  map (fun kv => Pro.duration (snd kv))
      (Pro.metrics (snd (Pro.optimize_now Demo.world Demo.pro_ui Demo.pro_session))) = [3.7]%float /\
  map (fun kv => Pro.duration (snd kv))
      (Pro.metrics (snd (Pro.optimize_now Demo.world Demo.other_pro_ui Demo.pro_session)))
    = [3.7]%float.
Proof.
  split; [|split; [|vm_compute; split; reflexivity]].
  - intros W ui1 ui2 v s s1 s2 Hdepot Hreturn H1 H2.
    rewrite optimize_vehicle_outcome in H1, H2.
    rewrite (lite_outcome_settings W ui1 ui2 _ Hdepot Hreturn) in H1. congruence.
  - intros W ui1 ui2 [name stops] s s1 s2 Hdepot H1 H2.
    rewrite optimize_route_outcome in H1, H2.
    unfold pro_route_outcome, Pro.addresses_of in H1, H2. cbn [fst snd] in H1, H2.
    rewrite <- Hdepot in H2.
    destruct (filter Pro.entered stops); [congruence|].
    destruct (Pro.get_distance_matrix W _) as [m|e]; [|discriminate].
    destruct (solve_vrp W m 1) as [e| |[|p ps]]; try congruence.
    destruct (rmap (Py.getitem _) p) as [ordered|e]; [|discriminate].
    destruct (edge_costs m p) as [costs|e]; [|discriminate].
    cbn in H1, H2. injection H1 as <-. injection H2 as <-. cbn [Pro.metrics].
    apply dict_set_durations. reflexivity.
Qed.

(** C6. In both pages the address list starts with the depot address, so
    index 0 is the depot (and "Depot" in Lite's label list); the matrix
    passed in every call to the solver is built from that list; and every
    node 0 of a recorded path is shown as the depot. *)
Theorem depot_is_node_zero (W : services) :
  (forall ui stops,
      Py.getitem (Lite.address_list ui stops) 0 = Val (Lite.depot_address ui) /\
      Py.getitem (Lite.label_list stops) 0 = Val "Depot") /\
  (forall ui stops,
      Py.getitem (Pro.addresses_of ui stops) 0 = Val (Pro.depot_address ui)) /\
  (forall ui v s m k,
      In (m, k) (solver_calls (Lite.events (snd (Lite.optimize_vehicle W ui v s)))) ->
      In (m, k) (solver_calls (Lite.events s)) \/
      Lite.dist_matrix W (map (Lite.geocode_address W)
                            (Lite.address_list ui (Lite.vehicle_stops s v))) = Val m) /\
  (forall ui name stops s m k,
      In (m, k) (solver_calls (Pro.events (snd (Pro.optimize_route W ui (name, stops) s)))) ->
      In (m, k) (solver_calls (Pro.events s)) \/
      Pro.get_distance_matrix W (Pro.addresses_of ui stops) = Val m) /\
  (forall ui v s m p ps s',
      filter Lite.entered (Lite.vehicle_stops s v) <> [] ->
      Lite.dist_matrix W (map (Lite.geocode_address W)
                            (Lite.address_list ui (Lite.vehicle_stops s v))) = Val m ->
      solve_vrp W m 1 = SolveRoutes (p :: ps) ->
      Lite.optimize_vehicle W ui v s = (Val tt, s') ->
      exists labels addresses,
        Lite.route_paths s' = (Lite.route_paths s ++ [labels])%list /\
        Lite.route_addresses s' = (Lite.route_addresses s ++ [addresses])%list /\
        forall i, nth_error p i = Some 0 ->
                  nth_error labels i = Some "Depot" /\
                  nth_error addresses i = Some (Lite.depot_address ui)) /\
  (forall ui name stops s m p ps s',
      filter Pro.entered stops <> [] ->
      Pro.get_distance_matrix W (Pro.addresses_of ui stops) = Val m ->
      solve_vrp W m 1 = SolveRoutes (p :: ps) ->
      Pro.optimize_route W ui (name, stops) s = (Val tt, s') ->
      exists mt,
        Pro.metrics s' = Pro.dict_set (Pro.metrics s) name mt /\
        forall i, nth_error p i = Some 0 ->
                  nth_error (Pro.path mt) i = Some (Pro.depot_address ui)).
Proof.
  split; [|split; [|split; [|split; [|split]]]].
  - intros ui stops. split; reflexivity.
  - reflexivity.
  - intros ui v s m k Hin.
    rewrite optimize_vehicle_outcome, lite_record_events, solver_calls_app in Hin.
    apply in_app_or in Hin as [Hin|Hin]; [now left|right].
    rewrite (proj1 (lite_outcome_calls W ui _)) in Hin.
    now apply lite_calls_matrix in Hin.
  - intros ui name stops s m k Hin.
    rewrite optimize_route_outcome, pro_record_events, solver_calls_app in Hin.
    apply in_app_or in Hin as [Hin|Hin]; [now left|right].
    rewrite (proj1 (pro_outcome_calls W ui _)) in Hin.
    now apply pro_calls_matrix in Hin.
  - intros ui v s m p ps s' Hstops Hm Hsolve Hrun.
    destruct (lite_route_recorded W ui v s m p ps s' Hstops Hm Hsolve Hrun)
      as [costs [labels [addresses [_ [Hl [Ha ->]]]]]].
    exists labels, addresses. repeat split.
    + eapply rendered_zero; [exact Hl|assumption].
    + eapply rendered_zero; [exact Ha|assumption].
  - intros ui name stops s m p ps s' Hstops Hm Hsolve Hrun.
    destruct (pro_route_stored W ui name stops s m p ps s' Hstops Hm Hsolve Hrun)
      as [costs [ordered [_ [Ho ->]]]].
    eexists. split; [reflexivity|]. intros i Hi. cbn [Pro.path].
    eapply rendered_zero; [exact Ho|assumption].
Qed.

Lemma depot_is_node_zero_witness :
  exists labels addresses,
    Lite.route_paths (snd (Lite.optimize_vehicle Demo.world Demo.lite_ui 1 Demo.lite_session))
      = ([] ++ [labels])%list /\
    Lite.route_addresses (snd (Lite.optimize_vehicle Demo.world Demo.lite_ui 1 Demo.lite_session))
      = ([] ++ [addresses])%list /\
    forall i, nth_error [0; 1; 2; 0] i = Some 0 ->
              nth_error labels i = Some "Depot" /\ nth_error addresses i = Some Demo.depot.
Proof.
  apply (proj1 (proj2 (proj2 (proj2 (proj2 (depot_is_node_zero Demo.world)))))
           Demo.lite_ui 1 Demo.lite_session Demo.lite_matrix [0; 1; 2; 0] []).
  - vm_compute. discriminate.
  - vm_compute. reflexivity.
  - vm_compute. reflexivity.
  - vm_compute. reflexivity.
Defined.

(** C7, as the code has it. Every call either handler makes to the solver
    passes vehicle count 1, and an iteration of either loop makes at most
    one call: exactly one, with the matrix built for that vehicle or route,
    when it has a stop with a non-blank address and its matrix is built,
    and none otherwise. *)
Theorem solver_calls_pass_one_vehicle (W : services) :
  (forall ui s, exists new,
      Lite.events (snd (Lite.optimize_now W ui s)) = (Lite.events s ++ new)%list /\
      Forall one_vehicle_call new) /\
  (forall ui s, exists new,
      Pro.events (snd (Pro.optimize_now W ui s)) = (Pro.events s ++ new)%list /\
      Forall one_vehicle_call new) /\
  (forall ui v s,
      solver_calls (Lite.events (snd (Lite.optimize_vehicle W ui v s))) =
      (solver_calls (Lite.events s) ++ lite_calls W ui (Lite.vehicle_stops s v))%list) /\
  (forall ui item s,
      solver_calls (Pro.events (snd (Pro.optimize_route W ui item s))) =
      (solver_calls (Pro.events s) ++ pro_calls W ui (snd item))%list).
Proof.
  split; [|split; [|split]].
  - intros ui s. rewrite optimize_now_closed. cbv zeta.
    assert (Hall : Forall one_vehicle_call (events_of (fleet_outcomes W ui s))).
    { apply events_of_forall. intros o Ho. unfold fleet_outcomes in Ho.
      apply in_map_iff in Ho as [v [<- _]]. apply lite_outcome_calls. }
    destruct (first_exception _); cbn.
    + eauto.
    + exists (events_of (fleet_outcomes W ui s) ++ [SuccessShown])%list.
      split; [now rewrite app_assoc|].
      apply Forall_app. split; [exact Hall|repeat constructor].
  - intros ui s. rewrite pro_optimize_now_closed.
    destruct (Pro.geocode W (Pro.depot_address ui)); cbv zeta.
    + assert (Hall : Forall one_vehicle_call
                       (events_of (map (pro_route_outcome W ui) (Pro.routes s)))).
      { apply events_of_forall. intros o Ho.
        apply in_map_iff in Ho as [item [<- _]]. apply pro_outcome_calls. }
      destruct (first_exception _); cbn.
      * eauto.
      * exists (events_of (map (pro_route_outcome W ui) (Pro.routes s)) ++ [SuccessShown])%list.
        split; [now rewrite app_assoc|].
        apply Forall_app. split; [exact Hall|repeat constructor].
    + cbn. exists [ErrorDepotNotGeocoded]. split; [reflexivity|repeat constructor].
  - intros ui v s. rewrite optimize_vehicle_outcome, lite_record_events, solver_calls_app.
    f_equal. apply lite_outcome_calls.
  - intros ui item s. rewrite optimize_route_outcome, pro_record_events, solver_calls_app.
    f_equal. apply pro_outcome_calls.
Qed.

(** C7 as stated fails: the second vehicle of the example has no stop, its
    iteration makes no call, and the whole run over the two vehicles makes
    one call, not one per vehicle. *)
Lemma run_over_two_vehicles_makes_one_solver_call :
  Lite.num_vehicles Demo.lite_ui = 2 /\
  solver_calls (Lite.events (snd (Lite.optimize_vehicle Demo.world Demo.lite_ui 2 Demo.lite_session)))
    = [] /\
  List.length
    (solver_calls (Lite.events (snd (Lite.optimize_now Demo.world Demo.lite_ui Demo.lite_session))))
    = 1%nat.
Proof. vm_compute. auto. Qed.

(** C8. For every list of coordinates as a geocoder returns them (a
    latitude from -90 to 90 and a longitude from -180 to 180), on a platform
    whose [pow] keeps the sign, Lite builds a distance matrix: it is square
    of the size of the list, has 0 on its diagonal, and every entry is a
    number that is not below zero (no NaN either).  In this range of
    coordinates no power leaves the double range. *)
Theorem lite_matrix_square_zero_diagonal_nonnegative (W : services) (cs : list coord) :
  pow_keeps_sign (libm_pow W) ->
  Forall (fun c => geographic c = true) cs ->
  exists m,
    Lite.dist_matrix W (map Some cs) = Val m /\
    List.length m = List.length cs /\
    (forall row, In row m -> List.length row = List.length cs) /\
    (forall i row, nth_error m i = Some row -> nth_error row i = Some 0%float) /\
    (forall row x, In row m -> In x row -> nonneg x).
Proof.
  intros Hpw Hcs.
  exists (km_table W cs). split; [apply dist_matrix_geocoded|].
  split; [unfold km_table; now rewrite length_map, length_seq|].
  split; [|split].
  - intros row Hrow. apply In_nth_error in Hrow as [i Hi].
    apply km_table_row in Hi as [_ ->]. now rewrite length_map, length_seq.
  - intros i row Hi. apply km_table_row in Hi as [Hlt ->].
    rewrite nth_error_map, nth_error_seq.
    destruct (Nat.ltb_spec i (List.length cs)); [|lia].
    simpl. unfold km_between. now rewrite Nat.eqb_refl.
  - intros row x Hrow Hx. apply In_nth_error in Hrow as [i Hi].
    apply km_table_row in Hi as [_ ->].
    apply in_map_iff in Hx as [j [<- _]]. now apply km_nonneg.
Qed.

Lemma lite_matrix_square_zero_diagonal_nonnegative_witness :
  let cs := [(49.2827, -123.1097); (49.2488, -123.0016); (49.2276, -123.0076)]%float in
  exists m,
    Lite.dist_matrix Demo.world (map Some cs) = Val m /\
    List.length m = List.length cs /\
    (forall row, In row m -> List.length row = List.length cs) /\
    (forall i row, nth_error m i = Some row -> nth_error row i = Some 0%float) /\
    (forall row x, In row m -> In x row -> nonneg x).
Proof.
  cbv zeta.
  apply (lite_matrix_square_zero_diagonal_nonnegative Demo.world
           [(49.2827, -123.1097); (49.2488, -123.0016); (49.2276, -123.0076)]%float).
  - exact correct_pow_keeps_sign.
  - repeat constructor.
Defined.

(** C9. Lite builds its matrix only when every address of the list has
    coordinates.  If all have, the comprehension returns a matrix.  If
    [geocode_address] returned [None] for one (the list has two entries or
    more whenever the matrix is built), the comprehension raises
    [TypeError]; the iteration raises it and leaves the session as it was,
    nothing is substituted for the missing entries, and the handler ends
    with an exception. *)
Theorem lite_matrix_requires_every_geocode (W : services) (ui : Lite.settings) :
  (forall cs, Forall (fun c => c <> None) cs -> exists m, Lite.dist_matrix W cs = Val m) /\
  (forall cs, (2 <= List.length cs)%nat -> In None cs -> Lite.dist_matrix W cs = Exc TypeError) /\
  (forall v s,
      filter Lite.entered (Lite.vehicle_stops s v) <> [] ->
      In None (map (Lite.geocode_address W) (Lite.address_list ui (Lite.vehicle_stops s v))) ->
      Lite.optimize_vehicle W ui v s = (Exc TypeError, s) /\
      (1 <= v <= Lite.num_vehicles ui ->
       exists e s', Lite.optimize_now W ui s = (Exc e, s'))).
Proof.
  split; [exact (dist_matrix_all_geocoded W)|].
  split; [exact (dist_matrix_missing W)|].
  intros v s Hstops Hnone.
  assert (Hout : lite_vehicle_outcome W ui (Lite.vehicle_stops s v) = (Exc TypeError, [])).
  { unfold lite_vehicle_outcome.
    destruct (filter Lite.entered (Lite.vehicle_stops s v)) as [|st0 rest] eqn:Hf; [congruence|].
    rewrite dist_matrix_missing; [reflexivity| |exact Hnone].
    rewrite length_map. unfold Lite.address_list. rewrite Hf. cbn. lia. }
  split.
  - rewrite optimize_vehicle_outcome, Hout. destruct s. cbn. now rewrite app_nil_r.
  - intros Hv. rewrite optimize_now_closed. cbv zeta.
    destruct (first_exception (fleet_outcomes W ui s)) as [e|] eqn:Hfirst; [eauto|].
    exfalso. apply (first_exception_in (fleet_outcomes W ui s) TypeError []); [|exact Hfirst].
    unfold fleet_outcomes. apply in_map_iff. exists v. split; [exact Hout|].
    apply range2_in. lia.
Qed.

Lemma lite_matrix_requires_every_geocode_witness :
  Lite.geocode_address Demo.world "Nowhere Road" = None /\
  Lite.optimize_vehicle Demo.world Demo.lite_ui 1 Demo.lost_session
    = (Exc TypeError, Demo.lost_session) /\
  exists e s', Lite.optimize_now Demo.world Demo.lite_ui Demo.lost_session = (Exc e, s').
Proof.
  split; [reflexivity|].
  assert (H := proj2 (proj2 (lite_matrix_requires_every_geocode Demo.world Demo.lite_ui))
                     1 Demo.lost_session).
  destruct H as [Hbody Hrun].
  - vm_compute. discriminate.
  - vm_compute. auto.
  - split; [exact Hbody|]. apply Hrun. vm_compute. split; discriminate.
Defined.

(** C10, as the code has it. Both pages filter the stops, not the depot:
    every stop whose address is empty or whitespace only is left out and
    the others are kept in order, so every stop address of the list the
    matrix is built from is non-blank.  The depot address heads the list
    unfiltered.  In Lite the script stops before the handler on a blank
    depot address, so the whole list is non-blank whenever the handler
    runs; in Pro the whole list is non-blank exactly when the depot
    address is.  Lite filters the labels by the same test on the address,
    so the label list is as long as the address list. *)
Theorem blank_stops_are_left_out (W : services) :
  (forall ui stops,
      Lite.address_list ui stops =
        Lite.depot_address ui :: map snd (filter (fun st => negb (blank (snd st))) stops) /\
      Lite.label_list stops =
        "Depot" :: map fst (filter (fun st => negb (blank (snd st))) stops) /\
      Forall (fun a => blank a = false) (tl (Lite.address_list ui stops)) /\
      List.length (Lite.label_list stops) = List.length (Lite.address_list ui stops) /\
      (Lite.geocode_address W (Lite.depot_address ui) <> None ->
       Forall (fun a => blank a = false) (Lite.address_list ui stops))) /\
  (forall ui stops,
      Pro.addresses_of ui stops =
        Pro.depot_address ui :: map Pro.address (filter (fun st => negb (blank (Pro.address st))) stops) /\
      Forall (fun a => blank a = false) (tl (Pro.addresses_of ui stops)) /\
      (Forall (fun a => blank a = false) (Pro.addresses_of ui stops) <->
       blank (Pro.depot_address ui) = false)) /\
  (forall ui clicked s,
      blank (Lite.depot_address ui) = true ->
      Lite.script W ui clicked s = (Exc StopException, s)).
Proof.
  split; [|split].
  - intros ui stops.
    assert (Hf : filter Lite.entered stops = filter (fun st => negb (blank (snd st))) stops)
      by (apply filter_ext; intros st; apply entered_not_blank).
    assert (Htl : Forall (fun a => blank a = false) (map snd (filter Lite.entered stops))).
    { apply Forall_forall. intros a Ha. apply in_map_iff in Ha as [st [<- Hst]].
      apply filter_In in Hst as [_ Hst]. rewrite entered_not_blank in Hst.
      now apply negb_true_iff in Hst. }
    unfold Lite.address_list, Lite.label_list. rewrite <- Hf.
    repeat split; try assumption.
    + cbn. now rewrite !length_map.
    + intros Hdepot. constructor; [|exact Htl].
      destruct (blank (Lite.depot_address ui)) eqn:Hb; [|reflexivity].
      now apply (geocode_address_blank W) in Hb.
  - intros ui stops.
    assert (Hf : filter Pro.entered stops = filter (fun st => negb (blank (Pro.address st))) stops)
      by (apply filter_ext; intros st; apply pro_entered_not_blank).
    assert (Htl : Forall (fun a => blank a = false) (map Pro.address (filter Pro.entered stops))).
    { apply Forall_forall. intros a Ha. apply in_map_iff in Ha as [st [<- Hst]].
      apply filter_In in Hst as [_ Hst]. rewrite pro_entered_not_blank in Hst.
      now apply negb_true_iff in Hst. }
    unfold Pro.addresses_of. rewrite <- Hf.
    split; [reflexivity|]. split; [exact Htl|]. split.
    + intros Hall. now inversion Hall.
    + intros Hdepot. now constructor.
  - intros ui clicked s Hb. unfold Lite.script.
    now rewrite (geocode_address_blank W _ Hb).
Qed.

(** The address of "Stop 4" is the ideographic space U+3000. *)
Lemma blank_stops_are_left_out_witness :
  Lite.address_list Demo.lite_ui
    [("Stop 1", "BCIT Burnaby"); ("Stop 2", "   "); ("Stop 3", ""); ("Stop 4", "　")]
    = [Demo.depot; "BCIT Burnaby"] /\
  Lite.label_list [("Stop 1", "BCIT Burnaby"); ("Stop 2", "   "); ("Stop 3", ""); ("Stop 4", "　")]
    = ["Depot"; "Stop 1"] /\
  Forall (fun a => blank a = false)
    (Lite.address_list Demo.lite_ui
       [("Stop 1", "BCIT Burnaby"); ("Stop 2", "   "); ("Stop 3", ""); ("Stop 4", "　")]) /\
  Forall (fun a => blank a = false)
    (Pro.addresses_of Demo.pro_ui
       [Pro.mk_stop "BCIT Burnaby" "9:00-11:00" 12 "Alice"; Pro.mk_stop "　" "9:00-11:00" 1 "Alice"]).
Proof.
  destruct (blank_stops_are_left_out Demo.world) as [Hlite [Hpro _]].
  destruct (Hlite Demo.lite_ui
              [("Stop 1", "BCIT Burnaby"); ("Stop 2", "   "); ("Stop 3", ""); ("Stop 4", "　")])
    as [Ha [Hl [_ [_ Hall]]]].
  destruct (Hpro Demo.pro_ui
              [Pro.mk_stop "BCIT Burnaby" "9:00-11:00" 12 "Alice";
               Pro.mk_stop "　" "9:00-11:00" 1 "Alice"])
    as [_ [_ Hiff]].
  split; [exact Ha|]. split; [exact Hl|]. split.
  - apply Hall. vm_compute. discriminate.
  - apply Hiff. vm_compute. reflexivity.
Defined.

(** C10 as stated fails for Pro: the depot address is not filtered.  With
    a depot address of one space that the geocoder resolves, Pro's handler
    completes and the list the solver's matrix was built from starts with
    the blank address. *)
Lemma pro_blank_depot_reaches_the_solver :
  blank (Pro.depot_address Demo.blank_depot_ui) = true /\
  fst (Pro.optimize_now Demo.lenient_world Demo.blank_depot_ui Demo.pro_session) = Val tt /\
  Pro.addresses_of Demo.blank_depot_ui [Pro.mk_stop "BCIT Burnaby" "9:00-11:00" 12 "Alice"]
    = [" "; "BCIT Burnaby"] /\
  Pro.get_distance_matrix Demo.lenient_world [" "; "BCIT Burnaby"] = Val Demo.pro_matrix /\
  solver_calls (Pro.events (snd (Pro.optimize_now Demo.lenient_world Demo.blank_depot_ui
                                   Demo.pro_session)))
    = [(Demo.pro_matrix, 1)].
Proof. vm_compute. repeat split. Qed.

(** * Further properties of the two handlers *)

Section Bounds.
Context {A : Type}.

Lemma getitem_raises (l : list A) i e : Py.getitem l i = Exc e -> e = IndexError.
Proof.
  unfold Py.getitem. destruct (_ <? 0); [now intros [= <-]|].
  destruct (nth_error l _); [discriminate|now intros [= <-]].
Qed.

Lemma getitem_in_range (l : list A) i :
  - Py.len l <= i < Py.len l -> exists x, Py.getitem l i = Val x.
Proof.
  unfold Py.getitem, Py.len. intros Hi.
  set (j := if i <? 0 then Z.of_nat (List.length l) + i else i).
  assert (Hj : 0 <= j < Z.of_nat (List.length l)).
  { unfold j. destruct (Z.ltb_spec i 0); lia. }
  destruct (Z.ltb_spec j 0); [lia|].
  destruct (nth_error l (Z.to_nat j)) eqn:Hn; [eauto|].
  apply nth_error_None in Hn. lia.
Qed.

Lemma getitem_out_of_range (l : list A) i :
  ~ (- Py.len l <= i < Py.len l) -> Py.getitem l i = Exc IndexError.
Proof.
  unfold Py.getitem, Py.len. intros Hi.
  set (j := if i <? 0 then Z.of_nat (List.length l) + i else i).
  destruct (Z.ltb_spec j 0); [reflexivity|].
  destruct (nth_error l (Z.to_nat j)) eqn:Hn; [|reflexivity].
  assert (Hlt : (Z.to_nat j < List.length l)%nat) by (apply nth_error_Some; congruence).
  exfalso. apply Hi. unfold j in *. destruct (Z.ltb_spec i 0); lia.
Qed.

Lemma rmap_getitem_in_range (l : list A) (p : route) :
  Forall (fun i => - Py.len l <= i < Py.len l) p -> exists ys, rmap (Py.getitem l) p = Val ys.
Proof.
  induction 1 as [|i p Hi _ [ys IH]]; [cbn; eauto|].
  destruct (getitem_in_range l i Hi) as [x Hx]. cbn. rewrite Hx, IH. cbn. eauto.
Qed.

Lemma rmap_getitem_out_of_range (l : list A) (p : route) :
  Exists (fun i => ~ (- Py.len l <= i < Py.len l)) p -> rmap (Py.getitem l) p = Exc IndexError.
Proof.
  intros Hex. apply rmap_first_exc.
  - intros i e _. apply getitem_raises.
  - apply Exists_exists in Hex as [i [Hin Hi]]. exists i, IndexError.
    split; [exact Hin|now apply getitem_out_of_range].
Qed.

Lemma rmap_length' {B : Type} (f : A -> res B) l ys :
  rmap f l = Val ys -> List.length ys = List.length l.
Proof.
  revert ys. induction l as [|x l IH]; cbn; intros ys.
  - now intros [= <-].
  - destruct (f x); cbn; [|discriminate].
    destruct (rmap f l); cbn; [|discriminate].
    intros [= <-]. cbn. f_equal. now apply IH.
Qed.

End Bounds.

Section EdgeBounds.
Variable W : services.

Lemma cost_of_raises m e x : cost_of m e = Exc x -> x = IndexError.
Proof.
  unfold cost_of. destruct (Py.getitem m (fst e)) as [row|x0] eqn:Hrow; cbn.
  - apply getitem_raises.
  - intros [= <-]. now apply getitem_raises in Hrow.
Qed.

Lemma edge_costs_raises m p x : edge_costs m p = Exc x -> x = IndexError.
Proof.
  rewrite edge_costs_edges. intros H. apply rmap_exc_from in H as [e [_ He]].
  now apply cost_of_raises in He.
Qed.

Lemma edges_in (p : route) a b : In (a, b) (edges p) -> In a p /\ In b p.
Proof.
  unfold edges. intros H. split.
  - eapply in_combine_l; eauto.
  - apply in_combine_r in H. destruct p; [contradiction|]. now right.
Qed.

(** On a square matrix the costs along a path whose nodes are all in range
    are all there. *)
Lemma edge_costs_in_range (m : matrix) (p : route) :
  (forall row, In row m -> List.length row = List.length m) ->
  Forall (fun i => - Py.len m <= i < Py.len m) p ->
  exists costs, edge_costs m p = Val costs.
Proof.
  intros Hsq Hp. rewrite edge_costs_edges.
  assert (Hall : forall e, In e (edges p) -> exists x, cost_of m e = Val x).
  { intros [a b] He. apply edges_in in He as [Ha Hb].
    rewrite Forall_forall in Hp.
    destruct (getitem_in_range m a (Hp a Ha)) as [row Hrow].
    unfold cost_of. cbn [fst snd]. rewrite Hrow. cbn [rbind].
    apply getitem_in_range.
    assert (Hin : In row m).
    { unfold Py.getitem in Hrow. destruct (_ <? 0); [discriminate|].
      destruct (nth_error m _) eqn:Hn; [|discriminate].
      injection Hrow as <-. eapply nth_error_In; eauto. }
    unfold Py.len in *. rewrite (Hsq row Hin). apply Hp, Hb. }
  induction (edges p) as [|e es IH]; [cbn; eauto|].
  destruct (Hall e (or_introl eq_refl)) as [x Hx].
  destruct IH as [xs Hxs]; [intros e' He'; apply Hall; now right|].
  cbn. rewrite Hx, Hxs. cbn. eauto.
Qed.

Lemma dist_matrix_raises cs e : Lite.dist_matrix W cs = Exc e -> e = TypeError.
Proof.
  unfold Lite.dist_matrix. rewrite range_len, rmap_map. intros H.
  apply rmap_exc_from in H as [i [Hi Hrow]]. apply in_seq in Hi.
  rewrite rmap_map in Hrow. apply rmap_exc_from in Hrow as [j [Hj Hent]]. apply in_seq in Hj.
  apply (dist_entry_raises W cs i j); [lia|lia|exact Hent].
Qed.

Lemma dist_matrix_shape cs m :
  Lite.dist_matrix W cs = Val m ->
  List.length m = List.length cs /\ forall row, In row m -> List.length row = List.length cs.
Proof.
  unfold Lite.dist_matrix. intros H. split.
  - apply rmap_length' in H. now rewrite range_len, length_map, length_seq in H.
  - intros row Hrow. apply In_nth_error in Hrow as [k Hk].
    assert (Hlt : (k < List.length m)%nat) by (apply nth_error_Some; congruence).
    assert (Hlen := rmap_length' _ _ _ H).
    destruct (nth_error (Py.range (Py.len cs)) k) as [i|] eqn:Hi.
    2:{ apply nth_error_None in Hi. lia. }
    destruct (rmap_nth _ _ _ _ _ H Hi) as [row' [Hrow' Hr]].
    rewrite Hk in Hrow'. injection Hrow' as <-.
    apply rmap_length' in Hr. now rewrite range_len, length_map, length_seq in Hr.
Qed.

End EdgeBounds.

Section LiteFurther.
Variable W : services.
Variable ui : Lite.settings.

Lemma in_range_all_or_not n (p : route) :
  Forall (in_range n) p \/ Exists (fun i => ~ in_range n i) p.
Proof.
  induction p as [|i p [IH|IH]].
  - left. constructor.
  - destruct (Z_le_dec (- n) i) as [Hlo|Hlo]; [destruct (Z_lt_dec i n) as [Hhi|Hhi]|].
    + left. constructor; [split; assumption|exact IH].
    + right. left. unfold in_range. lia.
    + right. left. unfold in_range. lia.
  - right. now right.
Qed.

Lemma none_or_all_geocoded (cs : list (option coord)) :
  In None cs \/ Forall (fun c => c <> None) cs.
Proof.
  induction cs as [|[c|] cs [IH|IH]].
  - right. constructor.
  - left. now right.
  - right. constructor; [discriminate|exact IH].
  - left. now left.
  - left. now left.
Qed.

(** What the iteration does with the first route the solver returned. *)
Lemma lite_outcome_of_path stops m p ps :
  filter Lite.entered stops <> [] ->
  Lite.dist_matrix W (map (Lite.geocode_address W) (Lite.address_list ui stops)) = Val m ->
  solve_vrp W m 1 = SolveRoutes (p :: ps) ->
  let n := Py.len (Lite.address_list ui stops) in
  (Forall (in_range n) p ->
   exists en, lite_vehicle_outcome W ui stops = (Val en, [SolverCalled m 1])) /\
  (Exists (fun i => ~ in_range n i) p ->
   lite_vehicle_outcome W ui stops = (Exc IndexError, [SolverCalled m 1])).
Proof.
  intros Hstops Hm Hsolve n.
  assert (Hshape := dist_matrix_shape _ _ _ Hm). rewrite length_map in Hshape.
  destruct Hshape as [Hrows Hcols].
  assert (Hlen : Py.len m = n) by (unfold n, Py.len; now rewrite Hrows).
  assert (Hll : Py.len (Lite.label_list stops) = n)
    by (unfold n, Py.len; now rewrite (label_address_length ui)).
  unfold lite_vehicle_outcome.
  destruct (filter Lite.entered stops) as [|st0 rest] eqn:Hf; [congruence|].
  rewrite Hm, Hsolve. split.
  - intros Hp.
    destruct (edge_costs_in_range m p) as [costs ->].
    { intros row Hrow. rewrite Hrows. now apply Hcols. }
    { now rewrite Hlen. }
    destruct (rmap_getitem_in_range (Lite.label_list stops) p) as [labels ->];
      [now rewrite Hll|].
    destruct (rmap_getitem_in_range (Lite.address_list ui stops) p) as [addrs ->];
      [exact Hp|].
    cbn. eauto.
  - intros Hp.
    destruct (edge_costs m p) as [costs|e] eqn:Hc; cbn [rbind].
    + rewrite (rmap_getitem_out_of_range (Lite.label_list stops) p); [reflexivity|].
      now rewrite Hll.
    + apply edge_costs_raises in Hc. now subst.
Qed.

End LiteFurther.

(** X1. In Lite, when the solver returns a first route for the matrix of a
    vehicle, the iteration records the route if every node of the path is
    an index of the address list (a negative one counting from the end),
    and raises [IndexError], recording nothing, if some node is not. *)
Theorem lite_path_is_recorded_iff_in_range (W : services) (ui : Lite.settings) v s m p ps :
  filter Lite.entered (Lite.vehicle_stops s v) <> [] ->
  Lite.dist_matrix W (map (Lite.geocode_address W)
                        (Lite.address_list ui (Lite.vehicle_stops s v))) = Val m ->
  solve_vrp W m 1 = SolveRoutes (p :: ps) ->
  let n := Py.len (Lite.address_list ui (Lite.vehicle_stops s v)) in
  (Forall (fun i => - n <= i < n) p ->
   exists s', Lite.optimize_vehicle W ui v s = (Val tt, s') /\
              Py.len (Lite.route_stats s') = Py.len (Lite.route_stats s) + 1) /\
  (Exists (fun i => ~ (- n <= i < n)) p ->
   Lite.optimize_vehicle W ui v s =
     (Exc IndexError,
      Lite.mk_session (Lite.vehicle_stops s) (Lite.route_paths s) (Lite.route_addresses s)
                      (Lite.route_stats s) (Lite.events s ++ [SolverCalled m 1]))).
Proof.
  intros Hstops Hm Hsolve n.
  destruct (lite_outcome_of_path W ui _ m p ps Hstops Hm Hsolve) as [Hin Hout].
  split.
  - intros Hp. destruct (Hin Hp) as [[[labels addrs] st] Hen].
    rewrite optimize_vehicle_outcome, Hen. eexists. split; [reflexivity|].
    cbn. unfold Py.len. rewrite length_app. cbn. lia.
  - intros Hp. rewrite optimize_vehicle_outcome, (Hout Hp). reflexivity.
Qed.

Lemma lite_path_is_recorded_iff_in_range_witness :
  exists s',
    Lite.optimize_vehicle Demo.world Demo.lite_ui 1 Demo.lite_session = (Val tt, s') /\
    Py.len (Lite.route_stats s') = Py.len (Lite.route_stats Demo.lite_session) + 1.
Proof.
  apply (proj1 (lite_path_is_recorded_iff_in_range Demo.world Demo.lite_ui 1 Demo.lite_session
                  Demo.lite_matrix [0; 1; 2; 0] [] ltac:(vm_compute; discriminate)
                  ltac:(vm_compute; reflexivity) ltac:(vm_compute; reflexivity))).
  vm_compute. repeat constructor; discriminate.
Defined.

(** X2. An iteration of Lite's loop that raises leaves the three result
    lists and the stops as they were, and raises in one of three ways only:
    [TypeError] because an address of the list has no coordinates, the
    exception [solve_vrp] raised, or [IndexError] because the path the
    solver returned has a node that is not an index of the address list. *)
Theorem lite_iteration_raises_in_three_ways (W : services) (ui : Lite.settings) v s e s' :
  Lite.optimize_vehicle W ui v s = (Exc e, s') ->
  let stops := Lite.vehicle_stops s v in
  let coords := map (Lite.geocode_address W) (Lite.address_list ui stops) in
  (Lite.vehicle_stops s' = Lite.vehicle_stops s /\
   Lite.route_paths s' = Lite.route_paths s /\
   Lite.route_addresses s' = Lite.route_addresses s /\
   Lite.route_stats s' = Lite.route_stats s) /\
  ((e = TypeError /\ In None coords) \/
   (exists m, Lite.dist_matrix W coords = Val m /\ solve_vrp W m 1 = SolveRaises e) \/
   (e = IndexError /\
    exists m p ps,
      Lite.dist_matrix W coords = Val m /\ solve_vrp W m 1 = SolveRoutes (p :: ps) /\
      Exists (fun i => ~ (- Py.len (Lite.address_list ui stops) <= i
                          < Py.len (Lite.address_list ui stops))) p)).
Proof.
  intros Hrun stops coords. rewrite optimize_vehicle_outcome in Hrun.
  unfold lite_record in Hrun.
  destruct (fst (lite_vehicle_outcome W ui (Lite.vehicle_stops s v))) as [[[? ?] ?]|e0] eqn:Hout;
    [discriminate|].
  injection Hrun as <- <-. split; [repeat split|].
  fold stops in Hout.
  destruct (filter Lite.entered stops) as [|st0 rest] eqn:Hf.
  { unfold lite_vehicle_outcome in Hout. rewrite Hf in Hout. discriminate. }
  assert (Hstops : filter Lite.entered stops <> []) by congruence.
  destruct (Lite.dist_matrix W coords) as [m|e1] eqn:Hm.
  - destruct (solve_vrp W m 1) as [e1| |[|p ps]] eqn:Hsolve.
    + right. left. exists m. split; [reflexivity|].
      unfold lite_vehicle_outcome in Hout. fold coords in Hout.
      rewrite Hf, Hm, Hsolve in Hout. cbn in Hout. congruence.
    + unfold lite_vehicle_outcome in Hout. fold coords in Hout.
      rewrite Hf, Hm, Hsolve in Hout. discriminate.
    + unfold lite_vehicle_outcome in Hout. fold coords in Hout.
      rewrite Hf, Hm, Hsolve in Hout. discriminate.
    + right. right.
      destruct (lite_outcome_of_path W ui stops m p ps Hstops Hm Hsolve) as [Hin Hbad].
      destruct (in_range_all_or_not (Py.len (Lite.address_list ui stops)) p) as [Hp|Hp].
      * destruct (Hin Hp) as [en Hen]. rewrite Hen in Hout. discriminate.
      * rewrite (Hbad Hp) in Hout. cbn in Hout. injection Hout as <-.
        split; [reflexivity|]. exists m, p, ps.
        split; [reflexivity|split; [exact Hsolve|exact Hp]].
  - left. unfold lite_vehicle_outcome in Hout. fold coords in Hout.
    rewrite Hf, Hm in Hout. cbn in Hout. injection Hout as <-.
    assert (He : e1 = TypeError) by (eapply dist_matrix_raises; eauto). subst e1.
    split; [reflexivity|].
    destruct (none_or_all_geocoded coords) as [Hnone|Hall]; [exact Hnone|].
    destruct (dist_matrix_all_geocoded W coords Hall) as [m' Hm']. congruence.
Qed.

Lemma lite_iteration_raises_in_three_ways_witness :
  let coords := map (Lite.geocode_address Demo.world)
                    (Lite.address_list Demo.lite_ui (Lite.vehicle_stops Demo.lost_session 1)) in
  (TypeError = TypeError /\ In None coords) \/
  (exists m, Lite.dist_matrix Demo.world coords = Val m /\
             solve_vrp Demo.world m 1 = SolveRaises TypeError) \/
  (TypeError = IndexError /\
   exists m p ps,
     Lite.dist_matrix Demo.world coords = Val m /\ solve_vrp Demo.world m 1 = SolveRoutes (p :: ps) /\
     Exists (fun i => ~ (- Py.len (Lite.address_list Demo.lite_ui
                                     (Lite.vehicle_stops Demo.lost_session 1)) <= i
                         < Py.len (Lite.address_list Demo.lite_ui
                                     (Lite.vehicle_stops Demo.lost_session 1)))) p).
Proof.
  exact (proj2 (lite_iteration_raises_in_three_ways Demo.world Demo.lite_ui 1 Demo.lost_session
                  TypeError Demo.lost_session ltac:(vm_compute; reflexivity))).
Defined.

Section RunFacts.

Lemma range2_length a b : List.length (Py.range2 a b) = Z.to_nat (b - a).
Proof. unfold Py.range2, Py.range. now rewrite !length_map, length_seq. Qed.

Lemma entries_of_length os :
  match first_exception os with
  | None => List.length (entries_of os) = List.length os
  | Some _ => (List.length (entries_of os) < List.length os)%nat
  end.
Proof.
  induction os as [|[[en|e] evs] os IH]; cbn; [reflexivity| |lia].
  destruct (first_exception os); lia.
Qed.

Lemma fleet_outcomes_stops W ui s s' :
  Lite.vehicle_stops s' = Lite.vehicle_stops s -> fleet_outcomes W ui s' = fleet_outcomes W ui s.
Proof. unfold fleet_outcomes. now intros ->. Qed.

Lemma lite_outcome_lengths W ui stops labels addresses st evs :
  lite_vehicle_outcome W ui stops = (Val (labels, addresses, st), evs) ->
  List.length labels = List.length addresses.
Proof.
  unfold lite_vehicle_outcome. intros Hen.
  destruct (filter Lite.entered stops); [now injection Hen as <- <- _|].
  destruct (Lite.dist_matrix _ _) as [m|e]; [|discriminate].
  destruct (solve_vrp W m 1) as [e| |[|p ps]];
    try discriminate; try (now injection Hen as <- <- _).
  destruct (edge_costs m p); cbn [rbind] in Hen; [|discriminate].
  destruct (rmap (Py.getitem (Lite.label_list _)) p) as [ls|] eqn:Hl;
    cbn [rbind] in Hen; [|discriminate].
  destruct (rmap (Py.getitem (Lite.address_list _ _)) p) as [ads|] eqn:Ha;
    cbn [rbind] in Hen; [|discriminate].
  injection Hen as <- <- _.
  apply rmap_length' in Hl, Ha. congruence.
Qed.

(** The entries a completed run leaves for vehicle [v]. *)
Lemma completed_run_entry W ui s s' v :
  Lite.optimize_now W ui s = (Val tt, s') ->
  1 <= v <= Lite.num_vehicles ui ->
  exists labels addresses st,
    fst (lite_vehicle_outcome W ui (Lite.vehicle_stops s v)) = Val (labels, addresses, st) /\
    nth_error (Lite.route_paths s') (Z.to_nat (v - 1)) = Some labels /\
    nth_error (Lite.route_addresses s') (Z.to_nat (v - 1)) = Some addresses /\
    nth_error (Lite.route_stats s') (Z.to_nat (v - 1)) = Some st /\
    List.length labels = List.length addresses.
Proof.
  intros Hrun Hv. rewrite optimize_now_closed in Hrun. cbv zeta in Hrun.
  destruct (first_exception (fleet_outcomes W ui s)) eqn:Hnone; [discriminate|].
  injection Hrun as <-.
  destruct (entries_of_nth (fleet_outcomes W ui s) (Z.to_nat (v - 1))
              (lite_vehicle_outcome W ui (Lite.vehicle_stops s v)) Hnone)
    as [[[labels addrs] st] [Hen Hnth]].
  { unfold fleet_outcomes. rewrite nth_error_map, range2_nth by lia. reflexivity. }
  exists labels, addrs, st. split; [exact Hen|].
  cbn [Lite.route_paths Lite.route_addresses Lite.route_stats].
  unfold lite_entry in *. rewrite !nth_error_map, Hnth. repeat split.
  destruct (lite_vehicle_outcome W ui (Lite.vehicle_stops s v)) as [o evs] eqn:Ho.
  cbn [fst] in Hen. subst o. exact (lite_outcome_lengths _ _ _ _ _ _ _ Ho).
Qed.

End RunFacts.

(** X3. After a run of Lite's handler the three result lists have the
    same length; it is the number of vehicles when the run completed and
    less when it raised: the test [len(route_paths) == num_vehicles] that
    opens the dashboard holds exactly after a completed run. *)
Theorem lite_lists_are_full_iff_run_completed (W : services) (ui : Lite.settings) s :
  0 <= Lite.num_vehicles ui ->
  let r := Lite.optimize_now W ui s in
  List.length (Lite.route_addresses (snd r)) = List.length (Lite.route_paths (snd r)) /\
  List.length (Lite.route_stats (snd r)) = List.length (Lite.route_paths (snd r)) /\
  (fst r = Val tt -> Py.len (Lite.route_paths (snd r)) = Lite.num_vehicles ui) /\
  (forall e, fst r = Exc e -> Py.len (Lite.route_paths (snd r)) < Lite.num_vehicles ui).
Proof.
  intros Hn r. unfold r. rewrite optimize_now_closed. cbv zeta.
  assert (Hlen := entries_of_length (fleet_outcomes W ui s)).
  assert (Hos : List.length (fleet_outcomes W ui s) = Z.to_nat (Lite.num_vehicles ui)).
  { unfold fleet_outcomes. rewrite length_map, range2_length. f_equal. lia. }
  destruct (first_exception (fleet_outcomes W ui s));
    cbn [fst snd Lite.route_paths Lite.route_addresses Lite.route_stats]; unfold Py.len;
    rewrite !length_map; unfold lite_entry in *; repeat split; try discriminate; intros; lia.
Qed.

Lemma lite_lists_are_full_iff_run_completed_witness :
  Py.len (Lite.route_paths (snd (Lite.optimize_now Demo.world Demo.lite_ui Demo.lite_session))) = 2 /\
  Py.len (Lite.route_paths (snd (Lite.optimize_now Demo.world Demo.lite_ui Demo.lost_session))) < 2.
Proof.
  destruct (lite_lists_are_full_iff_run_completed Demo.world Demo.lite_ui Demo.lite_session
              ltac:(vm_compute; discriminate)) as [_ [_ [Hfull _]]].
  destruct (lite_lists_are_full_iff_run_completed Demo.world Demo.lite_ui Demo.lost_session
              ltac:(vm_compute; discriminate)) as [_ [_ [_ Hless]]].
  split; [apply Hfull; vm_compute; reflexivity|].
  apply (Hless TypeError). vm_compute. reflexivity.
Defined.

(** X4. After a completed run of Lite's handler, the entries at position
    [v - 1] of the three lists are the ones the iteration for vehicle [v]
    appends; the labels and the addresses of an entry are equally many. *)
Theorem lite_results_follow_the_vehicles (W : services) (ui : Lite.settings) s s' v :
  Lite.optimize_now W ui s = (Val tt, s') ->
  1 <= v <= Lite.num_vehicles ui ->
  exists s1 labels addresses st,
    Lite.optimize_vehicle W ui v s = (Val tt, s1) /\
    Lite.route_paths s1 = (Lite.route_paths s ++ [labels])%list /\
    Lite.route_addresses s1 = (Lite.route_addresses s ++ [addresses])%list /\
    Lite.route_stats s1 = (Lite.route_stats s ++ [st])%list /\
    nth_error (Lite.route_paths s') (Z.to_nat (v - 1)) = Some labels /\
    nth_error (Lite.route_addresses s') (Z.to_nat (v - 1)) = Some addresses /\
    nth_error (Lite.route_stats s') (Z.to_nat (v - 1)) = Some st /\
    List.length labels = List.length addresses.
Proof.
  intros Hrun Hv.
  destruct (completed_run_entry W ui s s' v Hrun Hv)
    as [labels [addrs [st [Hen [Hp [Ha [Hs Hlen]]]]]]].
  eexists _, labels, addrs, st.
  split; [rewrite optimize_vehicle_outcome; unfold lite_record; rewrite Hen; reflexivity|].
  cbn [Lite.route_paths Lite.route_addresses Lite.route_stats]. repeat split; assumption.
Qed.

Lemma lite_results_follow_the_vehicles_witness :
  exists s1 labels addresses st,
    Lite.optimize_vehicle Demo.world Demo.lite_ui 1 Demo.lite_session = (Val tt, s1) /\
    Lite.route_paths s1 = ([] ++ [labels])%list /\
    Lite.route_addresses s1 = ([] ++ [addresses])%list /\
    Lite.route_stats s1 = ([] ++ [st])%list /\
    nth_error (Lite.route_paths
                 (snd (Lite.optimize_now Demo.world Demo.lite_ui Demo.lite_session)))
              (Z.to_nat (1 - 1)) = Some labels /\
    nth_error (Lite.route_addresses
                 (snd (Lite.optimize_now Demo.world Demo.lite_ui Demo.lite_session)))
              (Z.to_nat (1 - 1)) = Some addresses /\
    nth_error (Lite.route_stats
                 (snd (Lite.optimize_now Demo.world Demo.lite_ui Demo.lite_session)))
              (Z.to_nat (1 - 1)) = Some st /\
    List.length labels = List.length addresses.
Proof.
  apply (lite_results_follow_the_vehicles Demo.world Demo.lite_ui Demo.lite_session
           (snd (Lite.optimize_now Demo.world Demo.lite_ui Demo.lite_session)) 1).
  - vm_compute. reflexivity.
  - vm_compute. split; discriminate.
Defined.

(** X5. Running Lite's handler again on the session a run left gives the
    same result and the same three lists: entries do not pile up, whatever
    the first run left there and whether it completed or raised. *)
Theorem lite_second_run_gives_the_same_lists (W : services) (ui : Lite.settings) s :
  let r1 := Lite.optimize_now W ui s in
  let r2 := Lite.optimize_now W ui (snd r1) in
  fst r2 = fst r1 /\
  Lite.route_paths (snd r2) = Lite.route_paths (snd r1) /\
  Lite.route_addresses (snd r2) = Lite.route_addresses (snd r1) /\
  Lite.route_stats (snd r2) = Lite.route_stats (snd r1) /\
  Lite.vehicle_stops (snd r2) = Lite.vehicle_stops s.
Proof.
  cbv zeta. rewrite (optimize_now_closed W ui (snd (Lite.optimize_now W ui s))).
  assert (Hs : Lite.vehicle_stops (snd (Lite.optimize_now W ui s)) = Lite.vehicle_stops s).
  { rewrite optimize_now_closed. cbv zeta.
    destruct (first_exception (fleet_outcomes W ui s)); reflexivity. }
  cbv zeta. rewrite (fleet_outcomes_stops W ui s _ Hs), Hs.
  rewrite (optimize_now_closed W ui s). cbv zeta.
  destruct (first_exception (fleet_outcomes W ui s)); cbn; repeat split.
Qed.



Section ProMetrics.
Variable W : services.
Variable ui : Pro.settings.

Lemma dict_set_in {V : Type} (d : list (string * V)) k v kv :
  In kv (Pro.dict_set d k v) -> In kv d \/ kv = (k, v).
Proof.
  induction d as [|[k' v'] d IH]; cbn.
  - intros [<-|[]]. now right.
  - destruct (String.eqb_spec k' k) as [->|Hne]; cbn.
    + intros [<-|H]; [now right|now left; right].
    + intros [<-|H]; [now left; left|]. destruct (IH H); [left; now right|now right].
Qed.

Lemma store_all_in d kvs kv : In kv (store_all d kvs) -> In kv d \/ In kv kvs.
Proof.
  unfold store_all. revert d. induction kvs as [|[k v] kvs IH]; cbn; intros d H; [now left|].
  destruct (IH _ H) as [Hd|Hk]; [|now right; right].
  destruct (dict_set_in _ _ _ _ Hd) as [Hd'|Heq]; [now left|right; left; now rewrite Heq].
Qed.

Lemma stored_of_in os kv : In kv (stored_of os) -> exists evs, In (Val (Some kv), evs) os.
Proof.
  induction os as [|[[[kv'|]|e] evs] os IH]; cbn; try contradiction.
  - intros [<-|H]; [exists evs; now left|]. destruct (IH H) as [evs' H']. exists evs'. now right.
  - intros H. destruct (IH H) as [evs' H']. exists evs'. now right.
Qed.

Lemma dict_get_set_same {V : Type} (d : list (string * V)) k v :
  dict_get (Pro.dict_set d k v) k = Val v.
Proof.
  induction d as [|[k' v'] d IH]; cbn.
  - now rewrite String.eqb_refl.
  - destruct (String.eqb_spec k' k) as [->|Hne]; cbn.
    + now rewrite String.eqb_refl.
    + destruct (String.eqb_spec k' k); [contradiction|exact IH].
Qed.

Lemma dict_get_set_other {V : Type} (d : list (string * V)) k v k' :
  k <> k' -> dict_get (Pro.dict_set d k v) k' = dict_get d k'.
Proof.
  intros Hne. induction d as [|[k0 v0] d IH]; cbn.
  - destruct (String.eqb_spec k k'); [contradiction|reflexivity].
  - destruct (String.eqb_spec k0 k) as [->|Hne0]; cbn.
    + destruct (String.eqb_spec k k'); [contradiction|reflexivity].
    + destruct (String.eqb_spec k0 k'); [reflexivity|exact IH].
Qed.

(** The metric an outcome stores is under the name of its route. *)
Lemma pro_outcome_key item k mt :
  fst (pro_route_outcome W ui item) = Val (Some (k, mt)) -> k = fst item.
Proof.
  unfold pro_route_outcome.
  destruct (filter Pro.entered (snd item)); [discriminate|].
  destruct (Pro.get_distance_matrix W _) as [m|]; [|discriminate].
  destruct (solve_vrp W m 1) as [| |[|p ps]]; try discriminate. cbn [fst].
  destruct (rmap _ p); cbn [rbind]; [|discriminate].
  destruct (edge_costs m p); cbn [rbind]; [|discriminate].
  now intros [= <- _].
Qed.

(** With one entry per name, the entry of a name after the loop is the
    one its own iteration stored. *)
Lemma stored_lookup items d name stops :
  NoDup (map fst items) ->
  first_exception (map (pro_route_outcome W ui) items) = None ->
  In (name, stops) items ->
  dict_get (store_all d (stored_of (map (pro_route_outcome W ui) items))) name =
  match fst (pro_route_outcome W ui (name, stops)) with
  | Val (Some (_, mt)) => Val mt
  | _ => dict_get d name
  end.
Proof.
  assert (Hfresh : forall items d,
             ~ In name (map fst items) ->
             dict_get (store_all d (stored_of (map (pro_route_outcome W ui) items))) name =
             dict_get d name).
  { clear. intros items. induction items as [|item items IH]; intros d Hnot; [reflexivity|].
    cbn [map stored_of] in *.
    destruct (pro_route_outcome W ui item) as [[[[k mt]|]|e] evs] eqn:Ho.
    - unfold store_all. cbn [fold_left fst snd]. fold (store_all (Pro.dict_set d k mt)
        (stored_of (map (pro_route_outcome W ui) items))).
      rewrite IH by (intros H; apply Hnot; now right).
      apply dict_get_set_other.
      assert (Hk : k = fst item) by (apply (pro_outcome_key item k mt); now rewrite Ho).
      intros ->. apply Hnot. now left.
    - apply IH. intros H; apply Hnot; now right.
    - reflexivity. }
  revert d. induction items as [|item items IH]; intros d Hnd Hnone Hin; [contradiction|].
  cbn [map] in Hnd. apply NoDup_cons_iff in Hnd as [Hhd Hnd].
  cbn [map stored_of first_exception] in *.
  destruct Hin as [->|Hin].
  - destruct (pro_route_outcome W ui (name, stops)) as [[[[k mt]|]|e] evs] eqn:Ho;
      cbn [fst snd] in *.
    + unfold store_all. cbn [fold_left fst snd]. fold (store_all (Pro.dict_set d k mt)
        (stored_of (map (pro_route_outcome W ui) items))).
      rewrite Hfresh by exact Hhd.
      assert (Hk : k = name) by (apply (pro_outcome_key (name, stops) k mt); now rewrite Ho).
      subst k. apply dict_get_set_same.
    + apply Hfresh. exact Hhd.
    + discriminate.
  - assert (Hne : fst item <> name).
    { intros Heq. apply Hhd. rewrite Heq. apply (in_map fst _ _ Hin). }
    destruct (pro_route_outcome W ui item) as [[[[k mt]|]|e] evs] eqn:Ho; cbn [fst snd] in *.
    + unfold store_all. cbn [fold_left fst snd]. fold (store_all (Pro.dict_set d k mt)
        (stored_of (map (pro_route_outcome W ui) items))).
      rewrite IH by assumption.
      assert (Hk : k = fst item) by (apply (pro_outcome_key item k mt); now rewrite Ho).
      destruct (fst (pro_route_outcome W ui (name, stops))) as [[[? ?]|]|]; try reflexivity;
        apply dict_get_set_other; congruence.
    + apply IH; assumption.
    + discriminate.
Qed.

End ProMetrics.

(** X7. When the depot geocodes, every metric a run of Pro's handler
    leaves was stored by this run, for a route of the session that has an
    entered stop, whose matrix was built and solved: whatever the metrics
    held before is gone.  The metric's path, distance, cost and duration
    are those of the first route the solver returned. *)
Theorem pro_metrics_come_from_solved_routes (W : services) (ui : Pro.settings) s k mt :
  Pro.geocode W (Pro.depot_address ui) <> None ->
  In (k, mt) (Pro.metrics (snd (Pro.optimize_now W ui s))) ->
  exists stops m p ps ordered costs,
    In (k, stops) (Pro.routes s) /\
    filter Pro.entered stops <> [] /\
    Pro.get_distance_matrix W (Pro.addresses_of ui stops) = Val m /\
    solve_vrp W m 1 = SolveRoutes (p :: ps) /\
    rmap (Py.getitem (Pro.addresses_of ui stops)) p = Val ordered /\
    edge_costs m p = Val costs /\
    mt = Pro.mk_metric ordered (Py.round (Py.sum costs) 2)
           (Py.round (Py.sum costs * Pro.fuel_cost ui)%float 2)
           (Py.round (Py.sum costs / 40 * 60)%float 1).
Proof.
  intros Hdepot Hin. rewrite pro_optimize_now_closed in Hin.
  destruct (Pro.geocode W (Pro.depot_address ui)); [|congruence]. cbv zeta in Hin.
  assert (Hst : In (k, mt) (stored_of (map (pro_route_outcome W ui) (Pro.routes s)))).
  { destruct (first_exception _); cbn [snd Pro.metrics] in Hin;
      destruct (store_all_in _ _ _ Hin) as [[]|H]; exact H. }
  destruct (stored_of_in _ _ Hst) as [evs Ho].
  apply in_map_iff in Ho as [[name stops] [Ho Hitem]].
  assert (Hk : k = name).
  { apply (pro_outcome_key W ui (name, stops) k mt). now rewrite Ho. }
  subst k. unfold pro_route_outcome in Ho. cbn [fst snd] in Ho.
  destruct (filter Pro.entered stops) as [|st0 rest] eqn:Hf; [discriminate|].
  destruct (Pro.get_distance_matrix W _) as [m|] eqn:Hm; [|discriminate].
  destruct (solve_vrp W m 1) as [| |[|p ps]] eqn:Hsolve; try discriminate.
  destruct (rmap _ p) as [ordered|] eqn:Hord; cbn [rbind] in Ho; [|discriminate].
  destruct (edge_costs m p) as [costs|] eqn:Hc; cbn [rbind] in Ho; [|discriminate].
  injection Ho as <- _.
  exists stops, m, p, ps, ordered, costs.
  split; [exact Hitem|]. split; [rewrite Hf; discriminate|]. repeat split; assumption.
Qed.

Lemma pro_metrics_come_from_solved_routes_witness :
  exists stops m p ps ordered costs,
    In ("Route 1", stops) (Pro.routes Demo.pro_session) /\
    filter Pro.entered stops <> [] /\
    Pro.get_distance_matrix Demo.world (Pro.addresses_of Demo.pro_ui stops) = Val m /\
    solve_vrp Demo.world m 1 = SolveRoutes (p :: ps) /\
    rmap (Py.getitem (Pro.addresses_of Demo.pro_ui stops)) p = Val ordered /\
    edge_costs m p = Val costs /\
    snd (hd ("", Pro.mk_metric [] 0 0 0)
            (Pro.metrics (snd (Pro.optimize_now Demo.world Demo.pro_ui Demo.pro_session)))) =
    Pro.mk_metric ordered (Py.round (Py.sum costs) 2)
      (Py.round (Py.sum costs * Pro.fuel_cost Demo.pro_ui)%float 2)
      (Py.round (Py.sum costs / 40 * 60)%float 1).
Proof.
  apply (pro_metrics_come_from_solved_routes Demo.world Demo.pro_ui Demo.pro_session "Route 1").
  - vm_compute. discriminate.
  - vm_compute. left. reflexivity.
Defined.

(** X8. After a completed run of Pro's handler over routes with different
    names, the metrics hold for every route of the session what the
    iteration for this route alone stores, and nothing when it stores
    nothing: the entry of a route does not depend on the other routes. *)
Theorem pro_metric_of_a_route_is_its_own (W : services) (ui : Pro.settings) s s' name stops :
  NoDup (map fst (Pro.routes s)) ->
  Pro.optimize_now W ui s = (Val tt, s') ->
  In (name, stops) (Pro.routes s) ->
  dict_get (Pro.metrics s') name =
  dict_get (Pro.metrics (snd (Pro.optimize_route W ui (name, stops)
                                (Pro.mk_session (Pro.routes s) [] (Pro.events s))))) name.
Proof.
  intros Hnd Hrun Hin. rewrite pro_optimize_now_closed in Hrun.
  destruct (Pro.geocode W (Pro.depot_address ui)); [|discriminate]. cbv zeta in Hrun.
  destruct (first_exception _) eqn:Hnone; [discriminate|]. injection Hrun as <-.
  cbn [Pro.metrics]. rewrite (stored_lookup W ui _ _ name stops Hnd Hnone Hin).
  rewrite optimize_route_outcome. unfold pro_record.
  destruct (fst (pro_route_outcome W ui (name, stops))) as [[[k mt]|]|e] eqn:Ho;
    cbn [snd Pro.metrics Pro.dict_set dict_get]; try reflexivity.
  apply pro_outcome_key in Ho. cbn [fst] in Ho. subst k.
  now rewrite String.eqb_refl.
Qed.

Lemma pro_metric_of_a_route_is_its_own_witness :
  let stops := [Pro.mk_stop "Stanley Park" "9:00-11:00" 6 "Alice";
                Pro.mk_stop "UBC Vancouver" "11:00-13:00" 9 "Alice"] in
  map fst (Pro.metrics (snd (Pro.optimize_now Demo.world Demo.pro_ui Demo.two_routes)))
    = ["Route 1"; "Route 2"] /\
  dict_get (Pro.metrics (snd (Pro.optimize_now Demo.world Demo.pro_ui Demo.two_routes)))
           "Route 2" =
  dict_get (Pro.metrics
              (snd (Pro.optimize_route Demo.world Demo.pro_ui ("Route 2", stops)
                      (Pro.mk_session (Pro.routes Demo.two_routes) []
                                      (Pro.events Demo.two_routes)))))
           "Route 2".
Proof.
  cbv zeta. split; [vm_compute; reflexivity|].
  apply (pro_metric_of_a_route_is_its_own Demo.world Demo.pro_ui Demo.two_routes
           (snd (Pro.optimize_now Demo.world Demo.pro_ui Demo.two_routes))).
  - vm_compute. repeat constructor; cbn; intuition discriminate.
  - vm_compute. reflexivity.
  - vm_compute. right. left. reflexivity.
Defined.

(** X9. An iteration of Pro's loop raises in two ways only: the call for
    the distance matrix raised (the provider's exception, or [KeyError]
    for an element without a distance), or the solver returned a first
    route with an index that is no position of the address list or of the
    matrix, which is an [IndexError].  What the solver raises never
    leaves the iteration.  The routes and the metrics are as before. *)
Theorem pro_iteration_raises_in_two_ways (W : services) (ui : Pro.settings) item s e s' :
  Pro.optimize_route W ui item s = (Exc e, s') ->
  Pro.routes s' = Pro.routes s /\ Pro.metrics s' = Pro.metrics s /\
  ((Pro.get_distance_matrix W (Pro.addresses_of ui (snd item)) = Exc e /\
    Pro.events s' = Pro.events s) \/
   (e = IndexError /\
    exists m p ps,
      Pro.get_distance_matrix W (Pro.addresses_of ui (snd item)) = Val m /\
      solve_vrp W m 1 = SolveRoutes (p :: ps) /\
      Pro.events s' = (Pro.events s ++ [SolverCalled m 1])%list /\
      (Exists (fun i => ~ (- Py.len (Pro.addresses_of ui (snd item)) <= i
                           < Py.len (Pro.addresses_of ui (snd item)))) p \/
       edge_costs m p = Exc IndexError))).
Proof.
  rewrite optimize_route_outcome. unfold pro_record, pro_route_outcome.
  destruct (filter Pro.entered (snd item)); cbn [fst snd]; [discriminate|].
  destruct (Pro.get_distance_matrix W _) as [m|e0] eqn:Hm; cbn [fst snd].
  2:{ intros [= <- <-]. cbn. rewrite app_nil_r. auto. }
  destruct (solve_vrp W m 1) as [| |[|p ps]] eqn:Hsolve; cbn [fst snd]; try discriminate.
  destruct (rmap (Py.getitem _) p) as [ordered|e1] eqn:Hord; cbn [rbind].
  - destruct (edge_costs m p) as [costs|e2] eqn:Hc; cbn [rbind]; [discriminate|].
    intros [= <- <-]. cbn. split; [reflexivity|split; [reflexivity|right]].
    assert (e2 = IndexError) by (eapply edge_costs_raises; eassumption). subst e2.
    split; [reflexivity|]. exists m, p, ps. auto.
  - intros [= <- <-]. cbn. split; [reflexivity|split; [reflexivity|right]].
    destruct (in_range_all_or_not (Py.len (Pro.addresses_of ui (snd item))) p) as [Hall|Hex];
      unfold in_range in *.
    + destruct (rmap_getitem_in_range _ _ Hall) as [ys Hys]. congruence.
    + assert (e1 = IndexError).
      { assert (Hx := rmap_getitem_out_of_range _ _ Hex). congruence. }
      subst e1. split; [reflexivity|]. exists m, p, ps. auto.
Qed.

Lemma pro_iteration_raises_in_two_ways_witness :
  let item := ("Route 1", [Pro.mk_stop "BCIT Burnaby" "9:00-11:00" 12 "Alice"]) in
  Pro.get_distance_matrix Demo.no_route_world (Pro.addresses_of Demo.pro_ui (snd item))
    = Exc KeyError /\
  Pro.metrics (snd (Pro.optimize_route Demo.no_route_world Demo.pro_ui item Demo.pro_session))
    = Pro.metrics Demo.pro_session.
Proof.
  cbv zeta.
  destruct (pro_iteration_raises_in_two_ways Demo.no_route_world Demo.pro_ui
              ("Route 1", [Pro.mk_stop "BCIT Burnaby" "9:00-11:00" 12 "Alice"])
              Demo.pro_session KeyError
              (snd (Pro.optimize_route Demo.no_route_world Demo.pro_ui
                      ("Route 1", [Pro.mk_stop "BCIT Burnaby" "9:00-11:00" 12 "Alice"])
                      Demo.pro_session)))
    as [_ [Hmetrics _]].
  - vm_compute. reflexivity.
  - split; [vm_compute; reflexivity|exact Hmetrics].
Defined.

(** * Lite's dashboard *)

Section DashboardFacts.
Context {A B : Type}.

Lemma rmap_all_val (f : A -> res B) l :
  (forall x, In x l -> exists y, f x = Val y) -> exists ys, rmap f l = Val ys.
Proof.
  induction l as [|a l IH]; intros H; [cbn; eauto|].
  destruct (H a (or_introl eq_refl)) as [y Hy].
  destruct IH as [ys Hys]; [intros x Hx; apply H; now right|].
  cbn. rewrite Hy, Hys. cbn. eauto.
Qed.

Lemma rmap_val_in (f : A -> res B) l ys y :
  rmap f l = Val ys -> In y ys -> exists x, In x l /\ f x = Val y.
Proof.
  revert ys. induction l as [|a l IH]; cbn; intros ys H Hin.
  - injection H as <-. contradiction.
  - destruct (f a) as [b|] eqn:Hb; cbn in H; [|discriminate].
    destruct (rmap f l) as [bs|]; cbn in H; [|discriminate].
    injection H as <-. destruct Hin as [<-|Hin]; [eauto|].
    destruct (IH bs eq_refl Hin) as [x [Hx Hfx]]. eauto.
Qed.

Lemma getitem_val_in (l : list A) i x : Py.getitem l i = Val x -> In x l.
Proof.
  unfold Py.getitem. destruct (_ <? 0); [discriminate|].
  destruct (nth_error l _) eqn:Hn; [|discriminate].
  intros [= <-]. eapply nth_error_In. exact Hn.
Qed.

Lemma getitem_pred (l : list A) v x :
  1 <= v -> nth_error l (Z.to_nat (v - 1)) = Some x -> Py.getitem l (v - 1) = Val x.
Proof.
  intros Hv H. replace (v - 1) with (Z.of_nat (Z.to_nat (v - 1))) by lia.
  now rewrite getitem_nat, H.
Qed.

End DashboardFacts.

Section Dashboard.
Variable W : services.
Variable gmaps_directions : directions_request -> directions_reply.
Variable names : Z -> option string.

Lemma color_of_vehicle v :
  exists c, Py.getitem LiteDashboard.colors ((v - 1) mod Py.len LiteDashboard.colors) = Val c.
Proof.
  apply getitem_in_range.
  assert (H : Py.len LiteDashboard.colors = 10) by reflexivity. rewrite H.
  assert (H' := Z.mod_pos_bound (v - 1) 10 ltac:(lia)). lia.
Qed.

Lemma dashboard_total ui s :
  List.length (Lite.route_addresses s) = List.length (Lite.route_paths s) ->
  List.length (Lite.route_stats s) = List.length (Lite.route_paths s) ->
  exists items, LiteDashboard.dashboard W gmaps_directions ui names s = Val items.
Proof.
  intros Ha Hs. unfold LiteDashboard.dashboard.
  destruct (Z.eqb_spec (Py.len (Lite.route_paths s)) (Lite.num_vehicles ui)) as [Hn|]; [|eauto].
  assert (Hget : forall (X : Type) (l : list X) v,
             List.length l = List.length (Lite.route_paths s) ->
             In v (Py.range2 1 (Lite.num_vehicles ui + 1)) ->
             exists x, Py.getitem l (v - 1) = Val x).
  { intros X l v Hl Hv. apply range2_in in Hv. apply getitem_in_range.
    unfold Py.len in *. lia. }
  destruct (rmap_all_val (LiteDashboard.map_items W gmaps_directions names s)
              (Py.range2 1 (Lite.num_vehicles ui + 1))) as [on_map Hmap].
  { intros v Hv. unfold LiteDashboard.map_items.
    destruct (Hget _ (Lite.route_paths s) v eq_refl Hv) as [labels ->].
    destruct (Hget _ (Lite.route_addresses s) v Ha Hv) as [addrs ->]. cbn [rbind].
    destruct addrs; [eauto|]. destruct (color_of_vehicle v) as [c ->]. cbn [rbind]. eauto. }
  destruct (rmap_all_val (LiteDashboard.info_items names s)
              (Py.range2 1 (Lite.num_vehicles ui + 1))) as [on_right Hright].
  { intros v Hv. unfold LiteDashboard.info_items.
    destruct (Hget _ (Lite.route_paths s) v eq_refl Hv) as [labels ->].
    destruct (Hget _ (Lite.route_stats s) v Hs Hv) as [st ->]. cbn [rbind].
    destruct labels; eauto. }
  rewrite Hmap, Hright. cbn [rbind]. eauto.
Qed.

(** The addresses of a recorded route have coordinates. *)
Lemma lite_outcome_geocoded ui stops labels addresses st evs :
  lite_vehicle_outcome W ui stops = (Val (labels, addresses, st), evs) ->
  Forall (fun a => Lite.geocode_address W a <> None) addresses.
Proof.
  unfold lite_vehicle_outcome. intros Hen.
  destruct (filter Lite.entered stops) as [|st0 rest] eqn:Hf;
    [injection Hen as _ <- _; constructor|].
  destruct (Lite.dist_matrix _ _) as [m|e] eqn:Hm; [|discriminate].
  assert (Hall : Forall (fun c => c <> None)
                   (map (Lite.geocode_address W) (Lite.address_list ui stops))).
  { destruct (none_or_all_geocoded (map (Lite.geocode_address W) (Lite.address_list ui stops)))
      as [Hnone|Hall]; [|exact Hall].
    rewrite dist_matrix_missing in Hm; [discriminate| |exact Hnone].
    rewrite length_map. unfold Lite.address_list. rewrite Hf. cbn. lia. }
  destruct (solve_vrp W m 1) as [e| |[|p ps]];
    try discriminate; try (injection Hen as _ <- _; constructor).
  destruct (edge_costs m p); cbn [rbind] in Hen; [|discriminate].
  destruct (rmap (Py.getitem (Lite.label_list _)) p) as [ls|]; cbn [rbind] in Hen; [|discriminate].
  destruct (rmap (Py.getitem (Lite.address_list _ _)) p) as [ads|] eqn:Ha;
    cbn [rbind] in Hen; [|discriminate].
  injection Hen as _ <- _.
  apply Forall_forall. intros addr Hin.
  destruct (rmap_val_in _ _ _ _ Ha Hin) as [i [_ Hi]]. apply getitem_val_in in Hi.
  rewrite Forall_forall in Hall. apply Hall. now apply in_map.
Qed.

Lemma popups_markers (labels : list string) (addresses : list string) color :
  List.length labels = List.length addresses ->
  Forall (fun a => Lite.geocode_address W a <> None) addresses ->
  popups (flat_map (fun lc : string * option coord =>
                      match snd lc with
                      | Some c => [LiteDashboard.CircleMarker c (fst lc) color]
                      | None => []
                      end)
                   (combine labels (map (Lite.geocode_address W) addresses))) = labels.
Proof.
  revert addresses. induction labels as [|l labels IH]; intros [|a addresses] Hlen Hall;
    try discriminate; [reflexivity|].
  inversion Hall as [|? ? Ha Hrest]; subst. cbn [map combine flat_map snd fst].
  destruct (Lite.geocode_address W a); [|congruence].
  cbn. f_equal. apply IH; [now injection Hlen|exact Hrest].
Qed.

End Dashboard.

(** X10. Lite's dashboard never raises on the session a run of the handler
    leaves, whether the run completed or raised and whatever the slider
    shows by then: the lists it indexes are equally long.  After a run that
    raised, with the slider as it was, the dashboard shows nothing. *)
Theorem lite_dashboard_after_a_run (W : services)
    (gmaps_directions : directions_request -> directions_reply) (names : Z -> option string)
    (ui : Lite.settings) s :
  (forall ui', exists items,
      LiteDashboard.dashboard W gmaps_directions ui' names (snd (Lite.optimize_now W ui s))
      = Val items) /\
  (forall e, 0 <= Lite.num_vehicles ui -> fst (Lite.optimize_now W ui s) = Exc e ->
      LiteDashboard.dashboard W gmaps_directions ui names (snd (Lite.optimize_now W ui s))
      = Val []).
Proof.
  split.
  - intros ui'. apply dashboard_total; rewrite optimize_now_closed; cbv zeta;
      destruct (first_exception _); cbn; now rewrite !length_map.
  - intros e Hn Hrun. unfold LiteDashboard.dashboard.
    destruct (Z.eqb_spec (Py.len (Lite.route_paths (snd (Lite.optimize_now W ui s))))
                         (Lite.num_vehicles ui)) as [Heq|]; [|reflexivity].
    exfalso. revert Hrun Heq. rewrite optimize_now_closed. cbv zeta.
    assert (Hlen := entries_of_length (fleet_outcomes W ui s)).
    assert (Hos : List.length (fleet_outcomes W ui s) = Z.to_nat (Lite.num_vehicles ui)).
    { unfold fleet_outcomes. rewrite length_map, range2_length. f_equal. lia. }
    destruct (first_exception (fleet_outcomes W ui s)); cbn [fst snd Lite.route_paths];
      [|discriminate].
    unfold Py.len. rewrite length_map. unfold lite_entry in *. lia.
Qed.

Lemma lite_dashboard_after_a_run_witness :
  LiteDashboard.dashboard Demo.world (fun _ => DirectionsRoutes []) Demo.lite_ui (fun _ => None)
    (snd (Lite.optimize_now Demo.world Demo.lite_ui Demo.lost_session)) = Val [].
Proof.
  apply (proj2 (lite_dashboard_after_a_run Demo.world (fun _ => DirectionsRoutes [])
                  (fun _ => None) Demo.lite_ui Demo.lost_session) TypeError).
  - vm_compute. discriminate.
  - vm_compute. reflexivity.
Defined.

(** X11. After a completed run of Lite's handler the right column of the
    dashboard has, for every vehicle, a warning when the iteration for the
    vehicle recorded no label, and otherwise a card with the labels and the
    distance, time and load band that iteration recorded. *)
Theorem lite_info_column_shows_the_recorded_route (W : services) (names : Z -> option string)
    (ui : Lite.settings) s s' v :
  Lite.optimize_now W ui s = (Val tt, s') ->
  1 <= v <= Lite.num_vehicles ui ->
  exists s1 labels st,
    Lite.optimize_vehicle W ui v s = (Val tt, s1) /\
    Lite.route_paths s1 = (Lite.route_paths s ++ [labels])%list /\
    Lite.route_stats s1 = (Lite.route_stats s ++ [st])%list /\
    LiteDashboard.info_items names s' v =
    Val [match labels with
         | [] => LiteDashboard.NoRouteWarning (LiteDashboard.driver names v)
         | _ :: _ => LiteDashboard.RouteCard (LiteDashboard.driver names v) labels
                       (Lite.distance st) (Lite.time st) (Lite.score st)
         end].
Proof.
  intros Hrun Hv.
  destruct (completed_run_entry W ui s s' v Hrun Hv)
    as [labels [addrs [st [Hen [Hp [_ [Hs _]]]]]]].
  eexists _, labels, st.
  split; [rewrite optimize_vehicle_outcome; unfold lite_record; rewrite Hen; reflexivity|].
  cbn [Lite.route_paths Lite.route_stats]. split; [reflexivity|]. split; [reflexivity|].
  unfold LiteDashboard.info_items.
  rewrite (getitem_pred _ _ _ (proj1 Hv) Hp), (getitem_pred _ _ _ (proj1 Hv) Hs). cbn [rbind].
  now destruct labels.
Qed.

Lemma lite_info_column_shows_the_recorded_route_witness :
  exists s1 labels st,
    Lite.optimize_vehicle Demo.world Demo.lite_ui 2 Demo.lite_session = (Val tt, s1) /\
    Lite.route_paths s1 = ([] ++ [labels])%list /\
    Lite.route_stats s1 = ([] ++ [st])%list /\
    LiteDashboard.info_items (fun _ => None)
      (snd (Lite.optimize_now Demo.world Demo.lite_ui Demo.lite_session)) 2 =
    Val [match labels with
         | [] => LiteDashboard.NoRouteWarning (LiteDashboard.driver (fun _ => None) 2)
         | _ :: _ => LiteDashboard.RouteCard (LiteDashboard.driver (fun _ => None) 2) labels
                       (Lite.distance st) (Lite.time st) (Lite.score st)
         end].
Proof.
  apply (lite_info_column_shows_the_recorded_route Demo.world (fun _ => None) Demo.lite_ui
           Demo.lite_session (snd (Lite.optimize_now Demo.world Demo.lite_ui Demo.lite_session)) 2).
  - vm_compute. reflexivity.
  - vm_compute. split; discriminate.
Defined.

(** X12. After a completed run of Lite's handler, with the geocoder
    answering as during the run, the map of the dashboard has for every
    vehicle one marker per label of its recorded route, in the order of
    the route: no stop of a recorded route is missing from the map, and a
    vehicle without a route adds nothing to it. *)
Theorem lite_map_marks_every_label (W : services)
    (gmaps_directions : directions_request -> directions_reply) (names : Z -> option string)
    (ui : Lite.settings) s s' v :
  Lite.optimize_now W ui s = (Val tt, s') ->
  1 <= v <= Lite.num_vehicles ui ->
  exists labels items,
    nth_error (Lite.route_paths s') (Z.to_nat (v - 1)) = Some labels /\
    LiteDashboard.map_items W gmaps_directions names s' v = Val items /\
    popups items = labels /\
    (labels = [] -> items = []).
Proof.
  intros Hrun Hv.
  destruct (completed_run_entry W ui s s' v Hrun Hv)
    as [labels [addrs [st [Hen [Hp [Ha [_ Hlen]]]]]]].
  assert (Hgeo : Forall (fun a => Lite.geocode_address W a <> None) addrs).
  { destruct (lite_vehicle_outcome W ui (Lite.vehicle_stops s v)) as [o evs] eqn:Ho.
    cbn [fst] in Hen. subst o. exact (lite_outcome_geocoded W ui _ _ _ _ _ Ho). }
  exists labels. unfold LiteDashboard.map_items.
  rewrite (getitem_pred _ _ _ (proj1 Hv) Hp), (getitem_pred _ _ _ (proj1 Hv) Ha). cbn [rbind].
  destruct addrs as [|a addrs].
  - destruct labels; [|discriminate]. exists []. auto.
  - destruct (color_of_vehicle v) as [c ->]. cbn [rbind]. eexists. split; [exact Hp|].
    split; [reflexivity|]. split.
    + unfold popups. rewrite flat_map_app. fold (popups
        (flat_map (fun lc : string * option coord =>
                     match snd lc with
                     | Some c0 => [LiteDashboard.CircleMarker c0 (fst lc) c]
                     | None => []
                     end)
                  (combine labels (map (Lite.geocode_address W) (a :: addrs))))).
      rewrite (popups_markers W labels (a :: addrs) c Hlen Hgeo).
      destruct (get_route_polyline gmaps_directions (a :: addrs)) as [[|pt pts]|]; reflexivity.
    + intros ->. discriminate.
Qed.

Lemma lite_map_marks_every_label_witness :
  exists labels items,
    nth_error (Lite.route_paths
                 (snd (Lite.optimize_now Demo.world Demo.lite_ui Demo.lite_session)))
              (Z.to_nat (1 - 1)) = Some labels /\
    LiteDashboard.map_items Demo.world (fun _ => DirectionsRoutes []) (fun _ => None)
      (snd (Lite.optimize_now Demo.world Demo.lite_ui Demo.lite_session)) 1 = Val items /\
    popups items = labels /\
    (labels = [] -> items = []).
Proof.
  apply (lite_map_marks_every_label Demo.world (fun _ => DirectionsRoutes []) (fun _ => None)
           Demo.lite_ui Demo.lite_session).
  - vm_compute. reflexivity.
  - vm_compute. split; discriminate.
Defined.

(** * The geocoders and the request for the route line *)

Section Slices.
Context {A : Type}.

Lemma getitem_last (l : list A) (y : A) : Py.getitem (l ++ [y]) (-1) = Val y.
Proof.
  unfold Py.getitem, Py.len. rewrite length_app. cbn [List.length].
  destruct (Z.ltb_spec (-1) 0); [|lia].
  destruct (Z.ltb_spec (Z.of_nat (List.length l + 1) + -1) 0); [lia|].
  replace (Z.to_nat (Z.of_nat (List.length l + 1) + -1)) with (List.length l) by lia.
  now rewrite nth_error_app2, Nat.sub_diag by lia.
Qed.

Lemma removelast_last (l : list A) (y : A) : removelast (l ++ [y]) = l.
Proof. rewrite removelast_app by discriminate. cbn. apply app_nil_r. Qed.

End Slices.

(** X13. Pro's [geocode] and Lite's [geocode_address] return the same for
    every address that is not blank.  For a blank address (empty, or made
    of characters that [str.strip] removes, the ideographic space U+3000 of
    the example among them) Lite returns [None] whatever the service
    answers; the guard is Lite's only. *)
Theorem geocoders_agree_on_addresses_that_are_not_blank (W : services) (a : string) :
  (blank a = false -> Lite.geocode_address W a = Pro.geocode W a) /\
  (blank a = true -> Lite.geocode_address W a = None).
Proof.
  split.
  - intros Hb. unfold Lite.geocode_address, Pro.geocode.
    rewrite strip_eqb_empty, Hb.
    destruct a as [|c a]; [discriminate|]. reflexivity.
  - apply geocode_address_blank.
Qed.

Lemma geocoders_agree_on_addresses_that_are_not_blank_witness :
  Lite.geocode_address Demo.world "Metrotown" = Pro.geocode Demo.world "Metrotown" /\
  Lite.geocode_address Demo.lenient_world "  " = None /\
  Lite.geocode_address Demo.lenient_world "　" = None /\
  Pro.geocode Demo.lenient_world "　" <> None.
Proof.
  split; [|split; [|split]].
  - apply (proj1 (geocoders_agree_on_addresses_that_are_not_blank Demo.world "Metrotown")).
    reflexivity.
  - apply (proj2 (geocoders_agree_on_addresses_that_are_not_blank Demo.lenient_world "  ")).
    reflexivity.
  - apply (proj2 (geocoders_agree_on_addresses_that_are_not_blank Demo.lenient_world "　")).
    reflexivity.
  - discriminate.
Defined.

(** X14. [get_route_polyline] asks for the route from the first address
    to the last, through the addresses strictly between them, and with no
    waypoints when there are fewer than three addresses; for a single
    address origin and destination are that address.  It returns the
    points of the first route of the reply, and [None] when the list is
    empty, the service raises or finds no route. *)
Theorem route_line_request (gmaps_directions : directions_request -> directions_reply)
    (x y : string) (mid : list string) :
  get_route_polyline gmaps_directions [] = None /\
  get_route_polyline gmaps_directions [x] =
    first_polyline (gmaps_directions (mk_request x x None)) /\
  get_route_polyline gmaps_directions (x :: mid ++ [y]) =
    first_polyline (gmaps_directions
                      (mk_request x y (match mid with [] => None | _ :: _ => Some mid end))).
Proof.
  split; [reflexivity|]. split.
  - unfold get_route_polyline. cbn. now destruct (gmaps_directions _) as [|[|]].
  - unfold get_route_polyline.
    rewrite getitem_head, (app_comm_cons mid [y] x), getitem_last. cbn [rbind].
    unfold inner. cbn [tl]. rewrite <- app_comm_cons. cbn [tl]. rewrite removelast_last.
    replace (2 <? Py.len (x :: mid ++ [y])) with (match mid with [] => false | _ => true end).
    + destruct mid; now destruct (gmaps_directions _) as [|[|]].
    + unfold Py.len. cbn [List.length]. rewrite length_app. cbn [List.length].
      destruct mid; cbn [List.length]; [reflexivity|].
      symmetry. apply Z.ltb_lt. lia.
Qed.

(** * Editing the stops in Lite *)

Section EditLoops.

Lemma NoDup_map_inj {A B : Type} (f : A -> B) l :
  (forall x y, f x = f y -> x = y) -> NoDup l -> NoDup (map f l).
Proof.
  intros Hinj. induction 1 as [|x l Hx Hl IH]; cbn; constructor; [|exact IH].
  intros Hin. apply in_map_iff in Hin as [y [Hy Hin]]. apply Hinj in Hy. now subst.
Qed.

Lemma range2_NoDup a b : NoDup (Py.range2 a b).
Proof.
  unfold Py.range2, Py.range. apply NoDup_map_inj; [intros; lia|].
  apply NoDup_map_inj; [intros; lia|]. apply seq_NoDup.
Qed.

Lemma existsb_range2 a b v : existsb (Z.eqb v) (Py.range2 a b) = (a <=? v) && (v <? b).
Proof.
  destruct (existsb (Z.eqb v) (Py.range2 a b)) eqn:He.
  - apply existsb_exists in He as [u [Hu Heq]]. apply Z.eqb_eq in Heq. subst u.
    apply range2_in in Hu. symmetry. apply andb_true_iff. split; [apply Z.leb_le|apply Z.ltb_lt]; lia.
  - symmetry. apply andb_false_iff.
    destruct (Z.leb_spec a v); [|now left]. destruct (Z.ltb_spec v b); [|now right].
    exfalso. assert (Hin : In v (Py.range2 a b)) by (apply range2_in; lia).
    assert (Ht : existsb (Z.eqb v) (Py.range2 a b) = true).
    { apply existsb_exists. exists v. split; [exact Hin|apply Z.eqb_refl]. }
    congruence.
Qed.

Lemma for_each_ext {S A : Type} (f g : A -> M S unit) l s :
  (forall x s, f x s = g x s) -> for_each l f s = for_each l g s.
Proof.
  intros H. revert s. induction l as [|x l IH]; intros s; [reflexivity|].
  cbn [for_each]. unfold bind. rewrite H. destruct (g x s) as [[[]|e] s1]; [apply IH|reflexivity].
Qed.

(** A loop that replaces the stops of each vehicle of [l] by [g] of them. *)
Lemma edit_loop (g : Z -> list Lite.stop -> list Lite.stop) l :
  NoDup l ->
  forall s, exists s',
    for_each l (fun v => bind get (fun s0 =>
                  LiteEdit.set_vehicle_stops v (g v (Lite.vehicle_stops s0 v)))) s = (Val tt, s') /\
    Lite.route_paths s' = Lite.route_paths s /\
    Lite.route_addresses s' = Lite.route_addresses s /\
    Lite.route_stats s' = Lite.route_stats s /\
    Lite.events s' = Lite.events s /\
    forall v, Lite.vehicle_stops s' v =
              if existsb (Z.eqb v) l then g v (Lite.vehicle_stops s v) else Lite.vehicle_stops s v.
Proof.
  induction 1 as [|x l Hx Hl IH]; intros s.
  - exists s. cbn. auto 6.
  - cbn [for_each]. unfold bind at 1. unfold bind at 1, get, LiteEdit.set_vehicle_stops, modify.
    match goal with |- context [for_each l _ ?s1] => destruct (IH s1) as [s' [Hrun [Hp [Ha [Hs [He Hv]]]]]] end.
    exists s'. split; [exact Hrun|]. cbn in Hp, Ha, Hs, He.
    repeat (split; [assumption|]).
    intros v. rewrite Hv. cbn [Lite.vehicle_stops existsb].
    destruct (Z.eqb_spec v x) as [->|Hne]; cbn [orb].
    + assert (Hf : existsb (Z.eqb x) l = false).
      { destruct (existsb (Z.eqb x) l) eqn:He'; [|reflexivity].
        apply existsb_exists in He' as [u [Hu Heq]]. apply Z.eqb_eq in Heq. now subst u. }
      now rewrite Hf.
    + reflexivity.
Qed.

Lemma typed_echo (U : widgets) v stops :
  (forall key value, text_input U key value = value) -> LiteEdit.typed U v stops = stops.
Proof.
  intros Hecho. unfold LiteEdit.typed, enumerate.
  assert (H : forall (ks : list Z) (l : list Lite.stop),
             List.length ks = List.length l ->
             map (fun item : Z * (string * string) =>
                    let '(i, (label, address)) := item in
                    (text_input U (LiteEdit.label_key v i) label,
                     text_input U (LiteEdit.addr_key v i) address)) (combine ks l) = l).
  { clear stops. induction ks as [|k ks IH]; intros [|[lb ad] l] Hlen; try discriminate;
      [reflexivity|].
    change (map ?f (combine (k :: ks) ((lb, ad) :: l)))
      with ((text_input U (LiteEdit.label_key v k) lb, text_input U (LiteEdit.addr_key v k) ad)
            :: map f (combine ks l)).
    rewrite !Hecho. apply (f_equal (cons (lb, ad))). apply IH. now injection Hlen. }
  apply H. unfold Py.range. rewrite length_map, length_seq. unfold Py.len. lia.
Qed.

Lemma filter_entered_added (U : widgets) v stops :
  filter Lite.entered (LiteEdit.added U v stops) = filter Lite.entered stops.
Proof.
  unfold LiteEdit.added. destruct (button U _); [|reflexivity].
  rewrite filter_app. cbn. apply app_nil_r.
Qed.

End EditLoops.

(** X15. "Reset All" in Lite empties the stops of the vehicles that the
    slider shows and the three result lists; the stops of a vehicle beyond
    the slider stay as they are. *)
Theorem lite_reset_all_clears_the_vehicles_of_the_slider (ui : Lite.settings) s :
  exists s',
    LiteEdit.reset_all ui s = (Val tt, s') /\
    Lite.route_paths s' = [] /\ Lite.route_addresses s' = [] /\ Lite.route_stats s' = [] /\
    Lite.events s' = Lite.events s /\
    forall v, Lite.vehicle_stops s' v =
              if (1 <=? v) && (v <=? Lite.num_vehicles ui) then [] else Lite.vehicle_stops s v.
Proof.
  destruct (edit_loop (fun _ _ => []) _ (range2_NoDup 1 (Lite.num_vehicles ui + 1)) s)
    as [s1 [Hrun [_ [_ [_ [He Hv]]]]]].
  exists (Lite.mk_session (Lite.vehicle_stops s1) [] [] [] (Lite.events s1)).
  split.
  - unfold LiteEdit.reset_all, bind.
    rewrite (for_each_ext _ (fun v => bind get (fun s0 => LiteEdit.set_vehicle_stops v []))) by reflexivity.
    rewrite Hrun. reflexivity.
  - cbn. repeat (split; [reflexivity || assumption|]).
    intros v. rewrite Hv, existsb_range2.
    replace (v <? Lite.num_vehicles ui + 1) with (v <=? Lite.num_vehicles ui); [reflexivity|].
    destruct (Z.leb_spec v (Lite.num_vehicles ui)), (Z.ltb_spec v (Lite.num_vehicles ui + 1));
      (reflexivity || lia).
Qed.

(** X16. A stop that "Add Stop" appends has an empty address: until an
    address is typed it changes neither the address list nor the label
    list of the vehicle, and so nothing of what the handler computes. *)
Theorem lite_added_stop_is_left_out (W : services) (U : widgets) (ui : Lite.settings)
    (v : Z) (stops : list Lite.stop) :
  Lite.address_list ui (LiteEdit.added U v stops) = Lite.address_list ui stops /\
  Lite.label_list (LiteEdit.added U v stops) = Lite.label_list stops /\
  forall s1 s2,
    Lite.vehicle_stops s2 v = LiteEdit.added U v (Lite.vehicle_stops s1 v) ->
    fst (Lite.optimize_vehicle W ui v s2) = fst (Lite.optimize_vehicle W ui v s1).
Proof.
  split; [|split].
  - unfold Lite.address_list. now rewrite filter_entered_added.
  - unfold Lite.label_list. now rewrite filter_entered_added.
  - intros s1 s2 Hs. rewrite !optimize_vehicle_outcome. unfold lite_record.
    assert (Ho : lite_vehicle_outcome W ui (Lite.vehicle_stops s2 v) =
                 lite_vehicle_outcome W ui (Lite.vehicle_stops s1 v)).
    { rewrite Hs. unfold lite_vehicle_outcome, Lite.address_list, Lite.label_list.
      now rewrite filter_entered_added. }
    rewrite Ho. now destruct (fst (lite_vehicle_outcome W ui (Lite.vehicle_stops s1 v))) as [[[? ?] ?]|].
Qed.

(** X17. With inputs that show what is stored, a run of the script in
    which "Add Stop" is clicked for a vehicle followed by a run in which
    "Remove Last Stop" is clicked for it leaves the stops of the vehicle
    as they were; removing from a vehicle without stops changes nothing. *)
Theorem lite_add_then_remove_restores_the_stops (U1 U2 : widgets) (v : Z) s :
  (forall key value, text_input U1 key value = value) ->
  (forall key value, text_input U2 key value = value) ->
  button U1 (LiteEdit.add_key v) = true -> button U1 (LiteEdit.remove_key v) = false ->
  button U2 (LiteEdit.add_key v) = false -> button U2 (LiteEdit.remove_key v) = true ->
  Lite.vehicle_stops (snd (LiteEdit.enter_stops U2 v (snd (LiteEdit.enter_stops U1 v s)))) v
    = Lite.vehicle_stops s v /\
  (Lite.vehicle_stops s v = [] ->
   Lite.vehicle_stops (snd (LiteEdit.enter_stops U2 v s)) v = []).
Proof.
  intros He1 He2 Ha1 Hr1 Ha2 Hr2.
  unfold LiteEdit.enter_stops, bind, get, LiteEdit.set_vehicle_stops, modify.
  cbn [snd Lite.vehicle_stops]. rewrite !Z.eqb_refl, !typed_echo by assumption.
  unfold LiteEdit.added, LiteEdit.removed. rewrite Ha1, Hr1, Ha2, Hr2. cbn [andb].
  split.
  - replace (Py.len (Lite.vehicle_stops s v ++ [_]) =? 0) with false.
    + cbn [negb]. apply removelast_last.
    + symmetry. apply Z.eqb_neq. unfold Py.len. rewrite length_app. cbn. lia.
  - intros ->. reflexivity.
Qed.

Lemma lite_add_then_remove_restores_the_stops_witness :
  let U1 := mk_widgets (fun _ value => value) (fun key => (key =? "add_1")%string) in
  let U2 := mk_widgets (fun _ value => value) (fun key => (key =? "remove_1")%string) in
  Lite.vehicle_stops
    (snd (LiteEdit.enter_stops U2 1 (snd (LiteEdit.enter_stops U1 1 Demo.lite_session)))) 1
  = Lite.vehicle_stops Demo.lite_session 1.
Proof.
  cbv zeta.
  apply (lite_add_then_remove_restores_the_stops
           (mk_widgets (fun _ value => value) (fun key => (key =? "add_1")%string))
           (mk_widgets (fun _ value => value) (fun key => (key =? "remove_1")%string))
           1 Demo.lite_session); reflexivity.
Defined.

(** X18. Entering the stops touches nothing but the stops of the vehicles
    the slider shows, and each of these by its own inputs and buttons
    only: the result lists of the last run stay, so the dashboard goes on
    showing routes that the edited stops no longer match. *)
Theorem lite_editing_keeps_the_results (W : services)
    (gmaps_directions : directions_request -> directions_reply) (names : Z -> option string)
    (U : widgets) (ui : Lite.settings) s :
  exists s',
    LiteEdit.enter_all_stops U ui s = (Val tt, s') /\
    (forall v, Lite.vehicle_stops s' v =
               if (1 <=? v) && (v <=? Lite.num_vehicles ui)
               then LiteEdit.removed U v (LiteEdit.added U v
                      (LiteEdit.typed U v (Lite.vehicle_stops s v)))
               else Lite.vehicle_stops s v) /\
    Lite.route_paths s' = Lite.route_paths s /\
    Lite.route_addresses s' = Lite.route_addresses s /\
    Lite.route_stats s' = Lite.route_stats s /\
    LiteDashboard.dashboard W gmaps_directions ui names s' =
    LiteDashboard.dashboard W gmaps_directions ui names s.
Proof.
  destruct (edit_loop (fun v stops => LiteEdit.removed U v (LiteEdit.added U v
                                        (LiteEdit.typed U v stops)))
              _ (range2_NoDup 1 (Lite.num_vehicles ui + 1)) s)
    as [s' [Hrun [Hp [Ha [Hs [He Hv]]]]]].
  exists s'. split; [exact Hrun|]. split.
  - intros v. rewrite Hv, existsb_range2.
    replace (v <? Lite.num_vehicles ui + 1) with (v <=? Lite.num_vehicles ui); [reflexivity|].
    destruct (Z.leb_spec v (Lite.num_vehicles ui)), (Z.ltb_spec v (Lite.num_vehicles ui + 1));
      (reflexivity || lia).
  - repeat (split; [assumption|]).
    unfold LiteDashboard.dashboard, LiteDashboard.map_items, LiteDashboard.info_items.
    now rewrite Hp, Ha, Hs.
Qed.

Section EmptyFleet.
Variable W : services.
Variable ui : Lite.settings.

Lemma outcomes_without_stops s l :
  (forall v, In v l -> filter Lite.entered (Lite.vehicle_stops s v) = []) ->
  map (fun v => lite_vehicle_outcome W ui (Lite.vehicle_stops s v)) l =
  repeat (Val ([], [], Lite.mk_stats 0 0 Lite.Underused), []) (List.length l).
Proof.
  induction l as [|v l IH]; intros H; [reflexivity|].
  cbn [map List.length repeat]. rewrite IH by (intros u Hu; apply H; now right).
  f_equal. unfold lite_vehicle_outcome. now rewrite H by now left.
Qed.

Lemma repeat_val_outcomes (en : lite_entry) n :
  first_exception (repeat (Val en, @nil event) n) = None /\
  entries_of (repeat (Val en, []) n) = repeat en n /\
  events_of (repeat (Val en, @nil event) n) = [].
Proof. induction n as [|n [H1 [H2 H3]]]; cbn; [auto|]. rewrite H1, H2, H3. auto. Qed.

Lemma run_without_stops s :
  (forall v, 1 <= v <= Lite.num_vehicles ui ->
             filter Lite.entered (Lite.vehicle_stops s v) = []) ->
  Lite.optimize_now W ui s =
  (Val tt, Lite.mk_session (Lite.vehicle_stops s)
             (repeat [] (Z.to_nat (Lite.num_vehicles ui)))
             (repeat [] (Z.to_nat (Lite.num_vehicles ui)))
             (repeat (Lite.mk_stats 0 0 Lite.Underused) (Z.to_nat (Lite.num_vehicles ui)))
             (Lite.events s ++ [SuccessShown])).
Proof.
  intros H. rewrite optimize_now_closed. cbv zeta. unfold fleet_outcomes.
  rewrite outcomes_without_stops by (intros v Hv; apply H; apply range2_in in Hv; lia).
  rewrite range2_length.
  replace (Z.to_nat (Lite.num_vehicles ui + 1 - 1)) with (Z.to_nat (Lite.num_vehicles ui)) by lia.
  destruct (repeat_val_outcomes ([], [], Lite.mk_stats 0 0 Lite.Underused)
              (Z.to_nat (Lite.num_vehicles ui))) as [H1 [H2 H3]].
  unfold lite_entry in *. rewrite H1, H2, H3, !map_repeat, app_nil_r. reflexivity.
Qed.

End EmptyFleet.

(** X19. When no vehicle of the slider has an entered stop, a run of
    Lite's handler completes without a call to the solver: every vehicle
    gets an empty route and the "Underused" band, and the only event is the
    success message.  This is so in particular right after "Reset All". *)
Theorem lite_run_over_an_empty_fleet (W : services) (ui : Lite.settings) :
  (forall s,
      (forall v, 1 <= v <= Lite.num_vehicles ui ->
                 filter Lite.entered (Lite.vehicle_stops s v) = []) ->
      Lite.optimize_now W ui s =
      (Val tt, Lite.mk_session (Lite.vehicle_stops s)
                 (repeat [] (Z.to_nat (Lite.num_vehicles ui)))
                 (repeat [] (Z.to_nat (Lite.num_vehicles ui)))
                 (repeat (Lite.mk_stats 0 0 Lite.Underused) (Z.to_nat (Lite.num_vehicles ui)))
                 (Lite.events s ++ [SuccessShown]))) /\
  (forall s,
      let r := Lite.optimize_now W ui (snd (LiteEdit.reset_all ui s)) in
      fst r = Val tt /\
      Lite.route_stats (snd r) =
        repeat (Lite.mk_stats 0 0 Lite.Underused) (Z.to_nat (Lite.num_vehicles ui)) /\
      Lite.events (snd r) = (Lite.events s ++ [SuccessShown])%list).
Proof.
  split; [apply run_without_stops|].
  intros s.
  destruct (edit_loop (fun _ _ => []) _ (range2_NoDup 1 (Lite.num_vehicles ui + 1)) s)
    as [s1 [Hrun [_ [_ [_ [He Hv]]]]]].
  assert (Hreset : LiteEdit.reset_all ui s =
                   (Val tt, Lite.mk_session (Lite.vehicle_stops s1) [] [] [] (Lite.events s1))).
  { unfold LiteEdit.reset_all, bind.
    rewrite (for_each_ext _ (fun v => bind get (fun s0 => LiteEdit.set_vehicle_stops v [])))
      by reflexivity.
    rewrite Hrun. reflexivity. }
  cbv zeta. rewrite Hreset. cbn [snd]. rewrite run_without_stops.
  - cbn. rewrite He. auto.
  - intros v Hv'. cbn [Lite.vehicle_stops]. rewrite Hv, existsb_range2.
    replace (1 <=? v) with true by (symmetry; apply Z.leb_le; lia).
    replace (v <? Lite.num_vehicles ui + 1) with true by (symmetry; apply Z.ltb_lt; lia).
    reflexivity.
Qed.

Lemma lite_run_over_an_empty_fleet_witness :
  Lite.route_stats
    (snd (Lite.optimize_now Demo.world Demo.lite_ui
            (Lite.mk_session (fun _ => [("Stop 1", "  ")]) [] [] [] []))) =
  repeat (Lite.mk_stats 0 0 Lite.Underused) 2.
Proof.
  rewrite (proj1 (lite_run_over_an_empty_fleet Demo.world Demo.lite_ui)
             (Lite.mk_session (fun _ => [("Stop 1", "  ")]) [] [] [] [])).
  - reflexivity.
  - intros v _. reflexivity.
Defined.

(** * Editing the routes in Pro *)

Section Dicts.

Lemma str_int_inj a b : str_int a = str_int b -> a = b.
Proof.
  unfold str_int. intros H. apply DecimalZ.to_int_inj.
  assert (Hnn : forall n, Z.to_int n <> Decimal.Pos Decimal.Nil /\
                          Z.to_int n <> Decimal.Neg Decimal.Nil).
  { intros [|q|q]; cbn; split; try discriminate; intros [= Hq];
      exact (DecimalPos.Unsigned.to_uint_nonnil q Hq). }
  assert (Ha := DecimalString.NilZero.isi _ (proj1 (Hnn a)) (proj2 (Hnn a))).
  assert (Hb := DecimalString.NilZero.isi _ (proj1 (Hnn b)) (proj2 (Hnn b))).
  rewrite H in Ha. congruence.
Qed.

Lemma route_name_inj a b : route_name a = route_name b -> a = b.
Proof. unfold route_name. cbn. intros [= H]. now apply str_int_inj. Qed.

Lemma dict_set_fresh {V : Type} (d : list (string * V)) k v :
  ~ In k (map fst d) -> Pro.dict_set d k v = (d ++ [(k, v)])%list.
Proof.
  induction d as [|[k' v'] d IH]; cbn; intros Hnot; [reflexivity|].
  destruct (String.eqb_spec k' k) as [->|Hne]; [exfalso; auto|].
  f_equal. apply IH. auto.
Qed.

Lemma dict_set_keys {V : Type} (d : list (string * V)) k v x :
  dict_get d k = Val x -> map fst (Pro.dict_set d k v) = map fst d.
Proof.
  induction d as [|[k' v'] d IH]; cbn; [discriminate|].
  destruct (String.eqb_spec k' k) as [->|Hne]; [reflexivity|].
  intros H. cbn. f_equal. now apply IH.
Qed.

Lemma dict_set_length {V : Type} (d : list (string * V)) k v x :
  dict_get d k = Val x -> List.length (Pro.dict_set d k v) = List.length d.
Proof.
  intros H. rewrite <- (length_map fst), (dict_set_keys d k v x H). apply length_map.
Qed.

Lemma dict_set_set {V : Type} (d : list (string * V)) k v v' :
  Pro.dict_set (Pro.dict_set d k v) k v' = Pro.dict_set d k v'.
Proof.
  induction d as [|[k0 v0] d IH]; cbn.
  - now rewrite String.eqb_refl.
  - destruct (String.eqb_spec k0 k) as [->|Hne]; cbn.
    + now rewrite String.eqb_refl.
    + destruct (String.eqb_spec k0 k); [contradiction|]. now rewrite IH.
Qed.

Lemma dict_set_get {V : Type} (d : list (string * V)) k x :
  dict_get d k = Val x -> Pro.dict_set d k x = d.
Proof.
  induction d as [|[k0 v0] d IH]; cbn; [discriminate|].
  destruct (String.eqb_spec k0 k) as [->|Hne].
  - now intros [= ->].
  - intros H. f_equal. now apply IH.
Qed.

Lemma list_pop_insert {A : Type} (l : list A) k x :
  0 <= k <= Py.len l -> list_pop (list_insert l k x) k = Val l.
Proof.
  intros Hk. unfold list_pop, list_insert, Py.len in *. cbv zeta.
  assert (Hk0 : (k <? 0) = false) by (apply Z.ltb_ge; lia).
  rewrite Hk0. cbv iota. rewrite Hk0. cbn [orb].
  assert (Hlen : List.length (firstn (Z.to_nat k) l) = Z.to_nat k)
    by (rewrite length_firstn; lia).
  rewrite length_app. cbn [List.length]. rewrite Hlen, length_skipn.
  destruct (Z.leb_spec (Z.of_nat (Z.to_nat k + S (List.length l - Z.to_nat k))) k); [lia|].
  f_equal.
  rewrite firstn_app, Hlen, Nat.sub_diag, firstn_O, app_nil_r.
  rewrite firstn_all2 by lia.
  replace (S (Z.to_nat k)) with (List.length (firstn (Z.to_nat k) l ++ [x]))
    by (rewrite length_app, Hlen; cbn; lia).
  replace (firstn (Z.to_nat k) l ++ x :: skipn (Z.to_nat k) l)%list
    with ((firstn (Z.to_nat k) l ++ [x]) ++ skipn (Z.to_nat k) l)%list
    by (now rewrite <- app_assoc).
  rewrite skipn_app, skipn_all, Nat.sub_diag. cbn [skipn app].
  apply firstn_skipn.
Qed.

Lemma numbered_NoDup d : numbered d -> NoDup (map fst d).
Proof.
  unfold numbered. intros ->. apply NoDup_map_inj; [exact route_name_inj|apply range2_NoDup].
Qed.

Lemma numbered_next_is_fresh d : numbered d -> ~ In (route_name (Py.len d + 1)) (map fst d).
Proof.
  unfold numbered. intros -> Hin. apply in_map_iff in Hin as [i [Hi Hin]].
  apply route_name_inj in Hi. apply range2_in in Hin. lia.
Qed.

Lemma range2_snoc n : 0 <= n -> Py.range2 1 (n + 1 + 1) = (Py.range2 1 (n + 1) ++ [n + 1])%list.
Proof.
  intros Hn. unfold Py.range2, Py.range.
  replace (Z.to_nat (n + 1 + 1 - 1)) with (S (Z.to_nat (n + 1 - 1))) by lia.
  rewrite seq_S, !map_app. cbn [map]. do 2 f_equal. lia.
Qed.

Lemma numbered_snoc d v : numbered d -> numbered (d ++ [(route_name (Py.len d + 1), v)]).
Proof.
  unfold numbered. intros H. rewrite map_app, H. cbn [map fst].
  replace (Py.len (d ++ [(route_name (Py.len d + 1), v)])) with (Py.len d + 1)
    by (unfold Py.len; rewrite length_app; cbn; lia).
  rewrite range2_snoc by (unfold Py.len; lia). now rewrite map_app.
Qed.

Lemma numbered_same_keys d d' : map fst d' = map fst d -> numbered d -> numbered d'.
Proof.
  unfold numbered. intros Hk H. rewrite Hk, H.
  assert (Hlen : Py.len d' = Py.len d).
  { unfold Py.len. f_equal. rewrite <- (length_map fst d'), Hk. apply length_map. }
  now rewrite Hlen.
Qed.

End Dicts.

(** X20. The routes of Pro are always named "Route 1", "Route 2", ... in
    order, so no two share a name.  "Reset All Routes" and "Load Sample
    Data" leave them so; "Add New Route" then appends a route with the
    next number and one blank stop, overwriting none; "Add Stop Below" and
    "Remove Stop" change no name. *)
Theorem pro_routes_stay_numbered (ui : Pro.settings) :
  (forall s, numbered (Pro.routes (snd (ProEdit.reset_all_routes s)))) /\
  (forall s, numbered (Pro.routes (snd (ProEdit.load_sample_data ui s)))) /\
  (forall s, numbered (Pro.routes s) ->
     Pro.routes (snd (ProEdit.add_new_route ui s)) =
       (Pro.routes s ++ [(route_name (Py.len (Pro.routes s) + 1), [ProEdit.new_stop ui])])%list /\
     numbered (Pro.routes (snd (ProEdit.add_new_route ui s)))) /\
  (forall s route i s', numbered (Pro.routes s) ->
     ProEdit.add_stop_below ui route i s = (Val tt, s') -> numbered (Pro.routes s')) /\
  (forall s route i s', numbered (Pro.routes s) ->
     ProEdit.remove_stop route i s = (Val tt, s') -> numbered (Pro.routes s')) /\
  (forall s, numbered (Pro.routes s) -> NoDup (map fst (Pro.routes s))).
Proof.
  split; [intros s; reflexivity|]. split; [intros s; reflexivity|].
  split; [|split; [|split]].
  - intros s Hn.
    assert (Hr : Pro.routes (snd (ProEdit.add_new_route ui s)) =
                 (Pro.routes s ++ [(route_name (Py.len (Pro.routes s) + 1),
                                    [ProEdit.new_stop ui])])%list).
    { unfold ProEdit.add_new_route, bind, get, ProEdit.set_routes, modify. cbn [snd Pro.routes].
      apply dict_set_fresh. now apply numbered_next_is_fresh. }
    split; [exact Hr|]. rewrite Hr. now apply numbered_snoc.
  - intros s route i s' Hn. unfold ProEdit.add_stop_below, bind, get, lift.
    destruct (dict_get (Pro.routes s) route) as [stops|] eqn:Hg; [|discriminate].
    unfold ProEdit.set_routes, modify. intros [= <-]. cbn [Pro.routes].
    eapply numbered_same_keys; [|exact Hn]. eapply dict_set_keys. exact Hg.
  - intros s route i s' Hn. unfold ProEdit.remove_stop, bind, get, lift.
    destruct (dict_get (Pro.routes s) route) as [stops|] eqn:Hg; [|discriminate].
    destruct (list_pop stops i) as [stops'|]; [|discriminate].
    unfold ProEdit.set_routes, modify. intros [= <-]. cbn [Pro.routes].
    eapply numbered_same_keys; [|exact Hn]. eapply dict_set_keys. exact Hg.
  - intros s. apply numbered_NoDup.
Qed.

Lemma pro_routes_stay_numbered_witness :
  Pro.routes (snd (ProEdit.add_new_route Demo.pro_ui Demo.two_routes)) =
    (Pro.routes Demo.two_routes ++ [("Route 3", [ProEdit.new_stop Demo.pro_ui])])%list /\
  NoDup (map fst (Pro.routes (snd (ProEdit.add_new_route Demo.pro_ui Demo.two_routes)))).
Proof.
  destruct (pro_routes_stay_numbered Demo.pro_ui) as [_ [_ [Hadd [_ [_ Hnd]]]]].
  destruct (Hadd Demo.two_routes ltac:(reflexivity)) as [Hr Hn].
  split; [exact Hr|]. exact (Hnd _ Hn).
Defined.

(** X21. In Pro, the branch of "Add Stop Below" for stop [i] of a route
    puts a blank stop at position [i + 1]; the branch of "Remove Stop" for
    that position then gives back the session as it was.  What the inputs
    write into the stops between the two is not part of this. *)
Theorem pro_add_then_remove_restores_the_routes (ui : Pro.settings) s route stops i :
  dict_get (Pro.routes s) route = Val stops ->
  0 <= i < Py.len stops ->
  exists s1,
    ProEdit.add_stop_below ui route i s = (Val tt, s1) /\
    dict_get (Pro.routes s1) route = Val (list_insert stops (i + 1) (ProEdit.new_stop ui)) /\
    ProEdit.remove_stop route (i + 1) s1 = (Val tt, s).
Proof.
  intros Hg Hi. unfold ProEdit.add_stop_below, bind, get, lift. rewrite Hg.
  unfold ProEdit.set_routes, modify. eexists. split; [reflexivity|].
  cbn [Pro.routes]. split; [apply dict_get_set_same|].
  unfold ProEdit.remove_stop, bind, get, lift. cbn [Pro.routes].
  rewrite dict_get_set_same, list_pop_insert by lia.
  unfold ProEdit.set_routes, modify. cbn [Pro.routes Pro.metrics Pro.events].
  rewrite dict_set_set, (dict_set_get _ _ _ Hg). now destruct s.
Qed.

Lemma pro_add_then_remove_restores_the_routes_witness :
  exists s1,
    ProEdit.add_stop_below Demo.pro_ui "Route 2" 0 Demo.two_routes = (Val tt, s1) /\
    dict_get (Pro.routes s1) "Route 2" =
      Val (list_insert [Pro.mk_stop "Stanley Park" "9:00-11:00" 6 "Alice";
                        Pro.mk_stop "UBC Vancouver" "11:00-13:00" 9 "Alice"]
                       (0 + 1) (ProEdit.new_stop Demo.pro_ui)) /\
    ProEdit.remove_stop "Route 2" (0 + 1) s1 = (Val tt, Demo.two_routes).
Proof.
  apply (pro_add_then_remove_restores_the_routes Demo.pro_ui Demo.two_routes "Route 2").
  - reflexivity.
  - vm_compute. split; [discriminate|reflexivity].
Defined.

Section NewRoute.
Variable W : services.
Variable ui : Pro.settings.

Lemma first_exception_snoc {A : Type} (os : list (res A * list event)) a :
  first_exception (os ++ [(Val a, [])]) = first_exception os.
Proof. induction os as [|[[x|e] evs] os IH]; cbn; auto. Qed.

Lemma events_of_snoc {A : Type} (os : list (res A * list event)) a :
  events_of (os ++ [(Val a, [])]) = events_of os.
Proof.
  induction os as [|[[x|e] evs] os IH]; cbn; [reflexivity| |reflexivity]. now rewrite IH.
Qed.

Lemma stored_of_snoc os : stored_of (os ++ [(Val None, [])]) = stored_of os.
Proof.
  induction os as [|[[[kv|]|e] evs] os IH]; cbn; [reflexivity| | |reflexivity]; now rewrite IH.
Qed.

Lemma blank_route_outcome name stops :
  filter Pro.entered stops = [] -> pro_route_outcome W ui (name, stops) = (Val None, []).
Proof. unfold pro_route_outcome. cbn [snd]. now intros ->. Qed.

End NewRoute.

(** X22. A route that "Add New Route" has just appended has no entered
    stop: a run of Pro's handler with it ends in the same way, with the
    same metrics and the same events as a run without it, and stores no
    metric for it. *)
Theorem pro_new_route_changes_no_result (W : services) (ui ui' : Pro.settings) s :
  numbered (Pro.routes s) ->
  let s1 := snd (ProEdit.add_new_route ui' s) in
  fst (Pro.optimize_now W ui s1) = fst (Pro.optimize_now W ui s) /\
  Pro.metrics (snd (Pro.optimize_now W ui s1)) = Pro.metrics (snd (Pro.optimize_now W ui s)) /\
  Pro.events (snd (Pro.optimize_now W ui s1)) = Pro.events (snd (Pro.optimize_now W ui s)).
Proof.
  intros Hn s1.
  assert (Hr : Pro.routes s1 =
               (Pro.routes s ++ [(route_name (Py.len (Pro.routes s) + 1),
                                  [ProEdit.new_stop ui'])])%list).
  { unfold s1, ProEdit.add_new_route, bind, get, ProEdit.set_routes, modify.
    cbn [snd Pro.routes]. apply dict_set_fresh. now apply numbered_next_is_fresh. }
  assert (Hm : Pro.metrics s1 = Pro.metrics s) by reflexivity.
  assert (He : Pro.events s1 = Pro.events s) by reflexivity.
  clearbody s1. rewrite !pro_optimize_now_closed.
  destruct (Pro.geocode W (Pro.depot_address ui)); [|cbn; rewrite Hm, He; auto].
  cbv zeta. rewrite Hr, map_app. cbn [map].
  rewrite (blank_route_outcome W ui _ [ProEdit.new_stop ui']) by reflexivity.
  rewrite first_exception_snoc, stored_of_snoc, events_of_snoc, He.
  destruct (first_exception _); cbn; auto.
Qed.

Lemma pro_new_route_changes_no_result_witness :
  Pro.metrics (snd (Pro.optimize_now Demo.world Demo.pro_ui
                      (snd (ProEdit.add_new_route Demo.other_pro_ui Demo.two_routes)))) =
  Pro.metrics (snd (Pro.optimize_now Demo.world Demo.pro_ui Demo.two_routes)).
Proof.
  apply (pro_new_route_changes_no_result Demo.world Demo.pro_ui Demo.other_pro_ui
           Demo.two_routes).
  reflexivity.
Defined.

(** * Where the exceptions of a run come from *)

Section RunExceptions.
Variable W : services.

(** What makes the outcome of a Lite iteration a [TypeError]. *)
Lemma lite_outcome_type_error ui stops evs :
  lite_vehicle_outcome W ui stops = (Exc TypeError, evs) ->
  In None (map (Lite.geocode_address W) (Lite.address_list ui stops)) \/
  exists m, solve_vrp W m 1 = SolveRaises TypeError.
Proof.
  unfold lite_vehicle_outcome.
  destruct (filter Lite.entered stops); [discriminate|].
  destruct (Lite.dist_matrix _ _) as [m|e] eqn:Hm.
  - destruct (solve_vrp W m 1) as [e| |[|p ps]] eqn:Hsolve; try discriminate.
    + intros [= -> _]. right. now exists m.
    + destruct (edge_costs m p) as [costs|e] eqn:Hc; cbn [rbind].
      * destruct (rmap (Py.getitem (Lite.label_list stops)) p) as [ls|e] eqn:Hl; cbn [rbind].
        -- destruct (rmap (Py.getitem (Lite.address_list ui stops)) p) as [ads|e] eqn:Ha;
             cbn [rbind]; [discriminate|].
           intros [= -> _].
           destruct (in_range_all_or_not (Py.len (Lite.address_list ui stops)) p) as [Hall|Hex];
             unfold in_range in *.
           ++ destruct (rmap_getitem_in_range _ _ Hall) as [ys Hys]. congruence.
           ++ rewrite (rmap_getitem_out_of_range _ _ Hex) in Ha. discriminate.
        -- intros [= -> _].
           destruct (in_range_all_or_not (Py.len (Lite.label_list stops)) p) as [Hall|Hex];
             unfold in_range in *.
           ++ destruct (rmap_getitem_in_range _ _ Hall) as [ys Hys]. congruence.
           ++ rewrite (rmap_getitem_out_of_range _ _ Hex) in Hl. discriminate.
      * intros [= -> _]. apply edge_costs_raises in Hc. discriminate.
  - intros _. left.
    destruct (none_or_all_geocoded (map (Lite.geocode_address W) (Lite.address_list ui stops)))
      as [Hnone|Hall]; [exact Hnone|].
    destruct (dist_matrix_all_geocoded W _ Hall) as [m Hm']. congruence.
Qed.

Lemma first_exception_split {A : Type} (os : list (res A * list event)) e :
  first_exception os = Some e ->
  exists pre evs post,
    os = (pre ++ (Exc e, evs) :: post)%list /\ first_exception pre = None.
Proof.
  induction os as [|[[a|e'] evs] os IH]; cbn; intros H; [discriminate| |].
  - destruct (IH H) as [pre [evs' [post [-> Hpre]]]].
    exists ((Val a, evs) :: pre), evs', post. split; [reflexivity|exact Hpre].
  - injection H as ->. exists [], evs, os. split; reflexivity.
Qed.

Lemma stored_of_until pre e evs post :
  first_exception pre = None ->
  stored_of (pre ++ (Exc e, evs) :: post) = stored_of pre.
Proof.
  induction pre as [|[[[kv|]|e'] evs'] pre IH]; cbn; intros H; try discriminate;
    [reflexivity| |]; now rewrite IH.
Qed.

Lemma first_exception_none_in {A : Type} (os : list (res A * list event)) o :
  first_exception os = None -> In o os -> exists a, fst o = Val a.
Proof.
  induction os as [|[[a|e'] evs] os IH]; cbn; intros H Hin; [contradiction| |discriminate].
  destruct Hin as [<-|Hin]; [now exists a|auto].
Qed.

End RunExceptions.

(** X23. In Lite's script the handler runs only when the depot geocodes.
    So when a run of the script with "Optimize Now" clicked ends with a
    [TypeError], the depot is not what lacks coordinates: a vehicle of the
    slider has an entered stop whose address did not geocode, or the solver
    raised the [TypeError]. *)
Theorem lite_type_error_blames_a_stop (W : services) (ui : Lite.settings) s s' :
  Lite.script W ui true s = (Exc TypeError, s') ->
  Lite.geocode_address W (Lite.depot_address ui) <> None /\
  ((exists v st,
       1 <= v <= Lite.num_vehicles ui /\ In st (Lite.vehicle_stops s v) /\
       Lite.entered st = true /\ Lite.geocode_address W (snd st) = None) \/
   (exists m, solve_vrp W m 1 = SolveRaises TypeError)).
Proof.
  unfold Lite.script.
  destruct (Lite.geocode_address W (Lite.depot_address ui)) as [c|] eqn:Hdepot;
    [|discriminate].
  intros Hrun. split; [discriminate|].
  rewrite optimize_now_closed in Hrun. cbv zeta in Hrun.
  destruct (first_exception (fleet_outcomes W ui s)) as [e|] eqn:Hfirst; [|discriminate].
  injection Hrun as -> _.
  destruct (first_exception_at _ _ Hfirst) as [k [evs [Hk _]]].
  apply nth_error_In in Hk. unfold fleet_outcomes in Hk.
  apply in_map_iff in Hk as [v [Ho Hv]]. apply range2_in in Hv.
  destruct (lite_outcome_type_error W ui _ _ Ho) as [Hnone|Hsolver]; [left|now right].
  unfold Lite.address_list in Hnone. cbn [map] in Hnone. rewrite Hdepot in Hnone.
  destruct Hnone as [|Hnone]; [discriminate|].
  rewrite map_map in Hnone. apply in_map_iff in Hnone as [st [Hst Hin]].
  apply filter_In in Hin as [Hin Hent].
  exists v, st. repeat split; try assumption; lia.
Qed.

Lemma lite_type_error_blames_a_stop_witness :
  Lite.geocode_address Demo.world (Lite.depot_address Demo.lite_ui) <> None /\
  ((exists v st,
       1 <= v <= Lite.num_vehicles Demo.lite_ui /\ In st (Lite.vehicle_stops Demo.lost_session v) /\
       Lite.entered st = true /\ Lite.geocode_address Demo.world (snd st) = None) \/
   (exists m, solve_vrp Demo.world m 1 = SolveRaises TypeError)).
Proof.
  apply (lite_type_error_blames_a_stop Demo.world Demo.lite_ui Demo.lost_session
           (snd (Lite.script Demo.world Demo.lite_ui true Demo.lost_session))).
  vm_compute. reflexivity.
Defined.

(** X24. A run of Pro's handler that raises either stopped at a depot that
    does not geocode, with the metrics of before untouched, or stopped at
    the first route whose iteration raises: the routes before it were
    handled without an exception, and the metrics are those the loop over
    these routes alone leaves, so a failed run keeps partial metrics. *)
Theorem pro_failed_run_keeps_the_metrics_so_far (W : services) (ui : Pro.settings) s e s' :
  Pro.optimize_now W ui s = (Exc e, s') ->
  (Pro.geocode W (Pro.depot_address ui) = None /\ e = StopException /\
   Pro.metrics s' = Pro.metrics s) \/
  (exists before item after,
      Pro.routes s = (before ++ item :: after)%list /\
      fst (Pro.optimize_route W ui item s) = Exc e /\
      (forall it, In it before -> fst (Pro.optimize_route W ui it s) = Val tt) /\
      Pro.metrics s' =
      Pro.metrics (snd (for_each before (Pro.optimize_route W ui)
                          (Pro.mk_session (Pro.routes s) [] (Pro.events s))))).
Proof.
  rewrite pro_optimize_now_closed.
  destruct (Pro.geocode W (Pro.depot_address ui)) as [c|].
  2:{ intros [= <- <-]. left. auto. }
  cbv zeta.
  destruct (first_exception (map (pro_route_outcome W ui) (Pro.routes s))) as [e'|] eqn:Hfirst;
    [|discriminate].
  intros [= -> <-]. right.
  destruct (first_exception_split _ _ Hfirst) as [pre [evs [post [Hos Hpre]]]].
  destruct (map_eq_app _ _ _ _ Hos) as [before [rest [Hroutes [Hbefore Hrest]]]].
  destruct (map_eq_cons _ _ Hrest) as [item [after [-> [Hitem _]]]].
  exists before, item, after. split; [exact Hroutes|]. split; [|split].
  - rewrite optimize_route_outcome. unfold pro_record. now rewrite Hitem.
  - intros it Hit. rewrite optimize_route_outcome. unfold pro_record.
    destruct (first_exception_none_in pre (pro_route_outcome W ui it) Hpre) as [a Ha].
    { rewrite <- Hbefore. now apply in_map. }
    rewrite Ha. now destruct a as [[? ?]|].
  - cbn [Pro.metrics]. rewrite Hos, stored_of_until by exact Hpre.
    rewrite for_each_route_outcomes, pro_run_closed, Hbefore. reflexivity.
Qed.

Lemma pro_failed_run_keeps_the_metrics_so_far_witness :
  let e := ApiError "MAX_ELEMENTS_EXCEEDED" in
  ((Pro.geocode Demo.small_world (Pro.depot_address Demo.pro_ui) = None /\
    e = StopException /\
    Pro.metrics (snd (Pro.optimize_now Demo.small_world Demo.pro_ui Demo.two_routes)) =
    Pro.metrics Demo.two_routes) \/
   (exists before item after,
       Pro.routes Demo.two_routes = (before ++ item :: after)%list /\
       fst (Pro.optimize_route Demo.small_world Demo.pro_ui item Demo.two_routes) = Exc e /\
       (forall it, In it before ->
          fst (Pro.optimize_route Demo.small_world Demo.pro_ui it Demo.two_routes) = Val tt) /\
       Pro.metrics (snd (Pro.optimize_now Demo.small_world Demo.pro_ui Demo.two_routes)) =
       Pro.metrics (snd (for_each before (Pro.optimize_route Demo.small_world Demo.pro_ui)
                           (Pro.mk_session (Pro.routes Demo.two_routes) []
                                           (Pro.events Demo.two_routes)))))) /\
  Pro.geocode Demo.small_world (Pro.depot_address Demo.pro_ui) <> None /\
  map fst (Pro.metrics (snd (Pro.optimize_now Demo.small_world Demo.pro_ui Demo.two_routes)))
    = ["Route 1"].
Proof.
  cbv zeta. split; [|split].
  - apply (pro_failed_run_keeps_the_metrics_so_far Demo.small_world Demo.pro_ui
             Demo.two_routes (ApiError "MAX_ELEMENTS_EXCEEDED")
             (snd (Pro.optimize_now Demo.small_world Demo.pro_ui Demo.two_routes))).
    vm_compute. reflexivity.
  - vm_compute. discriminate.
  - vm_compute. reflexivity.
Defined.
